(** * gitops-coverage: the coverage report builder of [create-markdown.js]

    A shallow embedding of the script that turns an lcov trace and an
    istanbul JSON summary into a markdown table, and the properties of its
    parts: the line handler that rebuilds uncovered ranges, the merge into the
    summary, the two-level tree, the directory sums and the table builder.

    Conventions of the embedding.
    - JavaScript values are the JSON values the script can hold; an object is
      the list of its own properties in enumeration order; an array carries
      its elements and the named properties assigned to it.
    - Numbers are binary64 floats ([PrimFloat.float]).  A line number of the
      trace is the double that unary [+] makes of the matched digits: up to
      2^53 it is the integer that the digits denote and is carried as that
      integer ([Num.Int]), which a template prints back as its decimal;
      beyond, it is the double that [StringToNumber] gives ([Num.Double]),
      printed by [Number::toString].  These two operations of the language
      stay abstract: every property holds for all of them.
    - Strings are the UTF-8 encodings of the script's strings.  The line
      terminators known to the regular expressions are LF, CR, U+2028 and
      U+2029; the length and the indices of a string count UTF-16 code
      units.
    - A file name that names a function of [Object.prototype] reads that
      function from the summary: the range is stored on the function and
      the summary stays as it is.
    - A run ends in [Ok], in [Throw] (an exception leaves the function) or in
      [Beyond]: the run reaches a behaviour of the language that this
      development does not follow (a directory named as a member of
      [Object.prototype], an assignment to [__proto__], to an index or to
      the length of an array). *)

From Stdlib Require Import ZArith NArith List String Ascii Bool Lia.
From Stdlib Require Import DecimalString DecimalPos DecimalN.
From Stdlib Require Import PrimFloat FloatOps SpecFloat.
Import ListNotations.

Local Open Scope string_scope.
Local Open Scope list_scope.

(** ** Outcomes *)

Inductive result (A : Type) : Type :=
| Ok (a : A)
| Throw
| Beyond.

Arguments Ok {A} a.
Arguments Throw {A}.
Arguments Beyond {A}.

Definition bind {A B : Type} (r : result A) (k : A -> result B) : result B :=
  match r with
  | Ok a => k a
  | Throw => Throw
  | Beyond => Beyond
  end.

Notation "x <- r ;; k" := (bind r (fun x => k))
  (at level 61, r at next level, right associativity).
Notation "' p <- r ;; k" := (bind r (fun p => k))
  (at level 61, p pattern, r at next level, right associativity).

(** ** Strings *)

Module Str.

(** The two line terminators of one byte: LF and CR. *)
Definition isNewline (c : ascii) : bool :=
  (c =? "010")%char || (c =? "013")%char.

(** The two line terminators of three bytes: U+2028 and U+2029, that is
    E2 80 A8 and E2 80 A9. *)
Definition isSeparator (c c1 c2 : ascii) : bool :=
  (c =? "226")%char && (c1 =? "128")%char
  && ((c2 =? "168")%char || (c2 =? "169")%char).

(** A [LineTerminator] of the regular expression grammar starts the string. *)
Definition terminatorAt (s : string) : bool :=
  match s with
  | String c r =>
      isNewline c
      || match r with
         | String c1 (String c2 _) => isSeparator c c1 c2
         | _ => false
         end
  | EmptyString => false
  end.

(** The character [c] put in front of the first line. *)
Definition onFirst (c : ascii) (l : list string) : list string :=
  match l with
  | [] => [String c EmptyString]
  | h :: t => String c h :: t
  end.

(** The lines of a subject, split at every [LineTerminator]: never empty. *)
Fixpoint lines (s : string) : list string :=
  match s with
  | EmptyString => [EmptyString]
  | String c r =>
      if isNewline c then EmptyString :: lines r
      else match r with
           | String c1 (String c2 r') =>
               if isSeparator c c1 c2 then EmptyString :: lines r'
               else onFirst c (lines r)
           | _ => onFirst c (lines r)
           end
  end.

(** A code unit from U+0800 on, as three bytes. *)
Definition unit3 (u : N) : string :=
  String (ascii_of_N (224 + u / 4096))
    (String (ascii_of_N (128 + (u / 64) mod 64))
       (String (ascii_of_N (128 + u mod 64)) EmptyString)).

(** The UTF-16 code units of the string, each as a string: what indexing a
    string yields.  A character of one, two or three bytes is one code unit;
    a character of four bytes is two, the halves of its surrogate pair. *)
Fixpoint codeUnits (s : string) : list string :=
  match s with
  | EmptyString => []
  | String c r =>
      let b := N_of_ascii c in
      if (b <? 192)%N then String c EmptyString :: codeUnits r
      else
        match r with
        | String c1 r1 =>
            if (b <? 224)%N then String c (String c1 EmptyString) :: codeUnits r1
            else
              match r1 with
              | String c2 r2 =>
                  if (b <? 240)%N
                  then String c (String c1 (String c2 EmptyString)) :: codeUnits r2
                  else
                    match r2 with
                    | String c3 r3 =>
                        let point := ((b mod 8) * 262144
                                      + (N_of_ascii c1 mod 64) * 4096
                                      + (N_of_ascii c2 mod 64) * 64
                                      + N_of_ascii c3 mod 64 - 65536)%N in
                        unit3 (55296 + point / 1024)
                          :: unit3 (56320 + point mod 1024) :: codeUnits r3
                    | EmptyString => [String c r]
                    end
              | EmptyString => [String c r]
              end
        | EmptyString => [String c EmptyString]
        end
  end.

Definition isDigit (c : ascii) : bool :=
  let n := nat_of_ascii c in (48 <=? n)%nat && (n <=? 57)%nat.

Fixpoint drop (n : nat) (s : string) : string :=
  match n, s with
  | O, _ => s
  | S _, EmptyString => EmptyString
  | S k, String _ r => drop k r
  end.

Definition endsWith (suffix s : string) : bool :=
  (length suffix <=? length s)%nat
  && (drop (length s - length suffix) s =? suffix).

(** [s.split(c)] for a one-character separator: never empty. *)
Fixpoint splitOn (sep : ascii -> bool) (s : string) : list string :=
  match s with
  | EmptyString => [EmptyString]
  | String c r =>
      if sep c then EmptyString :: splitOn sep r
      else match splitOn sep r with
           | [] => [String c EmptyString]
           | h :: t => String c h :: t
           end
  end.

(** [parts.join(sep)] *)
Fixpoint join (sep : string) (parts : list string) : string :=
  match parts with
  | [] => EmptyString
  | [p] => p
  | p :: rest => p ++ sep ++ join sep rest
  end.

(** [s.replace(pat, rep)] with a string pattern: the first occurrence only.
    The replacements used by the script contain no [$]. *)
Fixpoint replaceFirst (pat rep s : string) : string :=
  if prefix pat s then rep ++ drop (length pat) s
  else match s with
       | EmptyString => EmptyString
       | String c r => String c (replaceFirst pat rep r)
       end.

(** [s.repeat(n)] *)
Fixpoint repeat (s : string) (n : nat) : string :=
  match n with
  | O => EmptyString
  | S k => s ++ repeat s k
  end.

(** The longest prefix of digits and what follows it. *)
Fixpoint spanDigits (s : string) : string * string :=
  match s with
  | EmptyString => (EmptyString, EmptyString)
  | String c r =>
      if isDigit c then let (d, t) := spanDigits r in (String c d, t)
      else (EmptyString, s)
  end.

Fixpoint digitsValue (acc : N) (s : string) : N :=
  match s with
  | EmptyString => acc
  | String c r => digitsValue (acc * 10 + N.of_nat (nat_of_ascii c - 48)) r
  end.

(** The integer that a string of decimal digits denotes. *)
Definition toNat (digits : string) : N := digitsValue 0%N digits.

(** The decimal of an integer, without leading zero: the key of an array
    index, and the text of an integer that a double holds exactly. *)
Definition ofNat (n : N) : string := NilEmpty.string_of_uint (N.to_uint n).

(** /\/+$/ removed from the end of the string. *)
Fixpoint stripTrailingSlashes (s : string) : string :=
  match s with
  | EmptyString => EmptyString
  | String c r =>
      match stripTrailingSlashes r with
      | EmptyString => if (c =? "/")%char then EmptyString else String c EmptyString
      | r' => String c r'
      end
  end.

End Str.

(** ** The regular expressions of the script

    All three carry the [m] flag: [^] and [$] match at the ends of every line
    of the subject, and [.] stops at a line terminator, so a match is always a
    whole line of the subject. *)

Definition subjectLines (s : string) : list string := Str.lines s.

Fixpoint firstMatch {A : Type} (f : string -> option A) (l : list string) : option A :=
  match l with
  | [] => None
  | s :: r => match f s with
              | Some a => Some a
              | None => firstMatch f r
              end
  end.

(** /^SF:(.+)$/m : the capture group of the leftmost match. *)
Definition reSF (line : string) : option string :=
  firstMatch (fun l => if prefix "SF:" l && (3 <? length l)%nat
                       then Some (Str.drop 3 l) else None)
             (subjectLines line).

(** /^DA:([0-9]+),0$/m : the capture group of the leftmost match. *)
Definition reDA (line : string) : option string :=
  firstMatch (fun l => if prefix "DA:" l
                       then let (d, t) := Str.spanDigits (Str.drop 3 l) in
                            if (0 <? length d)%nat && (t =? ",0") then Some d else None
                       else None)
             (subjectLines line).

(** /^.+\.js$/m : whether the key matches. *)
Definition isJsFileRe (key : string) : bool :=
  existsb (fun l => (4 <=? length l)%nat && Str.endsWith ".js" l) (subjectLines key).

(** ** Values *)

Unset Elimination Schemes.

Inductive value : Type :=
| VNull
| VBool (b : bool)
| VNum (x : float)
| VStr (s : string)
| VArr (elems : list value) (named : list (string * value))
| VObj (own : list (string * value)).

Set Elimination Schemes.

Definition props : Type := list (string * value).

(** The outcome of reading a property or a variable: [None] is [undefined]. *)
Definition slot : Type := option value.

Module Num.

(** [Number.EPSILON] *)
Definition EPSILON : float := Eval vm_compute in Z.ldexp 1%float (-52)%Z.

Definition ofPositive (p : positive) : float := SF2Prim (S754_finite false p 0%Z).

(** The number of an array length or of a character count. *)
Definition ofLength (n : nat) : float :=
  match Z.of_nat n with
  | Zpos p => ofPositive p
  | _ => 0%float
  end.

(** [Math.round]: the integer closest to [x], the upper one of two equally
    close; [x] itself when it is an integer, infinite or not a number; a
    zero keeps the sign of [x]. *)
Definition round (x : float) : float :=
  match Prim2SF x with
  | S754_finite s m e =>
      if (0 <=? e)%Z then x
      else
        let d := Z.pow 2 (- e) in
        let twice := if s then Z.opp (Zpos m~0) else Zpos m~0 in
        match Z.div (twice + d) (2 * d) with
        | Z0 => if s then neg_zero else zero
        | Zpos p => ofPositive p
        | Zneg p => (- ofPositive p)%float
        end
  | _ => x
  end.

(** The double of an integer up to 2^53, which holds it exactly. *)
Definition ofN (n : N) : float :=
  match n with
  | N0 => 0%float
  | Npos p => ofPositive p
  end.

(** 2^53: up to it every integer is a double of its own. *)
Definition maxExact : N := 9007199254740992.

(** A number that unary [+] makes of a string of decimal digits.  Up to
    2^53 the double is the integer that the digits denote and is carried as
    that integer; beyond, it is the double that [StringToNumber] gives, one
    for several strings of digits. *)
Inductive number : Type :=
| Int (n : N)
| Double (x : float).

Definition toFloat (v : number) : float :=
  match v with
  | Int n => ofN n
  | Double x => x
  end.

(** [a != b] *)
Definition differ (a b : number) : bool :=
  match a, b with
  | Int m, Int n => negb (m =? n)%N
  | _, _ => negb (toFloat a =? toFloat b)%float
  end.

End Num.

(** [ToBoolean] *)
Definition truthy (v : value) : bool :=
  match v with
  | VNull => false
  | VBool b => b
  | VNum x => negb (is_zero x || is_nan x)
  | VStr s => negb (s =? "")
  | VArr _ _ | VObj _ => true
  end.

Definition truthySlot (s : slot) : bool :=
  match s with
  | None => false
  | Some v => truthy v
  end.

(** ** Objects as property lists *)

Module Obj.

Fixpoint lookup (k : string) (ps : props) : slot :=
  match ps with
  | [] => None
  | (k', v) :: r => if k' =? k then Some v else lookup k r
  end.

Definition has (k : string) (ps : props) : bool :=
  match lookup k ps with
  | Some _ => true
  | None => false
  end.

Fixpoint update (k : string) (v : value) (ps : props) : props :=
  match ps with
  | [] => []
  | (k', v') :: r => if k' =? k then (k', v) :: r else (k', v') :: update k v r
  end.

Fixpoint remove (k : string) (ps : props) : props :=
  match ps with
  | [] => []
  | (k', v') :: r => if k' =? k then remove k r else (k', v') :: remove k r
  end.

(** An array index: the canonical decimal of an integer below 2^32 - 1. *)
Definition isArrayIndex (k : string) : bool :=
  (k =? Str.ofNat (Str.toNat k)) && (Str.toNat k <? 4294967295)%N.

(** Own keys enumerate array indices first, in ascending order, then the
    other keys in creation order. *)
Fixpoint insertIndex (i : N) (k : string) (v : value) (ps : props) : props :=
  match ps with
  | [] => [(k, v)]
  | (k', v') :: r =>
      if isArrayIndex k' && (Str.toNat k' <? i)%N
      then (k', v') :: insertIndex i k v r
      else (k, v) :: ps
  end.

Definition create (k : string) (v : value) (ps : props) : props :=
  if isArrayIndex k then insertIndex (Str.toNat k) k v ps else ps ++ [(k, v)].

(** [o[k] = v] on the own properties of an ordinary object. *)
Definition set (k : string) (v : value) (ps : props) : props :=
  if has k ps then update k v ps else create k v ps.

(** The names every object inherits from [Object.prototype]. *)
Definition inherited (k : string) : bool :=
  existsb (String.eqb k)
    ["constructor"; "__defineGetter__"; "__defineSetter__"; "hasOwnProperty";
     "__lookupGetter__"; "__lookupSetter__"; "isPrototypeOf";
     "propertyIsEnumerable"; "toString"; "valueOf"; "__proto__";
     "toLocaleString"].

(** [o[k]] for a key that the program does not control. *)
Definition read (k : string) (ps : props) : result slot :=
  match lookup k ps with
  | Some v => Ok (Some v)
  | None => if inherited k then Beyond else Ok None
  end.

(** [s[n]]: the code unit at index [n]. *)
Definition charAt (n : nat) (s : string) : slot :=
  option_map VStr (nth_error (Str.codeUnits s) n).

(** [v.k] or [v[k]] where [k] is an own key of [v] or one of the field
    names of the script, none of which is inherited by any value. *)
Definition get (v : value) (k : string) : result slot :=
  match v with
  | VNull => Throw
  | VBool _ | VNum _ => Ok None
  | VStr s =>
      Ok (if k =? "length"
          then Some (VNum (Num.ofLength (List.length (Str.codeUnits s))))
          else if isArrayIndex k then charAt (N.to_nat (Str.toNat k)) s
          else None)
  | VArr el ps =>
      Ok (if k =? "length" then Some (VNum (Num.ofLength (List.length el)))
          else if isArrayIndex k then nth_error el (N.to_nat (Str.toNat k))
          else lookup k ps)
  | VObj ps => Ok (lookup k ps)
  end.

(** [v.k = x] or [v[k] = x] in sloppy mode: the updated [v]. *)
Definition assign (v : value) (k : string) (x : value) : result value :=
  match v with
  | VNull => Throw
  | VBool _ | VNum _ | VStr _ => Ok v
  | VArr el ps =>
      if isArrayIndex k || (k =? "length") || ((k =? "__proto__") && negb (has k ps))
      then Beyond
      else Ok (VArr el (set k x ps))
  | VObj ps =>
      if (k =? "__proto__") && negb (has k ps) then Beyond
      else Ok (VObj (set k x ps))
  end.

(** The elements of an array, each under its index key, from index [i] on. *)
Fixpoint indexed (i : N) (el : list value) : props :=
  match el with
  | [] => []
  | v :: r => (Str.ofNat i, v) :: indexed (N.succ i) r
  end.

End Obj.

(** ** The line handler: RangeParser and SummaryMerger

    The variables of lines 49-52 of the script. *)

Record parser : Type := {
  filename : option string;
  isRecordingUncovered : bool;
  uncoveredBeginning : Num.number;
  uncoveredEnd : Num.number
}.

(** [filename = null], not recording, both ends 0. *)
Definition start : parser :=
  {| filename := None; isRecordingUncovered := false;
     uncoveredBeginning := Num.Int 0; uncoveredEnd := Num.Int 0 |}.

(** The property key that [jsonSummary[filename]] uses. *)
Definition propertyKey (f : option string) : string :=
  match f with
  | None => "null"
  | Some name => name
  end.

(** The members of [Object.prototype] that are functions: every inherited
    name but [__proto__]. *)
Definition inheritedFunction (k : string) : bool :=
  Obj.inherited k && negb (k =? "__proto__").

(** Lines 87-93: the range string pushed on [jsonSummary[filename].uncovered].
    Under a name that the summary does not own and inherits as a function
    ([constructor], [toString], ...), [jsonSummary[filename]] is that
    function: line 88 is skipped, the array is made and filled on the
    function, and the summary is as it was. *)
Definition recordRange (key range : string) (jsonSummary : props) : result props :=
  if negb (Obj.has key jsonSummary) && inheritedFunction key then Ok jsonSummary
  else
  found <- Obj.read key jsonSummary ;;
  let entry := match found with
               | Some v => if truthy v then v else VObj []
               | None => VObj []
               end in
  let summary := if truthySlot found then jsonSummary
                 else Obj.set key (VObj []) jsonSummary in
  u <- Obj.get entry "uncovered" ;;
  entry <- (if truthySlot u then Ok entry
            else Obj.assign entry "uncovered" (VArr [] [])) ;;
  u <- Obj.get entry "uncovered" ;;
  match u with
  | Some (VArr elems named) =>
      if Obj.has "push" named then Throw
      else
        entry <- Obj.assign entry "uncovered" (VArr (elems ++ [VStr range]) named) ;;
        Ok (Obj.set key entry summary)
  | _ => Throw
  end.

Section Handler.

(** The two operations of the language that stay abstract, met here beyond
    2^53 only. *)
Variable numberToString : float -> string.
Variable stringToNumber : string -> float.

(** [+digits] on the digits that the record expression captured. *)
Definition unaryPlus (digits : string) : Num.number :=
  if (Str.toNat digits <=? Num.maxExact)%N then Num.Int (Str.toNat digits)
  else Num.Double (stringToNumber digits).

(** A line number inside a template literal. *)
Definition printNumber (v : Num.number) : string :=
  match v with
  | Num.Int n => Str.ofNat n
  | Num.Double x => numberToString x
  end.

(** Lines 83-86: ["b"] or ["b-e"]. *)
Definition uncoveredString (b e : Num.number) : string :=
  printNumber b ++ (if Num.differ e b then "-" ++ printNumber e else "").

(** The ["line"] handler, lines 57-96. *)
Definition onLine (st : parser) (jsonSummary : props) (line : string)
  : result (parser * props) :=
  match reSF line with
  | Some name =>
      Ok ({| filename := Some name;
             isRecordingUncovered := isRecordingUncovered st;
             uncoveredBeginning := uncoveredBeginning st;
             uncoveredEnd := uncoveredEnd st |}, jsonSummary)
  | None =>
      match reDA line, isRecordingUncovered st with
      | Some digits, false =>
          Ok ({| filename := filename st;
                 isRecordingUncovered := true;
                 uncoveredBeginning := unaryPlus digits;
                 uncoveredEnd := unaryPlus digits |}, jsonSummary)
      | Some digits, true =>
          Ok ({| filename := filename st;
                 isRecordingUncovered := true;
                 uncoveredBeginning := uncoveredBeginning st;
                 uncoveredEnd := unaryPlus digits |}, jsonSummary)
      | None, true =>
          summary <- recordRange (propertyKey (filename st))
                       (uncoveredString (uncoveredBeginning st) (uncoveredEnd st))
                       jsonSummary ;;
          Ok ({| filename := filename st;
                 isRecordingUncovered := false;
                 uncoveredBeginning := uncoveredBeginning st;
                 uncoveredEnd := uncoveredEnd st |}, summary)
      | None, false => Ok (st, jsonSummary)
      end
  end.

(** The handler applied to the lines of the trace in order, up to the end of
    the stream. *)
Fixpoint readLines (st : parser) (jsonSummary : props) (lines : list string)
  : result (parser * props) :=
  match lines with
  | [] => Ok (st, jsonSummary)
  | line :: rest =>
      '(st', summary) <- onLine st jsonSummary line ;;
      readLines st' summary rest
  end.

End Handler.

(** ** Loading the summary (lines 16-32) *)

(** Lines 16-20.  The value of [projectPath.replace(/\/+$/, "")] is dropped
    by the script: strings are immutable, [projectPath] keeps its slashes. *)
Definition projectPath (env : option string) (dirname : string) : string :=
  let path := match env with
              | Some p => if p =? "" then dirname else p
              | None => dirname
              end in
  let _ := Str.stripTrailingSlashes path in
  path.

(** [Object.entries] of a value that is neither [null] nor [undefined]. *)
Definition entries (v : value) : props :=
  match v with
  | VNull | VBool _ | VNum _ => []
  | VStr s => Obj.indexed 0 (map VStr (Str.codeUnits s))
  | VArr el named => Obj.indexed 0 el ++ named
  | VObj own => own
  end.

(** [Object.fromEntries]: later pairs overwrite earlier ones. *)
Definition fromEntries (pairs : props) : props :=
  fold_left (fun o kv => Obj.set (fst kv) (snd kv) o) pairs [].

(** Lines 25-32; [loaded] is what [require] returns, [None] when it throws. *)
Definition loadSummary (projectPath : string) (loaded : option value) : props :=
  match loaded with
  | None | Some VNull => []
  | Some v =>
      fromEntries
        (map (fun kv => (Str.replaceFirst (projectPath ++ "/") "" (fst kv), snd kv))
             (entries v))
  end.

(** ** TreeBuilder (lines 105-121) *)

Definition pathSlices (filePath : string) : list string :=
  Str.splitOn (Ascii.eqb "/") filePath.

(** [pathSlices.slice(0, -1).join("/")] *)
Definition pathWithoutFile (filePath : string) : string :=
  Str.join "/" (removelast (pathSlices filePath)).

(** [pathSlices[pathSlices.length - 1]] *)
Definition fileOfPath (filePath : string) : string :=
  last (pathSlices filePath) EmptyString.

(** One turn of the loop of lines 106-118 on the key [filePath], whose value
    in [jsonSummary] is [v]. *)
Definition divideEntry (divided : props) (filePath : string) (v : value)
  : result props :=
  if filePath =? "total" then Ok (Obj.set filePath v divided)
  else
    let dir := pathWithoutFile filePath in
    found <- Obj.read dir divided ;;
    let target := match found with
                  | Some d => if truthy d then d else VObj []
                  | None => VObj []
                  end in
    let divided := if truthySlot found then divided
                   else Obj.set dir (VObj []) divided in
    target <- Obj.assign target (fileOfPath filePath) v ;;
    Ok (Obj.set dir target divided).

Fixpoint divideFrom (divided : props) (jsonSummary : props) : result props :=
  match jsonSummary with
  | [] => Ok divided
  | (filePath, v) :: rest =>
      divided <- divideEntry divided filePath v ;;
      divideFrom divided rest
  end.

(** [dividedJsonSummary] after the loop. *)
Definition dividedJsonSummary (jsonSummary : props) : result props :=
  divideFrom [] jsonSummary.

(** Line 121: [const { total: totalSummary, ...filesSummary } = dividedJsonSummary] *)
Definition totalSummary (divided : props) : slot := Obj.lookup "total" divided.
Definition filesSummary (divided : props) : props := Obj.remove "total" divided.

(** ** Aggregator (lines 271-368) *)

Module Aggregator.

Local Open Scope float_scope.

Record stat : Type := {
  total : float;
  covered : float;
  skipped : float;
  pct : float
}.

(** The object literal of lines 272-297, in the order of its keys. *)
Record summary : Type := {
  lines : stat;
  functions : stat;
  statements : stat;
  branches : stat
}.

Definition zeroStat : stat :=
  {| total := 0; covered := 0; skipped := 0; pct := 0 |}.

Definition zero : summary :=
  {| lines := zeroStat; functions := zeroStat;
     statements := zeroStat; branches := zeroStat |}.

(** [typeof d.field == "number"] with the number; [d] is truthy. *)
Definition numberField (d : value) (field : string) : option float :=
  match Obj.get d field with
  | Ok (Some (VNum x)) => Some x
  | _ => None
  end.

Definition addNumber (acc : float) (d : value) (field : string) : float :=
  match numberField d field with
  | Some x => acc + x
  | None => acc
  end.

(** One block [if (entry.dim) { ... }], e.g. lines 302-312. *)
Definition addDimension (acc : stat) (entry : value) (dim : string) : result stat :=
  d <- Obj.get entry dim ;;
  match d with
  | Some dv =>
      if truthy dv
      then Ok {| total := addNumber (total acc) dv "total";
                 covered := addNumber (covered acc) dv "covered";
                 skipped := addNumber (skipped acc) dv "skipped";
                 pct := pct acc |}
      else Ok acc
  | None => Ok acc
  end.

(** Lines 301-345. *)
Definition addEntry (acc : summary) (entry : value) : result summary :=
  l <- addDimension (lines acc) entry "lines" ;;
  f <- addDimension (functions acc) entry "functions" ;;
  s <- addDimension (statements acc) entry "statements" ;;
  b <- addDimension (branches acc) entry "branches" ;;
  Ok {| lines := l; functions := f; statements := s; branches := b |}.

Definition addStat (acc r : stat) : stat :=
  {| total := total acc + total r;
     covered := covered acc + covered r;
     skipped := skipped acc + skipped r;
     pct := pct acc |}.

(** Lines 349-360. *)
Definition addSummary (acc r : summary) : summary :=
  {| lines := addStat (lines acc) (lines r);
     functions := addStat (functions acc) (functions r);
     statements := addStat (statements acc) (statements r);
     branches := addStat (branches acc) (branches r) |}.

(** The right-hand side of lines 363-366. *)
Definition percent (covered total : float) : float :=
  if total =? 0 then 0
  else Num.round ((covered / total + Num.EPSILON) * 10000) / 100.

Definition withPct (s : stat) : stat :=
  {| total := total s; covered := covered s; skipped := skipped s;
     pct := percent (covered s) (total s) |}.

Definition finish (acc : summary) : summary :=
  {| lines := withPct (lines acc); functions := withPct (functions acc);
     statements := withPct (statements acc); branches := withPct (branches acc) |}.

(** The body of the loop of line 298 for the key [entryKey] and its value;
    [self] is the recursive call of line 348. *)
Definition sumEntry (self : value -> result summary) (recurse : bool)
           (acc : summary) (entryKey : string) (entry : value) : result summary :=
  if isJsFileRe entryKey then addEntry acc entry
  else if negb (isJsFileRe entryKey) && negb (entryKey =? "total")%string && recurse
       then r <- self entry ;; Ok (addSummary acc r)
       else Ok acc.

(** [sumCoverage(obj, recurse)].  On a string that is not empty the
    recursive call of line 348 receives a one-character string for ever:
    the engine throws a RangeError. *)
Fixpoint sumCoverage (obj : value) (recurse : bool) {struct obj} : result summary :=
  let self := fun entry => sumCoverage entry recurse in
  let own :=
    fix own (acc : summary) (ps : props) {struct ps} : result summary :=
      match ps with
      | [] => Ok acc
      | (entryKey, entry) :: rest =>
          acc <- sumEntry self recurse acc entryKey entry ;;
          own acc rest
      end in
  let indices :=
    fix indices (acc : summary) (i : N) (el : list value) {struct el} : result summary :=
      match el with
      | [] => Ok acc
      | entry :: rest =>
          acc <- sumEntry self recurse acc (Str.ofNat i) entry ;;
          indices acc (N.succ i) rest
      end in
  match obj with
  | VNull | VBool _ | VNum _ => Ok (finish zero)
  | VStr s => if recurse && negb (s =? "")%string then Throw else Ok (finish zero)
  | VArr el named =>
      acc <- indices zero 0%N el ;;
      acc <- own acc named ;;
      Ok (finish acc)
  | VObj ps =>
      acc <- own zero ps ;;
      Ok (finish acc)
  end.

Definition statValue (s : stat) : value :=
  VObj [("total", VNum (total s)); ("covered", VNum (covered s));
        ("skipped", VNum (skipped s)); ("pct", VNum (pct s))].

(** The object that [sumCoverage] returns, as a value. *)
Definition summaryValue (s : summary) : value :=
  VObj [("lines", statValue (lines s)); ("functions", statValue (functions s));
        ("statements", statValue (statements s)); ("branches", statValue (branches s))].

End Aggregator.

(** ** Renderer (lines 156-267) *)

Definition GREEN : string := "147317".
Definition ORANGE : string := "c27d15".
Definition RED : string := "c23815".

Definition newline : string := String "010" EmptyString.

Section Renderer.

(** Two operations of the language stay abstract: the decimal form of a
    number ([Number::toString]) and the number a string denotes
    ([StringToNumber]). *)
Variable numberToString : float -> string.
Variable stringToNumber : string -> float.

(** [ToString] of a value.  An object read from JSON holds no function: an
    own [toString] hides the inherited one and the conversion throws; an own
    [join] makes an array print as an object. *)
Fixpoint toString (v : value) {struct v} : result string :=
  let element := fun e => match e with
                          | VNull => Ok EmptyString
                          | _ => toString e
                          end in
  let joined :=
    fix joined (el : list value) {struct el} : result string :=
      match el with
      | [] => Ok EmptyString
      | [e] => element e
      | e :: rest =>
          s <- element e ;;
          r <- joined rest ;;
          Ok (s ++ "," ++ r)%string
      end in
  match v with
  | VNull => Ok "null"
  | VBool b => Ok (if b then "true" else "false")
  | VNum x => Ok (numberToString x)
  | VStr s => Ok s
  | VArr el named =>
      if Obj.has "toString" named then Throw
      else if Obj.has "join" named then Ok "[object Array]"
      else joined el
  | VObj own =>
      if Obj.has "toString" own then Throw else Ok "[object Object]"
  end.

(** A template literal hole. *)
Definition interpolate (s : slot) : result string :=
  match s with
  | None => Ok "undefined"
  | Some v => toString v
  end.

(** [ToNumber] *)
Definition toNumber (s : slot) : result float :=
  match s with
  | None => Ok nan
  | Some VNull => Ok 0%float
  | Some (VBool b) => Ok (if b then 1%float else 0%float)
  | Some (VNum x) => Ok x
  | Some (VStr t) => Ok (stringToNumber t)
  | Some (VObj own) => if Obj.has "toString" own then Throw else Ok nan
  | Some (VArr el named) =>
      t <- toString (VArr el named) ;;
      Ok (stringToNumber t)
  end.

(** [x >= threshold] *)
Definition atLeast (x : slot) (threshold : float) : result bool :=
  n <- toNumber x ;;
  Ok (threshold <=? n)%float.

(** The body of the loop of lines 167-176 for one name of [statsToProcess]. *)
Definition colorStat (stats : value) (stat : string) : result value :=
  d <- Obj.get stats stat ;;
  match d with
  | None | Some VNull => Throw
  | Some dv =>
      p <- Obj.get dv "pct" ;;
      high <- atLeast p 80 ;;
      color <- (if high then Ok GREEN
                else middle <- atLeast p 50 ;;
                     Ok (if middle then ORANGE else RED)) ;;
      dv <- Obj.assign dv "color" (VStr color) ;;
      Obj.assign stats stat dv
  end.

(** [addColorToStats(stats)]: the same object, updated. *)
Definition addColorToStats (stats : value) : result value :=
  stats <- colorStat stats "statements" ;;
  stats <- colorStat stats "branches" ;;
  stats <- colorStat stats "functions" ;;
  colorStat stats "lines".

Definition badge (alt message color : string) : string :=
  "![" ++ alt ++ "](https://img.shields.io/badge/" ++ message ++ "-" ++ color
       ++ "?style=for-the-badge)".

(** [stats.dim.pct] and [stats.dim.color] as they print. *)
Definition pctAndColor (stats : value) (dim : string) : result (string * string) :=
  d <- Obj.get stats dim ;;
  match d with
  | None => Throw
  | Some dv =>
      p <- Obj.get dv "pct" ;;
      c <- Obj.get dv "color" ;;
      p <- interpolate p ;;
      c <- interpolate c ;;
      Ok (p, c)
  end.

(** The six columns that the three row templates share: the name badge in
    the colour of the statements, then one badge per dimension. *)
Definition columns (alt message : string) (stats : value) : result string :=
  '(sp, sc) <- pctAndColor stats "statements" ;;
  '(bp, bc) <- pctAndColor stats "branches" ;;
  '(fp, fc) <- pctAndColor stats "functions" ;;
  '(lp, lc) <- pctAndColor stats "lines" ;;
  Ok (badge alt message sc ++ "|" ++ badge sp sp sc ++ "|" ++ badge bp bp bc
        ++ "|" ++ badge fp fp fc ++ "|" ++ badge lp lp lc ++ "|")%string.

Definition header : string :=
  "File|% Stmts|% Branch|% Funcs|% Lines|Uncovered Line #s" ++ newline ++
  "----|-------|--------|-------|-------|-----------------" ++ newline.

(** Lines 198-204. *)
Definition totalRows (total : slot) : result (string * slot) :=
  match total with
  | None => Ok (EmptyString, None)
  | Some t =>
      if truthy t then
        t <- addColorToStats t ;;
        row <- columns "All files" "All%20files" t ;;
        Ok ((header ++ row ++ newline)%string, Some t)
      else Ok (EmptyString, total)
  end.

(** Lines 225-231. *)
Fixpoint uncoveredBadges (uncovered : list value) : result string :=
  match uncovered with
  | [] => Ok EmptyString
  | VStr line :: rest =>
      r <- uncoveredBadges rest ;;
      Ok (badge line (Str.replaceFirst "-" "--" line) RED ++ "&nbsp;" ++ r)%string
  | _ :: _ => Throw
  end.

Definition uncoveredLines (fileEntry : value) : result string :=
  u <- Obj.get fileEntry "uncovered" ;;
  match u with
  | Some (VArr el _) => uncoveredBadges el
  | _ => Ok EmptyString
  end.

(** [fileKey.replace(" ", "_").replace("-", "--")] *)
Definition fileKeyCharsReplaced (fileKey : string) : string :=
  Str.replaceFirst "-" "--" (Str.replaceFirst " " "_" fileKey).

Definition indent (depth : nat) : string := Str.repeat "&nbsp;" (depth * 2).

(** Lines 213-238: the row of a file and the file entry with its colours. *)
Definition fileRow (depth : nat) (fileKey : string) (fileEntry : value)
  : result (string * value) :=
  fileEntry <- addColorToStats fileEntry ;;
  badges <- uncoveredLines fileEntry ;;
  cols <- columns fileKey (fileKeyCharsReplaced fileKey) fileEntry ;;
  Ok ((indent depth ++ cols ++ badges ++ newline)%string, fileEntry).

(** Lines 241-259: the row of a directory. *)
Definition directoryRow (depth : nat) (fileKey : string) (fileEntry : value)
  : result string :=
  sums <- Aggregator.sumCoverage fileEntry false ;;
  sums <- addColorToStats (Aggregator.summaryValue sums) ;;
  cols <- columns fileKey (fileKeyCharsReplaced fileKey) sums ;;
  Ok (indent depth ++ cols ++ newline)%string.

(** The body of the loop of line 207; [self] is the call of line 262. *)
Definition tableEntry (self : value -> result (string * value)) (depth : nat)
           (fileKey : string) (fileEntry : value) : result (string * value) :=
  if isJsFileRe fileKey then fileRow depth fileKey fileEntry
  else
    row <- directoryRow depth fileKey fileEntry ;;
    '(rows, fileEntry) <- self fileEntry ;;
    Ok ((row ++ rows)%string, fileEntry).

(** The loop of line 207 of [buildTableDepth(null, files, depth)], [depth]
    already at least 1: the rows and [files] with the colours written in
    it.  On a string that is not empty the call of line 262 receives a
    one-character string for ever: the engine throws a RangeError. *)
Fixpoint tableRows (files : value) (depth : nat) {struct files}
  : result (string * value) :=
  let self := fun entry => tableRows entry (depth + 1) in
  let own :=
    fix own (ps : props) {struct ps} : result (string * props) :=
      match ps with
      | [] => Ok (EmptyString, [])
      | (fileKey, fileEntry) :: rest =>
          '(rows, fileEntry) <- tableEntry self depth fileKey fileEntry ;;
          '(more, rest) <- own rest ;;
          Ok ((rows ++ more)%string, (fileKey, fileEntry) :: rest)
      end in
  let indices :=
    fix indices (i : N) (el : list value) {struct el} : result (string * list value) :=
      match el with
      | [] => Ok (EmptyString, [])
      | fileEntry :: rest =>
          '(rows, fileEntry) <- tableEntry self depth (Str.ofNat i) fileEntry ;;
          '(more, rest) <- indices (N.succ i) rest ;;
          Ok ((rows ++ more)%string, fileEntry :: rest)
      end in
  match files with
  | VNull | VBool _ | VNum _ => Ok (EmptyString, files)
  | VStr s => if (s =? "")%string then Ok (EmptyString, files) else Throw
  | VArr el named =>
      '(rows, el) <- indices 0%N el ;;
      '(more, named) <- own named ;;
      Ok ((rows ++ more)%string, VArr el named)
  | VObj ps =>
      '(rows, ps) <- own ps ;;
      Ok (rows, VObj ps)
  end.

(** [buildTableDepth(total, files, depth)]: the table, and [total] and
    [files] as the call leaves them. *)
Definition buildTableDepth (total : slot) (files : value) (depth : nat)
  : result (string * slot * value) :=
  let depth := if (depth <=? 0)%nat then 1%nat else depth in
  '(top, total) <- totalRows total ;;
  '(rows, files) <- tableRows files depth ;;
  Ok ((top ++ rows)%string, total, files).

(** [buildTable(total, files)] *)
Definition buildTable (total : slot) (files : value)
  : result (string * slot * value) :=
  buildTableDepth total files 0.

(** Lines 127-135. *)
Definition mdComment (table : string) : string :=
  "Testing has completed, a summary of the code coverage results is provided below."
    ++ newline ++ newline ++ "<details>" ++ newline ++ newline
    ++ "<summary>Code coverage summary</summary>" ++ newline ++ newline
    ++ table ++ newline ++ "</details>" ++ newline.

(** The ["close"] handler up to the text it writes (lines 100-135). *)
Definition onClose (jsonSummary : props) : result string :=
  divided <- dividedJsonSummary jsonSummary ;;
  '(table, _, _) <- buildTable (totalSummary divided) (VObj (filesSummary divided)) ;;
  Ok (mdComment table).

(** The whole run on a summary and a trace that were both read. *)
Definition run (root : string) (loaded : option value) (trace : list string)
  : result string :=
  '(_, jsonSummary) <- readLines numberToString stringToNumber start
                         (loadSummary root loaded) trace ;;
  onClose jsonSummary.

End Renderer.

(** * The vocabulary of the properties

    What the spec names and the script does not: the ranges a trace emits,
    the sequences and sums the claims speak of, and the shapes of summaries
    and trees on which they are stated. *)

(** ** RangeParser on its own

    The handler read as the spec describes it: a step on the parser state
    that may emit one range for one property key, and the merge of that range
    into the summary. *)

Section RangeParser.

Variable numberToString : float -> string.
Variable stringToNumber : string -> float.

Definition advance (st : parser) (line : string) : parser * option (string * string) :=
  match reSF line with
  | Some name =>
      ({| filename := Some name;
          isRecordingUncovered := isRecordingUncovered st;
          uncoveredBeginning := uncoveredBeginning st;
          uncoveredEnd := uncoveredEnd st |}, None)
  | None =>
      match reDA line, isRecordingUncovered st with
      | Some digits, false =>
          ({| filename := filename st;
              isRecordingUncovered := true;
              uncoveredBeginning := unaryPlus stringToNumber digits;
              uncoveredEnd := unaryPlus stringToNumber digits |}, None)
      | Some digits, true =>
          ({| filename := filename st;
              isRecordingUncovered := true;
              uncoveredBeginning := uncoveredBeginning st;
              uncoveredEnd := unaryPlus stringToNumber digits |}, None)
      | None, true =>
          ({| filename := filename st;
              isRecordingUncovered := false;
              uncoveredBeginning := uncoveredBeginning st;
              uncoveredEnd := uncoveredEnd st |},
           Some (propertyKey (filename st),
                 uncoveredString numberToString
                   (uncoveredBeginning st) (uncoveredEnd st)))
      | None, false => (st, None)
      end
  end.

(** The ranges that the trace emits, each with the key it is stored under, in
    the order of discovery. *)
Fixpoint emitted (st : parser) (trace : list string) : list (string * string) :=
  match trace with
  | [] => []
  | line :: rest =>
      match advance st line with
      | (st', Some range) => range :: emitted st' rest
      | (st', None) => emitted st' rest
      end
  end.

(** The state after the trace. *)
Definition finalState (st : parser) (trace : list string) : parser :=
  fold_left (fun s line => fst (advance s line)) trace st.

(** The line number of an uncovered record. *)
Definition lineNumber (line : string) : Num.number :=
  match reDA line with
  | Some digits => unaryPlus stringToNumber digits
  | None => Num.Int 0
  end.

End RangeParser.

(** [jsonSummary[key].uncovered] when both exist. *)
Definition uncoveredOf (key : string) (jsonSummary : props) : slot :=
  match Obj.lookup key jsonSummary with
  | Some entry => match Obj.get entry "uncovered" with
                  | Ok u => u
                  | _ => None
                  end
  | None => None
  end.


(** ** Sums of a directory *)

(** The property [k] that an object, or an array besides its elements,
    holds under a name. *)
Definition namedField (v : value) (k : string) : slot :=
  match v with
  | VObj ps | VArr _ ps => Obj.lookup k ps
  | _ => None
  end.

Section AggregatorVocabulary.
Import Aggregator.
Local Open Scope float_scope.

(** The number that the entry adds to a field of a dimension, when it adds
    one: the entry holds the dimension, the dimension holds the field, and
    the field is a number. *)
Definition counted (dim field : string) (entry : value) : option float :=
  match namedField entry dim with
  | Some dv =>
      match namedField dv field with
      | Some (VNum x) => Some x
      | _ => None
      end
  | None => None
  end.

(** What one property of the directory adds to a field: nothing unless its
    key matches and the field holds a number. *)
Definition contribution (dim field : string) (kv : string * value) : list float :=
  if isJsFileRe (fst kv)
  then match counted dim field (snd kv) with
       | Some x => [x]
       | None => []
       end
  else [].

(** The numbers that the entries with a matching key add to a field, in the
    order of the keys. *)
Definition column (dim field : string) (obj : props) : list float :=
  flat_map (contribution dim field) obj.

(** The additions of lines 304-343, from the left. *)
Definition sumFrom (start : float) (l : list float) : float :=
  fold_left PrimFloat.add l start.

(** The sum of a column, from zero, in the order of the additions. *)
Definition sum (l : list float) : float := sumFrom 0 l.

(** A statistic and a summary whose counts are the sums of the columns. *)
Definition statFrom (acc : stat) (dim : string) (obj : props) : stat :=
  {| total := sumFrom (total acc) (column dim "total" obj);
     covered := sumFrom (covered acc) (column dim "covered" obj);
     skipped := sumFrom (skipped acc) (column dim "skipped" obj);
     pct := pct acc |}.

Definition sumsFrom (acc : summary) (obj : props) : summary :=
  {| lines := statFrom (lines acc) "lines" obj;
     functions := statFrom (functions acc) "functions" obj;
     statements := statFrom (statements acc) "statements" obj;
     branches := statFrom (branches acc) "branches" obj |}.

(** The loop of line 298 when [recurse] is false. *)
Fixpoint sumOwn (acc : summary) (obj : props) : result summary :=
  match obj with
  | [] => Ok acc
  | (entryKey, entry) :: rest =>
      acc <- (if isJsFileRe entryKey then addEntry acc entry else Ok acc) ;;
      sumOwn acc rest
  end.

(** [acc += x] when there is an [x]. *)
Definition addCounted (acc : float) (o : option float) : float :=
  match o with
  | Some x => acc + x
  | None => acc
  end.

(** The percentage in exact arithmetic: 10000 * covered / total rounded to
    the nearest integer, a half upwards, and that integer divided by 100. *)
Definition exactPercent (covered total : nat) : float :=
  (Num.ofLength (Z.to_nat ((20000 * Z.of_nat covered + Z.of_nat total)
                            / (2 * Z.of_nat total))) / 100)%float.

(** The percentage of the script is that number. *)
Definition percentAgrees (total covered : nat) : bool :=
  (Aggregator.percent (Num.ofLength covered) (Num.ofLength total)
   =? exactPercent covered total)%float.

End AggregatorVocabulary.

(** ** Summaries that take a range *)

(** An entry of the summary on which lines 90-93 do not throw: a value that
    is falsy (line 88 replaces it), or an object or array whose [uncovered]
    is absent, falsy, or an array with its inherited [push]. *)
Definition mergeableProps (ps : props) : bool :=
  match Obj.lookup "uncovered" ps with
  | None => true
  | Some (VArr _ named) => negb (Obj.has "push" named)
  | Some u => negb (truthy u)
  end.

(** The same on an entry. *)
Definition mergeable (entry : value) : bool :=
  if truthy entry then
    match entry with
    | VObj ps | VArr _ ps => mergeableProps ps
    | _ => false
    end
  else true.

(** The elements of [entry.uncovered] when it is an array. *)
Definition uncoveredItems (entry : value) : list value :=
  match Obj.get entry "uncovered" with
  | Ok (Some (VArr el _)) => el
  | _ => []
  end.


(** The ranges emitted for one key, in order. *)
Definition rangesOf (key : string) (ranges : list (string * string)) : list string :=
  map snd (filter (fun r => fst r =? key) ranges).

(** Line 165. *)
Definition statsToProcess : list string :=
  ["statements"; "branches"; "functions"; "lines"].

(** Lines 90-93 on the entry. *)
Definition pushOn (entry : value) (range : string) : result value :=
  u <- Obj.get entry "uncovered" ;;
  entry <- (if truthySlot u then Ok entry
            else Obj.assign entry "uncovered" (VArr [] [])) ;;
  u <- Obj.get entry "uncovered" ;;
  match u with
  | Some (VArr elems named) =>
      if Obj.has "push" named then Throw
      else Obj.assign entry "uncovered" (VArr (elems ++ [VStr range]) named)
  | _ => Throw
  end.

(** The entry that lines 87-89 leave under the key. *)
Definition entryAfterLine88 (found : slot) : value :=
  match found with
  | Some v => if truthy v then v else VObj []
  | None => VObj []
  end.

(** Objects and arrays hold their named properties alike. *)
Definition holdsNamed (c : props -> value) (k : string) : Prop :=
  (forall ps, Obj.get (c ps) k = Ok (Obj.lookup k ps))
  /\ (forall ps x, Obj.assign (c ps) k x = Ok (c (Obj.set k x ps))).


(** SummaryMerger on the ranges that RangeParser emitted. *)
Fixpoint mergeAll (jsonSummary : props) (ranges : list (string * string))
  : result props :=
  match ranges with
  | [] => Ok jsonSummary
  | (key, range) :: rest =>
      summary <- recordRange key range jsonSummary ;;
      mergeAll summary rest
  end.

(** ** Paths and trees *)

(** No ['/'] in the string. *)
Fixpoint slashFree (s : string) : bool :=
  match s with
  | EmptyString => true
  | String c r => negb (c =? "/")%char && slashFree r
  end.

(** [files[dir][file]] in a tree whose directories are objects. *)
Definition reach (files : props) (dir file : string) : slot :=
  match Obj.lookup dir files with
  | Some (VObj ps) => Obj.lookup file ps
  | _ => None
  end.

(** A path that lines 113-116 store in an object made by line 114: its
    directory is neither the reserved key nor an inherited name, and its
    file name does not name the prototype. *)
Definition placeable (path : string) : Prop :=
  pathWithoutFile path <> "total"
  /\ Obj.inherited (pathWithoutFile path) = false
  /\ fileOfPath path <> "__proto__".

(** Every directory of the tree under construction is an object. *)
Definition dirsAreObjects (divided : props) : Prop :=
  forall d x, d <> "total" -> Obj.lookup d divided = Some x -> exists ps, x = VObj ps.

(** An array, and a tree under construction that holds none. *)
Definition isArray (v : value) : bool :=
  match v with
  | VArr _ _ => true
  | _ => false
  end.

Definition noArrays (divided : props) : Prop :=
  forall d x, Obj.lookup d divided = Some x -> isArray x = false.

(** The value that a sequence of writes leaves: the last one whose key is hit. *)
Fixpoint lastWrite (hit : string -> bool) (jsonSummary : props) (prior : slot) : slot :=
  match jsonSummary with
  | [] => prior
  | (k, v) :: rest => lastWrite hit rest (if hit k then Some v else prior)
  end.

(** The path is split into the pair and is not the reserved key. *)
Definition landsOn (dir file : string) (path : string) : bool :=
  negb (path =? "total") && (pathWithoutFile path =? dir) && (fileOfPath path =? file).

(** ** The loops of the Renderer *)

Section RendererVocabulary.

Variable nts : float -> string.
Variable stn : string -> float.

(** The two loops of [tableRows], named. *)
Definition ownRows (self : value -> result (string * value)) (depth : nat)
  : props -> result (string * props) :=
  fix own (ps : props) {struct ps} : result (string * props) :=
    match ps with
    | [] => Ok (EmptyString, [])
    | (fileKey, fileEntry) :: rest =>
        '(rows, fileEntry) <- tableEntry nts stn self depth fileKey fileEntry ;;
        '(more, rest) <- own rest ;;
        Ok ((rows ++ more)%string, (fileKey, fileEntry) :: rest)
    end.

Definition indexRows (self : value -> result (string * value)) (depth : nat)
  : N -> list value -> result (string * list value) :=
  fix indices (i : N) (el : list value) {struct el} : result (string * list value) :=
    match el with
    | [] => Ok (EmptyString, [])
    | fileEntry :: rest =>
        '(rows, fileEntry) <- tableEntry nts stn self depth (Str.ofNat i) fileEntry ;;
        '(more, rest) <- indices (N.succ i) rest ;;
        Ok ((rows ++ more)%string, fileEntry :: rest)
    end.

End RendererVocabulary.

(** ** Induction on values *)

(** An induction principle that reaches the values inside arrays and objects. *)
Section ValueInduction.

Variable P : value -> Prop.
Hypothesis Hnull : P VNull.
Hypothesis Hbool : forall b, P (VBool b).
Hypothesis Hnum : forall x, P (VNum x).
Hypothesis Hstr : forall s, P (VStr s).
Hypothesis Harr : forall el named,
    Forall P el -> Forall (fun kv => P (snd kv)) named -> P (VArr el named).
Hypothesis Hobj : forall own, Forall (fun kv => P (snd kv)) own -> P (VObj own).

Fixpoint value_nested_ind (v : value) : P v :=
  let elems := fix elems (l : list value) : Forall P l :=
                 match l with
                 | [] => Forall_nil _
                 | x :: r => Forall_cons x (value_nested_ind x) (elems r)
                 end in
  let fields := fix fields (l : props) : Forall (fun kv => P (snd kv)) l :=
                  match l with
                  | [] => Forall_nil _
                  | kv :: r => Forall_cons kv (value_nested_ind (snd kv)) (fields r)
                  end in
  match v with
  | VNull => Hnull
  | VBool b => Hbool b
  | VNum x => Hnum x
  | VStr s => Hstr s
  | VArr el named => Harr el named (elems el) (fields named)
  | VObj own => Hobj own (fields own)
  end.

End ValueInduction.

(** ** Samples *)

(** A trace of one file with two ranges, and a summary that knows the file. *)
Definition sampleTrace : list string :=
  ["SF:a.js"; "DA:5,0"; "DA:6,0"; "LF:2"; "DA:9,0"; "end_of_record"].

Definition sampleSummary : props :=
  [("a.js", VObj [("lines", VObj [("total", VNum 3); ("covered", VNum 0);
                                  ("skipped", VNum 0); ("pct", VNum 0)]);
                  ("uncovered", VArr [VStr "1"] [])])].

(** Two summaries that differ, for the two paths of the counterexample. *)
Definition summaryWithPct (p : float) : value :=
  VObj [("lines", VObj [("total", VNum 10); ("covered", VNum 5);
                        ("skipped", VNum 0); ("pct", VNum p)])].

(** A summary with a total, a file of the root and two files of one directory. *)
Definition sampleFlat : props :=
  [("total", summaryWithPct 50); ("index.js", summaryWithPct 10);
   ("src/lib/a.js", summaryWithPct 20); ("src/lib/b.js", summaryWithPct 30)].

(** Stand-ins for the two abstract operations, for closed examples. *)
Definition sampleNumberToString : float -> string := fun _ => "n".
Definition sampleStringToNumber : string -> float := fun _ => nan.

Definition sampleStat (p : float) : value :=
  VObj [("total", VNum 10); ("covered", VNum 5); ("skipped", VNum 0); ("pct", VNum p)].

Definition sampleFile : value :=
  VObj [("lines", sampleStat 90); ("statements", sampleStat 80);
        ("functions", sampleStat 50); ("branches", sampleStat 10);
        ("uncovered", VArr [VStr "5-8"] [])].

(** A tree with one file in the root directory. *)
Definition sampleTree : value := VObj [("", VObj [("a.js", sampleFile)])].

(** A directory of two files, fully and not at all covered, next to an entry
    that is not a source file. *)
Definition linesOnly (total covered : float) : value :=
  VObj [("lines", VObj [("total", VNum total); ("covered", VNum covered);
                        ("skipped", VNum 0); ("pct", VStr "n/a")])].

Definition sampleDirectory : props :=
  [("a.js", linesOnly 1 1); ("b.js", linesOnly 3 0); ("notes.txt", linesOnly 7 7)].

(** A summary with two keys that are split into the same pair. *)
Definition sampleColliding : props :=
  [("/a.js", summaryWithPct 10); ("a.js", summaryWithPct 20)].

(** A summary whose total is a number, and a file of the directory
    ["total"]. *)
Definition sampleTotalDirectory : props :=
  [("total", VNum 5); ("total/a.js", summaryWithPct 10);
   ("src/a.js", summaryWithPct 20)].

(** A directory whose ratio is an exact half of a hundredth of a percent:
    57/800 is 7.125 %. *)
Definition sampleHalves : props := [("a.js", linesOnly 800 57)].

(** ** Strings of one line, strings without a character *)

(** The string holds none of the four line terminators of the regular
    expression grammar.  A line that readline delivers holds no LF and no CR;
    it can hold U+2028 or U+2029. *)
Fixpoint oneLine (s : string) : bool :=
  match s with
  | EmptyString => true
  | String c r => negb (Str.terminatorAt (String c r)) && oneLine r
  end.

(** No byte of the string is LF or CR or starts U+2028 or U+2029. *)
Fixpoint plain (s : string) : bool :=
  match s with
  | EmptyString => true
  | String c r =>
      negb (Str.isNewline c) && negb (c =? "226")%char && plain r
  end.

(** The character does not occur in the string. *)
Fixpoint lacks (c : ascii) (s : string) : bool :=
  match s with
  | EmptyString => true
  | String x r => negb (x =? c)%char && lacks c r
  end.

(** Every character is a decimal digit. *)
Fixpoint allDigits (s : string) : bool :=
  match s with
  | EmptyString => true
  | String c r => Str.isDigit c && allDigits r
  end.

(** The key under which line 28 stores the entry of the loaded key [k]. *)
Definition relativeKey (root k : string) : string :=
  Str.replaceFirst (root ++ "/") "" k.

(** The colour of a percentage that is a number (lines 168-175). *)
Definition colourOf (x : float) : string :=
  if (80 <=? x)%float then GREEN
  else if (50 <=? x)%float then ORANGE else RED.

(** ** Values with their colours *)

(** The properties with [k] holding [x]: in its place when the name is
    there, at the end otherwise. *)
Fixpoint withField (k : string) (x : value) (ps : props) : props :=
  match ps with
  | [] => [(k, x)]
  | (k', y) :: rest =>
      if k' =? k then (k', x) :: rest else (k', y) :: withField k x rest
  end.

(** The same on the named properties of an object or an array; another value
    holds none and stays as it is. *)
Definition withNamed (k : string) (x : value) (v : value) : value :=
  match v with
  | VObj own => VObj (withField k x own)
  | VArr el named => VArr el (withField k x named)
  | _ => v
  end.

(** An object or an array. *)
Definition holdsFields (v : value) : bool :=
  match v with
  | VObj _ | VArr _ _ => true
  | _ => false
  end.

Section Painted.

Variable nts : float -> string.
Variable stn : string -> float.

(** The colour of a dimension: the one of the number that its [pct] converts
    to.  Where the conversion throws, the Renderer throws. *)
Definition colourOfPct (d : value) : string :=
  match toNumber nts stn (namedField d "pct") with
  | Ok n => colourOf n
  | _ => RED
  end.

(** The dimension with its colour under [color]. *)
Definition withColour (d : value) : value :=
  withNamed "color" (VStr (colourOfPct d)) d.

(** The summary with the colour written in one dimension. *)
Definition paintedStat (stat : string) (stats : value) : value :=
  match namedField stats stat with
  | Some d => withNamed stat (withColour d) stats
  | None => stats
  end.

(** The summary with the colour written in its four dimensions. *)
Definition paintedStats (stats : value) : value :=
  paintedStat "lines"
    (paintedStat "functions"
       (paintedStat "branches" (paintedStat "statements" stats))).

(** The entry under a key: a file when the key matches the file expression,
    a directory otherwise. *)
Definition paintedEntry (below : value -> value) (key : string) (e : value)
  : value :=
  if isJsFileRe key then paintedStats e else below e.

(** The tree with the colours written in every file, at any depth. *)
Fixpoint painted (files : value) {struct files} : value :=
  let own :=
    fix own (ps : props) {struct ps} : props :=
      match ps with
      | [] => []
      | (k, e) :: rest => (k, paintedEntry painted k e) :: own rest
      end in
  let indices :=
    fix indices (i : N) (el : list value) {struct el} : list value :=
      match el with
      | [] => []
      | e :: rest => paintedEntry painted (Str.ofNat i) e :: indices (N.succ i) rest
      end in
  match files with
  | VArr el named => VArr (indices 0%N el) (own named)
  | VObj ps => VObj (own ps)
  | _ => files
  end.

(** The two loops of [painted], named. *)
Definition paintedOwn : props -> props :=
  fix own (ps : props) {struct ps} : props :=
    match ps with
    | [] => []
    | (k, e) :: rest => (k, paintedEntry painted k e) :: own rest
    end.

Definition paintedIndices : N -> list value -> list value :=
  fix indices (i : N) (el : list value) {struct el} : list value :=
    match el with
    | [] => []
    | e :: rest => paintedEntry painted (Str.ofNat i) e :: indices (N.succ i) rest
    end.

(** The total as line 199 leaves it. *)
Definition paintedTotal (total : slot) : slot :=
  match total with
  | Some t => Some (if truthy t then paintedStats t else t)
  | None => None
  end.

(** Rendering below [v] leaves [v] with its colours. *)
Definition rendersPainted (v : value) : Prop :=
  forall depth rows v', tableRows nts stn v depth = Ok (rows, v') -> v' = painted v.

End Painted.

(** ** Trees that cannot be rendered *)

(** A string that is not empty, under keys that all send [buildTableDepth]
    into the entry: none of them matches the file expression. *)
Fixpoint holdsText (files : value) {struct files} : bool :=
  let own :=
    fix own (ps : props) {struct ps} : bool :=
      match ps with
      | [] => false
      | (fileKey, fileEntry) :: rest =>
          negb (isJsFileRe fileKey) && holdsText fileEntry || own rest
      end in
  let indices :=
    fix indices (i : N) (el : list value) {struct el} : bool :=
      match el with
      | [] => false
      | fileEntry :: rest =>
          negb (isJsFileRe (Str.ofNat i)) && holdsText fileEntry
          || indices (N.succ i) rest
      end in
  match files with
  | VNull | VBool _ | VNum _ => false
  | VStr s => negb (s =? "")
  | VArr el named => indices 0%N el || own named
  | VObj ps => own ps
  end.

(** The same below the named properties and below the elements. *)
Definition textInOwn : props -> bool :=
  fix own (ps : props) {struct ps} : bool :=
    match ps with
    | [] => false
    | (fileKey, fileEntry) :: rest =>
        negb (isJsFileRe fileKey) && holdsText fileEntry || own rest
    end.

Definition textInIndices : N -> list value -> bool :=
  fix indices (i : N) (el : list value) {struct el} : bool :=
    match el with
    | [] => false
    | fileEntry :: rest =>
        negb (isJsFileRe (Str.ofNat i)) && holdsText fileEntry
        || indices (N.succ i) rest
    end.

(** The loops of line 298 when [recurse] is false, over the elements of an
    array. *)
Fixpoint sumIndices (acc : Aggregator.summary) (i : N) (el : list value)
  : result Aggregator.summary :=
  match el with
  | [] => Ok acc
  | entry :: rest =>
      acc <- (if isJsFileRe (Str.ofNat i) then Aggregator.addEntry acc entry
              else Ok acc) ;;
      sumIndices acc (N.succ i) rest
  end.

(** ** Summaries made from the trace alone *)

(** An entry that holds ranges and nothing else: what lines 88-93 make for
    a path that the summary lacks. *)
Definition rangesOnly (entry : value) : Prop :=
  exists range ranges,
    range <> "" /\ entry = VObj [("uncovered", VArr (VStr range :: ranges) [])].

(** A path that TreeBuilder stores below a directory row: the path is no
    member name of [Object.prototype], lines 113-116 store it in an object
    made by line 114, and the key of that object does not match the file
    expression. *)
Definition underDirectory (path : string) : Prop :=
  Obj.inherited path = false
  /\ placeable path
  /\ isJsFileRe (pathWithoutFile path) = false.

(** A summary of such entries under such paths. *)
Definition rangesAlone (jsonSummary : props) : Prop :=
  Forall (fun kv => underDirectory (fst kv) /\ rangesOnly (snd kv)) jsonSummary.

(** A tree that TreeBuilder makes: the entry of the reserved key is a [T],
    and every other key does not match the file expression and holds an
    object that is not empty and whose properties are [F]. *)
Definition treeOf (T : value -> Prop) (F : string * value -> Prop)
           (divided : props) : Prop :=
  Forall (fun kv =>
            (fst kv = "total" /\ T (snd kv))
            \/ (fst kv <> "total" /\ isJsFileRe (fst kv) = false
                /\ exists files,
                     snd kv = VObj files /\ files <> [] /\ Forall F files))
         divided.

(** The summaries that give such a tree. *)
Definition summaryOf (T : value -> Prop) (F : string * value -> Prop)
           (jsonSummary : props) : Prop :=
  Forall (fun kv =>
            underDirectory (fst kv)
            /\ (fst kv = "total" -> T (snd kv))
            /\ (fst kv <> "total" -> F (fileOfPath (fst kv), snd kv)))
         jsonSummary.

(** The tree of a summary made from the trace alone. *)
Definition rangesTree (divided : props) : Prop :=
  treeOf rangesOnly (fun fe => rangesOnly (snd fe)) divided.

(** ** Summaries that can be reported *)

Definition isText (v : value) : bool :=
  match v with
  | VStr _ => true
  | _ => false
  end.

(** A property that compares and prints without a call into an object:
    absent, [null], a boolean, a number or a string. *)
Definition scalar (s : slot) : bool :=
  match s with
  | Some (VArr _ _) | Some (VObj _) => false
  | _ => true
  end.

(** A statistic that [addColorToStats] can colour: an object whose [pct]
    is a scalar. *)
Definition statOk (d : slot) : bool :=
  match d with
  | Some (VObj own) => scalar (Obj.lookup "pct" own)
  | _ => false
  end.

(** The same with its colour. *)
Definition statColoured (d : slot) : bool :=
  match d with
  | Some (VObj own) =>
      scalar (Obj.lookup "pct" own) && scalar (Obj.lookup "color" own)
  | _ => false
  end.

(** An [uncovered] that lines 90-93 can extend and lines 226-231 can print:
    absent, falsy, or an array of strings with its inherited [push]. *)
Definition rangesOk (u : slot) : bool :=
  match u with
  | None => true
  | Some (VArr ranges named) => forallb isText ranges && negb (Obj.has "push" named)
  | Some u => negb (truthy u)
  end.

(** A FileSummary: an object with the four statistics. *)
Definition fileOk (entry : value) : bool :=
  match entry with
  | VObj ps =>
      forallb (fun dim => statOk (Obj.lookup dim ps)) statsToProcess
      && rangesOk (Obj.lookup "uncovered" ps)
  | _ => false
  end.

(** A ProjectSummary of files: every path other than the reserved key ends
    in a name that matches the file expression, below a directory row, and
    every entry is a FileSummary. *)
Definition reportable (jsonSummary : props) : Prop :=
  Forall (fun kv =>
            underDirectory (fst kv)
            /\ (fst kv = "total" \/ isJsFileRe (fileOfPath (fst kv)) = true)
            /\ fileOk (snd kv) = true)
         jsonSummary.

(** A summary as it is loaded, with absolute paths, and a trace for one of
    its files. *)
Definition sampleLoaded : value :=
  VObj [("total", sampleFile); ("/proj/index.js", sampleFile);
        ("/proj/src/a.js", sampleFile)].

Definition sampleRecords : list string :=
  ["SF:src/a.js"; "DA:5,0"; "DA:6,0"; "end_of_record"].

(** * Properties *)

(** ** Property lists *)

Module ObjFacts.
Import Obj.

Lemma has_true (k : string) (ps : props) :
  has k ps = true <-> exists v, lookup k ps = Some v.
Proof.
  unfold has. destruct (lookup k ps) as [v|].
  - split; [eauto|reflexivity].
  - split; [discriminate|intros [v Hv]; discriminate].
Qed.

Lemma has_false (k : string) (ps : props) :
  has k ps = false <-> lookup k ps = None.
Proof.
  unfold has. destruct (lookup k ps); split; congruence.
Qed.

Lemma lookup_app (k : string) (ps qs : props) :
  lookup k (ps ++ qs) =
  match lookup k ps with
  | Some v => Some v
  | None => lookup k qs
  end.
Proof.
  induction ps as [|[k' v'] ps IH]; simpl; [reflexivity|].
  destruct (k' =? k); [reflexivity|exact IH].
Qed.

Lemma lookup_update_same (k : string) (v : value) (ps : props) :
  lookup k ps <> None -> lookup k (update k v ps) = Some v.
Proof.
  induction ps as [|[k' v'] ps IH]; simpl; [congruence|].
  destruct (k' =? k) eqn:E; simpl; rewrite E; [reflexivity|exact IH].
Qed.

Lemma lookup_update_other (k k' : string) (v : value) (ps : props) :
  k' <> k -> lookup k' (update k v ps) = lookup k' ps.
Proof.
  intros Hne. induction ps as [|[k0 v0] ps IH]; simpl; [reflexivity|].
  destruct (k0 =? k) eqn:E; simpl.
  - apply String.eqb_eq in E. subst k0.
    destruct (k =? k') eqn:E'; [|reflexivity].
    apply String.eqb_eq in E'. congruence.
  - destruct (k0 =? k'); [reflexivity|exact IH].
Qed.

Lemma update_absent (k : string) (v : value) (ps : props) :
  lookup k ps = None -> update k v ps = ps.
Proof.
  induction ps as [|[k' v'] ps IH]; simpl; [reflexivity|].
  destruct (k' =? k); [discriminate|]. intros H. now rewrite IH.
Qed.

Lemma update_app_last (k : string) (v v0 : value) (ps : props) :
  lookup k ps = None -> update k v (ps ++ [(k, v0)]) = ps ++ [(k, v)].
Proof.
  induction ps as [|[k' v'] ps IH]; simpl.
  - now rewrite String.eqb_refl.
  - destruct (k' =? k); [discriminate|]. intros H. now rewrite IH.
Qed.

Lemma lookup_insertIndex_same (i : N) (k : string) (v : value) (ps : props) :
  lookup k ps = None -> lookup k (insertIndex i k v ps) = Some v.
Proof.
  induction ps as [|[k' v'] ps IH]; simpl.
  - now rewrite String.eqb_refl.
  - destruct (k' =? k) eqn:E; [discriminate|]. intros H.
    destruct (isArrayIndex k' && (Str.toNat k' <? i)%N); simpl.
    + rewrite E. now apply IH.
    + now rewrite String.eqb_refl.
Qed.

Lemma lookup_insertIndex_other (i : N) (k k' : string) (v : value) (ps : props) :
  k' <> k -> lookup k' (insertIndex i k v ps) = lookup k' ps.
Proof.
  intros Hne. induction ps as [|[k0 v0] ps IH]; simpl.
  - destruct (k =? k') eqn:E; [|reflexivity].
    apply String.eqb_eq in E. congruence.
  - destruct (isArrayIndex k0 && (Str.toNat k0 <? i)%N); simpl.
    + destruct (k0 =? k'); [reflexivity|exact IH].
    + destruct (k =? k') eqn:E; [|reflexivity].
      apply String.eqb_eq in E. congruence.
Qed.

Lemma lookup_create_same (k : string) (v : value) (ps : props) :
  lookup k ps = None -> lookup k (create k v ps) = Some v.
Proof.
  intros H. unfold create. destruct (isArrayIndex k).
  - now apply lookup_insertIndex_same.
  - rewrite lookup_app, H. simpl. now rewrite String.eqb_refl.
Qed.

Lemma lookup_create_other (k k' : string) (v : value) (ps : props) :
  k' <> k -> lookup k' (create k v ps) = lookup k' ps.
Proof.
  intros Hne. unfold create. destruct (isArrayIndex k).
  - now apply lookup_insertIndex_other.
  - rewrite lookup_app. destruct (lookup k' ps); [reflexivity|].
    simpl. destruct (k =? k') eqn:E; [|reflexivity].
    apply String.eqb_eq in E. congruence.
Qed.

Lemma lookup_set_same (k : string) (v : value) (ps : props) :
  lookup k (set k v ps) = Some v.
Proof.
  unfold set. destruct (has k ps) eqn:E.
  - apply lookup_update_same. apply has_true in E. destruct E as [x Hx]. congruence.
  - apply lookup_create_same. now apply has_false.
Qed.

Lemma lookup_set_other (k k' : string) (v : value) (ps : props) :
  k' <> k -> lookup k' (set k v ps) = lookup k' ps.
Proof.
  intros Hne. unfold set. destruct (has k ps).
  - now apply lookup_update_other.
  - now apply lookup_create_other.
Qed.

Lemma lookup_set (k k' : string) (v : value) (ps : props) :
  lookup k' (set k v ps) = if k =? k' then Some v else lookup k' ps.
Proof.
  destruct (k =? k') eqn:E.
  - apply String.eqb_eq in E. subst. apply lookup_set_same.
  - apply String.eqb_neq in E. apply lookup_set_other. congruence.
Qed.

Lemma set_set_same (k : string) (v w : value) (ps : props) :
  set k w (set k v ps) = set k w ps.
Proof.
  unfold set at 1. rewrite (proj2 (has_true k (set k v ps)))
    by (eexists; apply lookup_set_same).
  unfold set. destruct (has k ps) eqn:E.
  - clear E. induction ps as [|[k' v'] ps IH]; simpl; [reflexivity|].
    destruct (k' =? k) eqn:E; simpl; rewrite E; [reflexivity|now rewrite IH].
  - apply has_false in E. unfold create. destruct (isArrayIndex k).
    + induction ps as [|[k' v'] ps IH]; simpl.
      * now rewrite String.eqb_refl.
      * simpl in E. destruct (k' =? k) eqn:E'; [discriminate|].
        destruct (isArrayIndex k' && (Str.toNat k' <? Str.toNat k)%N); simpl.
        -- rewrite E'. now rewrite IH.
        -- now rewrite String.eqb_refl.
    + now apply update_app_last.
Qed.

Lemma lookup_remove_same (k : string) (ps : props) :
  lookup k (remove k ps) = None.
Proof.
  induction ps as [|[k' v'] ps IH]; simpl; [reflexivity|].
  destruct (k' =? k) eqn:E; [exact IH|]. simpl. now rewrite E.
Qed.

Lemma lookup_remove_other (k k' : string) (ps : props) :
  k' <> k -> lookup k' (remove k ps) = lookup k' ps.
Proof.
  intros Hne. induction ps as [|[k0 v0] ps IH]; simpl; [reflexivity|].
  destruct (k0 =? k) eqn:E; simpl.
  - apply String.eqb_eq in E. subst k0.
    destruct (k =? k') eqn:E'; [|exact IH].
    apply String.eqb_eq in E'. congruence.
  - destruct (k0 =? k'); [reflexivity|exact IH].
Qed.

Lemma read_own (k : string) (ps : props) :
  inherited k = false -> read k ps = Ok (lookup k ps).
Proof.
  intros H. unfold read. destruct (lookup k ps); [reflexivity|now rewrite H].
Qed.

End ObjFacts.

(** ** The line handler *)

Section HandlerFacts.

Variable nts : float -> string.
Variable stn : string -> float.

Lemma onLine_advance (st : parser) (jsonSummary : props) (line : string) :
  onLine nts stn st jsonSummary line =
  match advance nts stn st line with
  | (st', None) => Ok (st', jsonSummary)
  | (st', Some (key, range)) =>
      summary <- recordRange key range jsonSummary ;;
      Ok (st', summary)
  end.
Proof.
  unfold onLine, advance.
  destruct (reSF line) as [name|]; [reflexivity|].
  destruct (reDA line) as [digits|], (isRecordingUncovered st); reflexivity.
Qed.

End HandlerFacts.

(** C1.  A trace that ends while a range is open: the handler leaves the
    summary empty, and the text written at the end of the stream is the one
    of an empty summary; the range 5 of foo.js is in neither. *)
Theorem trailing_range_is_dropped :
  forall numberToString stringToNumber,
    readLines numberToString stringToNumber start [] ["SF:foo.js"; "DA:5,0"]
    = Ok ({| filename := Some "foo.js"; isRecordingUncovered := true;
             uncoveredBeginning := Num.Int 5; uncoveredEnd := Num.Int 5 |}, [])
    /\ run numberToString stringToNumber "" None ["SF:foo.js"; "DA:5,0"]
       = run numberToString stringToNumber "" None [].
Proof.
  intros nts stn. split; reflexivity.
Qed.

(** C2, as the spec states it, fails: the records 5, 6 and 8 of foo.js
    followed by a covered record do not yield the two ranges 5-6 and 8. *)
Lemma gap_does_not_split_the_range :
  ~ (exists numberToString stringToNumber st summary,
        readLines numberToString stringToNumber start []
                  ["SF:foo.js"; "DA:5,0"; "DA:6,0"; "DA:8,0"; "DA:9,1"]
        = Ok (st, summary)
        /\ uncoveredOf "foo.js" summary = Some (VArr [VStr "5-6"; VStr "8"] [])).
Proof.
  intros (nts & stn & st & summary & Hrun & Hu).
  vm_compute in Hrun.
  injection Hrun as _ Hs; subst summary.
  vm_compute in Hu. discriminate Hu.
Qed.

(** C2, amended.  An uncovered record read while recording moves the end of
    the open range to its line number, the double that unary [+] makes of its
    digits, contiguous or not, and changes neither the beginning, the file nor
    the summary; the records 5, 6 and 8 of foo.js followed by a covered record
    yield the single range 5-8. *)
Theorem uncovered_record_moves_the_end :
  forall numberToString stringToNumber,
    (forall st jsonSummary line digits,
        reSF line = None ->
        reDA line = Some digits ->
        isRecordingUncovered st = true ->
        onLine numberToString stringToNumber st jsonSummary line
        = Ok ({| filename := filename st; isRecordingUncovered := true;
                 uncoveredBeginning := uncoveredBeginning st;
                 uncoveredEnd := unaryPlus stringToNumber digits |}, jsonSummary))
    /\ exists st,
        readLines numberToString stringToNumber start []
                  ["SF:foo.js"; "DA:5,0"; "DA:6,0"; "DA:8,0"; "DA:9,1"]
        = Ok (st, [("foo.js", VObj [("uncovered", VArr [VStr "5-8"] [])])]).
Proof.
  intros nts stn. split.
  - intros st js line digits HSF HDA Hrec.
    unfold onLine. rewrite HSF, HDA, Hrec. reflexivity.
  - eexists. vm_compute. reflexivity.
Qed.

Lemma uncovered_record_moves_the_end_witness :
  onLine sampleNumberToString sampleStringToNumber
         {| filename := Some "foo.js"; isRecordingUncovered := true;
            uncoveredBeginning := Num.Int 5; uncoveredEnd := Num.Int 6 |}
         [] "DA:8,0"
  = Ok ({| filename := Some "foo.js"; isRecordingUncovered := true;
           uncoveredBeginning := Num.Int 5;
           uncoveredEnd := unaryPlus sampleStringToNumber "8" |}, []).
Proof.
  exact (proj1 (uncovered_record_moves_the_end sampleNumberToString
                  sampleStringToNumber)
           {| filename := Some "foo.js"; isRecordingUncovered := true;
              uncoveredBeginning := Num.Int 5; uncoveredEnd := Num.Int 6 |}
           [] "DA:8,0" "8" eq_refl eq_refl eq_refl).
Defined.

(** C6.  A file marker read while a range is open: the range 5 read under
    a.js is stored under b.js, and a.js gets nothing. *)
Theorem open_range_moves_to_the_next_file :
  forall numberToString stringToNumber,
  exists st summary,
    readLines numberToString stringToNumber start []
              ["SF:a.js"; "DA:5,0"; "SF:b.js"; "DA:1,1"] = Ok (st, summary)
    /\ uncoveredOf "b.js" summary = Some (VArr [VStr "5"] [])
    /\ Obj.lookup "a.js" summary = None.
Proof.
  intros nts stn.
  do 2 eexists. split; [vm_compute; reflexivity|].
  split; reflexivity.
Qed.

(** C8.  A project root written with a trailing separator: the key keeps its
    absolute form, while the same root without the separator is stripped. *)
Theorem trailing_separator_defeats_the_prefix :
  forall v dirname,
    loadSummary (projectPath (Some "/proj/") dirname)
                (Some (VObj [("/proj/src/a.js", v)]))
    = [("/proj/src/a.js", v)]
    /\ loadSummary (projectPath (Some "/proj") dirname)
                   (Some (VObj [("/proj/src/a.js", v)]))
       = [("src/a.js", v)].
Proof.
  intros v dirname. split; reflexivity.
Qed.

(** ** Ranges read before any file marker *)

Lemma last_default {A : Type} (x : A) (l : list A) (d d' : A) :
  last (x :: l) d = last (x :: l) d'.
Proof.
  revert x. induction l as [|y l IH]; intros x; [reflexivity|].
  change (last (y :: l) d = last (y :: l) d'). apply IH.
Qed.


Section RangeFacts.

Variable nts : float -> string.
Variable stn : string -> float.




End RangeFacts.



(** ** Aggregator *)

Section AggregatorFacts.
Import Aggregator.
Local Open Scope float_scope.

Lemma sumCoverage_object (obj : props) :
  sumCoverage (VObj obj) false = (acc <- sumOwn zero obj ;; Ok (finish acc)).
Proof.
  cbn [sumCoverage]. f_equal. generalize zero as acc.
  induction obj as [|[k e] obj IH]; intros acc; [reflexivity|].
  cbn [sumOwn]. unfold sumEntry at 1. rewrite andb_false_r.
  destruct (isJsFileRe k).
  - destruct (addEntry acc e); cbn [bind]; [apply IH|reflexivity..].
  - cbn [bind]. apply IH.
Qed.

Lemma get_named (v : value) (k : string) :
  In k ["statements"; "branches"; "functions"; "lines";
        "total"; "covered"; "skipped"] ->
  v <> VNull -> Obj.get v k = Ok (namedField v k).
Proof.
  intros Hk Hv.
  destruct v as [| b | x | s | el named | own];
    [congruence|reflexivity|reflexivity| | |reflexivity];
    repeat (destruct Hk as [<-|Hk]; [reflexivity|]); destruct Hk.
Qed.

Lemma numberField_named (dv : value) (field : string) :
  In field ["total"; "covered"; "skipped"] ->
  truthy dv = true ->
  numberField dv field
  = match namedField dv field with
    | Some (VNum x) => Some x
    | _ => None
    end.
Proof.
  intros Hf Ht. unfold numberField.
  rewrite get_named; [reflexivity| |intros ->; discriminate].
  cbn in *. intuition.
Qed.

Lemma namedField_falsy (dv : value) (field : string) :
  truthy dv = false -> namedField dv field = None.
Proof. destruct dv; try reflexivity; discriminate. Qed.

Lemma addDimension_counted (acc : stat) (entry : value) (dim : string) :
  In dim statsToProcess ->
  entry <> VNull ->
  addDimension acc entry dim
  = Ok {| total := addCounted (total acc) (counted dim "total" entry);
          covered := addCounted (covered acc) (counted dim "covered" entry);
          skipped := addCounted (skipped acc) (counted dim "skipped" entry);
          pct := pct acc |}.
Proof.
  intros Hdim Hnull. unfold addDimension, counted, addNumber.
  rewrite get_named; [|cbn in *; intuition|assumption]. cbn [bind].
  destruct (namedField entry dim) as [dv|]; [|now destruct acc].
  destruct (truthy dv) eqn:Ht.
  - rewrite !numberField_named by (cbn; auto). reflexivity.
  - rewrite !(namedField_falsy dv) by assumption. now destruct acc.
Qed.

Lemma sumFrom_contribution (start : float) (dim field : string) (k : string)
      (e : value) (obj : props) :
  isJsFileRe k = true ->
  sumFrom start (column dim field ((k, e) :: obj))
  = sumFrom (addCounted start (counted dim field e)) (column dim field obj).
Proof.
  intros Hjs. unfold sumFrom, column. cbn [flat_map].
  unfold contribution at 1. cbn [fst snd]. rewrite Hjs.
  rewrite fold_left_app. destruct (counted dim field e); reflexivity.
Qed.

Lemma sumFrom_skipped (start : float) (dim field : string) (k : string)
      (e : value) (obj : props) :
  isJsFileRe k = false ->
  sumFrom start (column dim field ((k, e) :: obj))
  = sumFrom start (column dim field obj).
Proof.
  intros Hjs. unfold sumFrom, column. cbn [flat_map].
  unfold contribution at 1. cbn [fst]. now rewrite Hjs.
Qed.

Lemma sumOwn_columns (obj : props) :
  (forall k v, In (k, v) obj -> isJsFileRe k = true -> v <> VNull) ->
  forall acc, sumOwn acc obj = Ok (sumsFrom acc obj).
Proof.
  induction obj as [|[k e] obj IH]; intros Hnull acc.
  - now destruct acc as [[] [] [] []].
  - cbn [sumOwn]. destruct (isJsFileRe k) eqn:Hjs.
    + unfold addEntry.
      assert (He : e <> VNull) by (apply (Hnull k); [now left|assumption]).
      rewrite !addDimension_counted by (cbn; auto). cbn [bind].
      rewrite IH by (intros k' v' Hin; apply Hnull; now right).
      unfold sumsFrom, statFrom. cbn [lines functions statements branches
                                      total covered skipped pct].
      now rewrite !sumFrom_contribution by assumption.
    + cbn [bind]. rewrite IH by (intros k' v' Hin; apply Hnull; now right).
      unfold sumsFrom, statFrom.
      now rewrite !sumFrom_skipped by assumption.
Qed.

End AggregatorFacts.

Lemma sumCoverage_finish (obj : value) (recurse : bool) (s : Aggregator.summary) :
  Aggregator.sumCoverage obj recurse = Ok s ->
  exists acc, s = Aggregator.finish acc.
Proof.
  destruct obj as [| b | x | t | el named | own]; cbn [Aggregator.sumCoverage]; intros H.
  - injection H as <-. eauto.
  - injection H as <-. eauto.
  - injection H as <-. eauto.
  - destruct (recurse && negb (t =? "")); [discriminate|]. injection H as <-. eauto.
  - match type of H with bind ?X _ = _ => destruct X as [a| |]; cbn [bind] in H; try discriminate end.
    match type of H with bind ?X _ = _ => destruct X as [a'| |]; cbn [bind] in H; try discriminate end.
    injection H as <-. eauto.
  - match type of H with bind ?X _ = _ => destruct X as [a| |]; cbn [bind] in H; try discriminate end.
    injection H as <-. eauto.
Qed.

(** On the totals up to 120, and on the total 800, the percentage is the
    exact rounding.  The epsilon is what makes it so for 57/800: the product
    of that ratio and 10000 is the double below 712.5. *)
Lemma percent_is_the_exact_rounding (covered total : nat) :
  (1 <= total <= 120 \/ total = 800)%nat -> (covered <= total)%nat ->
  percentAgrees total covered = true.
Proof.
  intros Ht Hc.
  assert (H : forallb (fun t => forallb (percentAgrees t) (seq 0 (S t)))
                      (seq 1 120 ++ [800%nat])
              = true) by (vm_compute; reflexivity).
  rewrite forallb_forall in H.
  specialize (H total ltac:(apply in_or_app; destruct Ht as [Ht| ->];
                            [left; apply in_seq; lia|right; now left])).
  rewrite forallb_forall in H. apply H. apply in_seq. lia.
Qed.

(** C3.  Every statistic that [sumCoverage] returns has [pct] 0 when its
    total is 0 and otherwise the rounding of
    (covered / total + EPSILON) * 10000, divided by 100; when the two counts
    are integers, the total from 1 to 120 or 800, that is
    10000 * covered / total rounded to the nearest integer, a half upwards,
    and divided by 100.  The
    ratios 4/5, 7999/10000, 1/2 and 4999/10000 give 80, 79.99, 50 and 49.99
    (the doubles 0x1.3ff5c28f5c28fp+6 and 0x1.8feb851eb851fp+5 are the ones
    that print as 79.99 and 49.99), which [addColorToStats] colours green,
    orange, orange and red, each dimension on its own. *)
Theorem pct_of_the_sums_and_its_colour :
  (forall obj recurse s,
      Aggregator.sumCoverage obj recurse = Ok s ->
      Forall (fun st =>
                Aggregator.pct st
                = (if Aggregator.total st =? 0 then 0
                   else Num.round ((Aggregator.covered st / Aggregator.total st
                                    + Num.EPSILON) * 10000) / 100)%float
                /\ forall total covered : nat,
                     (1 <= total <= 120 \/ total = 800)%nat -> (covered <= total)%nat ->
                     Aggregator.total st = Num.ofLength total ->
                     Aggregator.covered st = Num.ofLength covered ->
                     (Aggregator.pct st =? exactPercent covered total)%float = true)
             [Aggregator.lines s; Aggregator.functions s;
              Aggregator.statements s; Aggregator.branches s])
  /\ (Aggregator.percent 4 5 = 80%float
      /\ Aggregator.percent 7999 10000 = 0x1.3ff5c28f5c28fp+6%float
      /\ Aggregator.percent 1 2 = 50%float
      /\ Aggregator.percent 4999 10000 = 0x1.8feb851eb851fp+5%float)
  /\ forall numberToString stringToNumber,
      addColorToStats numberToString stringToNumber
        (VObj [("statements", VObj [("pct", VNum 80)]);
               ("branches", VObj [("pct", VNum 0x1.3ff5c28f5c28fp+6)]);
               ("functions", VObj [("pct", VNum 50)]);
               ("lines", VObj [("pct", VNum 0x1.8feb851eb851fp+5)])])
      = Ok (VObj [("statements", VObj [("pct", VNum 80); ("color", VStr GREEN)]);
                  ("branches", VObj [("pct", VNum 0x1.3ff5c28f5c28fp+6);
                                     ("color", VStr ORANGE)]);
                  ("functions", VObj [("pct", VNum 50); ("color", VStr ORANGE)]);
                  ("lines", VObj [("pct", VNum 0x1.8feb851eb851fp+5);
                                  ("color", VStr RED)])]).
Proof.
  split; [|split].
  - intros obj recurse s H.
    destruct (sumCoverage_finish _ _ _ H) as [acc ->].
    assert (Hexact : forall st : Aggregator.stat,
               forall total covered : nat,
                 (1 <= total <= 120 \/ total = 800)%nat -> (covered <= total)%nat ->
                 Aggregator.total (Aggregator.withPct st) = Num.ofLength total ->
                 Aggregator.covered (Aggregator.withPct st) = Num.ofLength covered ->
                 (Aggregator.pct (Aggregator.withPct st)
                  =? exactPercent covered total)%float = true).
    { intros st total covered Ht Hc Htotal Hcovered.
      cbn [Aggregator.withPct Aggregator.total Aggregator.covered Aggregator.pct]
        in *.
      rewrite Htotal, Hcovered.
      exact (percent_is_the_exact_rounding covered total Ht Hc). }
    repeat constructor; apply Hexact.
  - repeat split; vm_compute; reflexivity.
  - intros. vm_compute. reflexivity.
Qed.

Lemma pct_of_the_sums_and_its_colour_witness :
  exists s,
    Aggregator.sumCoverage (VObj sampleHalves) false = Ok s
    /\ (Aggregator.pct (Aggregator.lines s) =? exactPercent 57 800)%float = true
    /\ exactPercent 57 800 = 0x1.c851eb851eb85p+2%float.
Proof.
  eexists. split; [vm_compute; reflexivity|].
  split; [|vm_compute; reflexivity].
  pose proof (proj1 pct_of_the_sums_and_its_colour (VObj sampleHalves) false _
                eq_refl) as H.
  inversion H as [|? ? [_ Hlines] _]; subst.
  apply Hlines; [now right|lia|vm_compute; reflexivity..].
Defined.

(** C4, as the spec states it, fails: a mapping that holds [null] under a
    key that matches the file expression makes the Aggregator throw. *)
Lemma null_file_entry_stops_the_sum :
  Aggregator.sumCoverage (VObj [("a.js", VNull)]) false = Throw
  /\ ~ (exists s, Aggregator.sumCoverage (VObj [("a.js", VNull)]) false = Ok s).
Proof.
  split; [reflexivity|]. intros [s H]. discriminate H.
Qed.

(** C4, amended.  Without recursion, on an object none of whose matching
    entries is [null]: for each dimension the total, covered and skipped of
    the result are the sums of the numbers found on the entries with a
    matching key, an absent or non-numeric field adding nothing, and [pct] is
    computed from the two sums. *)
Theorem sums_over_the_matching_entries :
  forall obj,
    (forall k v, In (k, v) obj -> isJsFileRe k = true -> v <> VNull) ->
    exists s,
      Aggregator.sumCoverage (VObj obj) false = Ok s
      /\ Forall (fun '(dim, st) =>
                   Aggregator.total st = sum (column dim "total" obj)
                   /\ Aggregator.covered st = sum (column dim "covered" obj)
                   /\ Aggregator.skipped st = sum (column dim "skipped" obj)
                   /\ Aggregator.pct st
                      = (if sum (column dim "total" obj) =? 0 then 0
                         else Num.round ((sum (column dim "covered" obj)
                                          / sum (column dim "total" obj)
                                          + Num.EPSILON) * 10000) / 100)%float)
                [("lines", Aggregator.lines s);
                 ("functions", Aggregator.functions s);
                 ("statements", Aggregator.statements s);
                 ("branches", Aggregator.branches s)].
Proof.
  intros obj Hnull. rewrite sumCoverage_object, (sumOwn_columns obj Hnull).
  cbn [bind]. eexists. split; [reflexivity|].
  repeat constructor.
Qed.

Lemma sums_over_the_matching_entries_witness :
  exists s,
    Aggregator.sumCoverage (VObj sampleDirectory) false = Ok s
    /\ Aggregator.total (Aggregator.lines s) = 4%float
    /\ Aggregator.covered (Aggregator.lines s) = 1%float
    /\ Aggregator.skipped (Aggregator.lines s) = 0%float
    /\ Aggregator.pct (Aggregator.lines s) = 25%float
    /\ Aggregator.total (Aggregator.branches s) = 0%float
    /\ Aggregator.pct (Aggregator.branches s) = 0%float.
Proof.
  assert (Hnull : forall k v, In (k, v) sampleDirectory ->
                               isJsFileRe k = true -> v <> VNull)
    by (intros k v [H|[H|[H|[]]]] _; injection H as _ <-; discriminate).
  destruct (sums_over_the_matching_entries sampleDirectory Hnull)
    as (s & Hs & Hall).
  exists s. split; [exact Hs|].
  inversion Hall as [|? ? Hlines Hrest]; subst.
  inversion Hrest as [|? ? _ Hrest']; subst.
  inversion Hrest' as [|? ? _ Hrest'']; subst.
  inversion Hrest'' as [|? ? Hbranches _]; subst.
  cbn beta iota in Hlines, Hbranches.
  destruct Hlines as (Ht & Hc & Hk & Hp).
  destruct Hbranches as (Ht' & _ & _ & Hp').
  rewrite Ht, Hc, Hk, Hp, Ht', Hp'.
  repeat split; vm_compute; reflexivity.
Defined.

(** The percentage of the directory above is the one of 1 line out of 4, not
    the mean of 100 and 0; the entry that is no source file counts for
    nothing. *)
Lemma pct_is_not_the_mean_of_the_files :
  exists s,
    Aggregator.sumCoverage (VObj sampleDirectory) false = Ok s
    /\ Aggregator.total (Aggregator.lines s) = 4%float
    /\ Aggregator.covered (Aggregator.lines s) = 1%float
    /\ Aggregator.pct (Aggregator.lines s) = 25%float
    /\ Aggregator.pct (Aggregator.functions s) = 0%float.
Proof.
  eexists. split; [vm_compute; reflexivity|]. repeat split.
Qed.

(** ** SummaryMerger *)


Lemma recordRange_cases (key range : string) (jsonSummary : props) :
  recordRange key range jsonSummary =
  if negb (Obj.has key jsonSummary) && inheritedFunction key then Ok jsonSummary
  else (found <- Obj.read key jsonSummary ;;
        entry <- pushOn (entryAfterLine88 found) range ;;
        Ok (Obj.set key entry jsonSummary)).
Proof.
  unfold recordRange, pushOn.
  destruct (negb (Obj.has key jsonSummary) && inheritedFunction key);
    [reflexivity|].
  destruct (Obj.read key jsonSummary) as [found| |]; cbn [bind]; [|reflexivity..].
  fold (entryAfterLine88 found).
  destruct (Obj.get (entryAfterLine88 found) "uncovered") as [u| |];
    cbn [bind]; [|reflexivity..].
  match goal with |- bind ?X _ = _ => destruct X as [e| |] end;
    cbn [bind]; [|reflexivity..].
  destruct (Obj.get e "uncovered") as [[[| b | x | t | elems named | own]|]| |];
    cbn [bind]; try reflexivity.
  destruct (Obj.has "push" named); [reflexivity|].
  match goal with |- bind ?X _ = _ => destruct X as [e'| |] end;
    cbn [bind]; [|reflexivity..].
  destruct (truthySlot found); [reflexivity|].
  now rewrite ObjFacts.set_set_same.
Qed.

Lemma recordRange_pushOn (key range : string) (jsonSummary : props) :
  Obj.lookup key jsonSummary <> None \/ Obj.inherited key = false ->
  recordRange key range jsonSummary =
  (found <- Obj.read key jsonSummary ;;
   entry <- pushOn (entryAfterLine88 found) range ;;
   Ok (Obj.set key entry jsonSummary)).
Proof.
  intros Hown. rewrite recordRange_cases.
  replace (negb (Obj.has key jsonSummary) && inheritedFunction key) with false;
    [reflexivity|].
  symmetry. unfold inheritedFunction.
  destruct Hown as [Hown| ->]; [|now rewrite andb_false_r].
  destruct (Obj.lookup key jsonSummary) as [v|] eqn:E; [|congruence].
  now rewrite (proj2 (ObjFacts.has_true _ _)) by eauto.
Qed.

Lemma object_holdsNamed (k : string) :
  k <> "__proto__" -> holdsNamed VObj k.
Proof.
  intros Hk. split; [reflexivity|].
  intros ps x. cbn [Obj.assign].
  now rewrite (proj2 (String.eqb_neq k "__proto__") Hk).
Qed.

Lemma array_holdsNamed (el : list value) (k : string) :
  Obj.isArrayIndex k = false -> k <> "length" -> k <> "__proto__" ->
  holdsNamed (VArr el) k.
Proof.
  intros Hi Hl Hp.
  apply String.eqb_neq in Hl. apply String.eqb_neq in Hp.
  split; intros ps; [|intros x]; cbn [Obj.get Obj.assign];
    now rewrite Hi, Hl, ?Hp.
Qed.

Lemma pushOn_named (c : props -> value) (ps : props) (range : string) :
  holdsNamed c "uncovered" ->
  mergeableProps ps = true ->
  exists ps',
    pushOn (c ps) range = Ok (c ps')
    /\ (exists named,
          Obj.lookup "uncovered" ps'
          = Some (VArr (uncoveredItems (c ps) ++ [VStr range]) named)
          /\ Obj.has "push" named = false)
    /\ forall dim, dim <> "uncovered" -> Obj.lookup dim ps' = Obj.lookup dim ps.
Proof.
  intros [Hget Hassign]. unfold mergeableProps, uncoveredItems, pushOn.
  rewrite Hget.
  destruct (Obj.lookup "uncovered" ps) as [u|] eqn:Hu.
  - destruct u as [| b | x | t | elems named | own]; cbn [truthy]; intros Hm;
      apply negb_true_iff in Hm; cbn [bind truthySlot truthy]; rewrite ?Hm;
      try discriminate.
    5:{ rewrite Hget, Hu. cbn [bind]. rewrite Hm, Hassign.
        eexists; split; [reflexivity|]. split.
        - eexists; split; [apply ObjFacts.lookup_set_same|assumption].
        - intros dim Hd. now rewrite ObjFacts.lookup_set_other. }
    all: rewrite Hassign; cbn [bind]; rewrite Hget, ObjFacts.lookup_set_same;
      cbn [bind Obj.has Obj.lookup]; rewrite Hassign;
      (eexists; split; [reflexivity|]); split;
      [eexists; split; [apply ObjFacts.lookup_set_same|reflexivity]
      |intros dim Hd; now rewrite !ObjFacts.lookup_set_other].
  - intros _. cbn [bind truthySlot].
    rewrite Hassign; cbn [bind]; rewrite Hget, ObjFacts.lookup_set_same;
      cbn [bind Obj.has Obj.lookup]; rewrite Hassign.
    eexists; split; [reflexivity|]. split.
    + eexists; split; [apply ObjFacts.lookup_set_same|reflexivity].
    + intros dim Hd; now rewrite !ObjFacts.lookup_set_other.
Qed.



Lemma statsToProcess_named (dim : string) :
  In dim statsToProcess ->
  dim <> "uncovered"
  /\ (forall ps, Obj.get (VObj ps) dim = Ok (Obj.lookup dim ps))
  /\ (forall el ps, Obj.get (VArr el ps) dim = Ok (Obj.lookup dim ps)).
Proof.
  intros [<-|[<-|[<-|[<-|[]]]]]; (split; [discriminate|]); split; reflexivity.
Qed.




(** The handler is RangeParser followed by SummaryMerger. *)
Lemma readLines_mergeAll (nts : float -> string) (stn : string -> float)
      (trace : list string) :
  forall st jsonSummary,
    readLines nts stn st jsonSummary trace =
    (summary <- mergeAll jsonSummary (emitted nts stn st trace) ;;
     Ok (finalState nts stn st trace, summary)).
Proof.
  induction trace as [|line trace IH]; intros st js; [reflexivity|].
  cbn [readLines emitted finalState fold_left]. rewrite onLine_advance.
  destruct (advance nts stn st line) as [st' [[key range]|]]; cbn [fst bind mergeAll].
  - destruct (recordRange key range js) as [js'| |]; cbn [bind];
      [apply IH|reflexivity..].
  - apply IH.
Qed.

Lemma rangesOf_cons (key k r : string) (rest : list (string * string)) :
  rangesOf key ((k, r) :: rest)
  = if k =? key then r :: rangesOf key rest else rangesOf key rest.
Proof.
  unfold rangesOf. cbn [filter fst]. now destruct (k =? key).
Qed.





(** ** TreeBuilder *)

Lemma splitOn_nonempty (sep : ascii -> bool) (s : string) :
  Str.splitOn sep s <> [].
Proof.
  destruct s as [|c r]; cbn [Str.splitOn]; [discriminate|].
  destruct (sep c); [discriminate|].
  destruct (Str.splitOn sep r); discriminate.
Qed.

Lemma pathSlices_slashFree (s : string) :
  slashFree s = true -> pathSlices s = [s].
Proof.
  unfold pathSlices. induction s as [|c r IH]; cbn [slashFree Str.splitOn];
    [reflexivity|].
  intros H. apply andb_true_iff in H. destruct H as [Hc Hr].
  apply negb_true_iff in Hc. rewrite Ascii.eqb_sym, Hc, (IH Hr). reflexivity.
Qed.

Lemma splitOn_app (sep : ascii -> bool) (a b : string) (c : ascii) :
  sep c = true ->
  Str.splitOn sep (a ++ String c b) = Str.splitOn sep a ++ Str.splitOn sep b.
Proof.
  intros Hc. induction a as [|x a IH]; cbn [append Str.splitOn].
  - now rewrite Hc.
  - destruct (sep x); [now rewrite IH|].
    rewrite IH. destruct (Str.splitOn sep a) eqn:E; [|reflexivity].
    now apply splitOn_nonempty in E.
Qed.

Lemma join_pathSlices (s : string) :
  Str.join "/" (pathSlices s) = s.
Proof.
  unfold pathSlices. induction s as [|c r IH]; cbn [Str.splitOn]; [reflexivity|].
  destruct (Ascii.eqb "/" c) eqn:E.
  - apply Ascii.eqb_eq in E. subst c.
    destruct (Str.splitOn (Ascii.eqb "/") r) eqn:E'.
    + now apply splitOn_nonempty in E'.
    + cbn [Str.join]. cbn [Str.join] in IH. now rewrite IH.
  - destruct (Str.splitOn (Ascii.eqb "/") r) as [|h t] eqn:E'.
    + now apply splitOn_nonempty in E'.
    + destruct t as [|h' t]; cbn [Str.join] in *; now rewrite <- IH.
Qed.

(** A path without ['/'] is a file of the root. *)
Lemma split_slashFree (path : string) :
  slashFree path = true ->
  pathWithoutFile path = "" /\ fileOfPath path = path.
Proof.
  intros H. unfold pathWithoutFile, fileOfPath.
  rewrite (pathSlices_slashFree path H). split; reflexivity.
Qed.

(** A path is split at its last ['/']. *)
Lemma split_last_slash (dir file : string) :
  slashFree file = true ->
  pathWithoutFile (dir ++ "/" ++ file) = dir
  /\ fileOfPath (dir ++ "/" ++ file) = file.
Proof.
  intros H. unfold pathWithoutFile, fileOfPath, pathSlices.
  change (dir ++ "/" ++ file)%string with (dir ++ String "/" file)%string.
  rewrite splitOn_app by reflexivity.
  fold (pathSlices file). rewrite (pathSlices_slashFree file H).
  rewrite removelast_last, last_last. split; [|reflexivity].
  apply join_pathSlices.
Qed.

Lemma reach_filesSummary_set (divided : props) (dir : string) (ps : props)
      (d f : string) :
  dir <> "total" ->
  reach (filesSummary (Obj.set dir (VObj ps) divided)) d f
  = if dir =? d then Obj.lookup f ps else reach (filesSummary divided) d f.
Proof.
  intros Hdir. unfold reach, filesSummary.
  destruct (String.eqb_spec d "total") as [->|Hd].
  - rewrite !ObjFacts.lookup_remove_same.
    now rewrite (proj2 (String.eqb_neq dir "total") Hdir).
  - rewrite !ObjFacts.lookup_remove_other by assumption.
    rewrite ObjFacts.lookup_set. now destruct (dir =? d).
Qed.

Lemma divideEntry_file (divided : props) (path : string) (v : value) :
  path <> "total" -> placeable path -> dirsAreObjects divided ->
  exists divided',
    divideEntry divided path v = Ok divided'
    /\ dirsAreObjects divided'
    /\ Obj.lookup "total" divided' = Obj.lookup "total" divided
    /\ forall d f, reach (filesSummary divided') d f
                   = if landsOn d f path then Some v
                     else reach (filesSummary divided) d f.
Proof.
  intros Hpath (Hdir & Hinh & Hfile) Hobj. unfold divideEntry.
  rewrite (proj2 (String.eqb_neq path "total") Hpath).
  rewrite ObjFacts.read_own by assumption. cbn [bind].
  set (dir := pathWithoutFile path) in *. set (file := fileOfPath path) in *.
  assert (Hshape : exists ps,
             (match Obj.lookup dir divided with
              | Some d => if truthy d then d else VObj []
              | None => VObj []
              end) = VObj ps
             /\ forall f, reach (filesSummary divided) dir f = Obj.lookup f ps).
  { unfold reach, filesSummary. rewrite ObjFacts.lookup_remove_other by assumption.
    destruct (Obj.lookup dir divided) as [x|] eqn:E.
    - destruct (Hobj dir x Hdir E) as [ps ->]. exists ps. split; reflexivity.
    - exists []. split; reflexivity. }
  destruct Hshape as (ps & -> & Hreach).
  cbn [Obj.assign]. rewrite (proj2 (String.eqb_neq file "__proto__") Hfile).
  cbn [andb bind].
  assert (Hset : Obj.set dir (VObj (Obj.set file v ps))
                   (if truthySlot (Obj.lookup dir divided) then divided
                    else Obj.set dir (VObj []) divided)
                 = Obj.set dir (VObj (Obj.set file v ps)) divided).
  { destruct (truthySlot (Obj.lookup dir divided)); [reflexivity|].
    apply ObjFacts.set_set_same. }
  rewrite Hset. eexists. split; [reflexivity|]. repeat split.
  - intros d x Hd. rewrite ObjFacts.lookup_set.
    destruct (dir =? d); [intros [= <-]; eauto|now apply Hobj].
  - apply ObjFacts.lookup_set_other. congruence.
  - intros d f. rewrite reach_filesSummary_set by assumption.
    unfold landsOn. rewrite (proj2 (String.eqb_neq path "total") Hpath).
    fold dir file. cbn [negb andb].
    destruct (String.eqb_spec dir d) as [<-|Hne]; [|reflexivity].
    rewrite ObjFacts.lookup_set. cbn [andb].
    destruct (file =? f); [reflexivity|]. now rewrite Hreach.
Qed.

Lemma divideEntry_total (divided : props) (v : value) :
  dirsAreObjects divided ->
  divideEntry divided "total" v = Ok (Obj.set "total" v divided)
  /\ dirsAreObjects (Obj.set "total" v divided)
  /\ forall d f, reach (filesSummary (Obj.set "total" v divided)) d f
                 = reach (filesSummary divided) d f.
Proof.
  intros Hobj. split; [reflexivity|]. split.
  - intros d x Hd. rewrite ObjFacts.lookup_set_other by assumption. now apply Hobj.
  - intros d f. unfold reach, filesSummary.
    destruct (String.eqb_spec d "total") as [->|Hd].
    + now rewrite !ObjFacts.lookup_remove_same.
    + rewrite !ObjFacts.lookup_remove_other by assumption.
      now rewrite ObjFacts.lookup_set_other by assumption.
Qed.

Lemma divideFrom_lastWrite (jsonSummary : props) :
  forall divided,
    (forall k v, In (k, v) jsonSummary -> k <> "total" -> placeable k) ->
    dirsAreObjects divided ->
    exists tree,
      divideFrom divided jsonSummary = Ok tree
      /\ (forall d f, reach (filesSummary tree) d f
                      = lastWrite (landsOn d f) jsonSummary
                                  (reach (filesSummary divided) d f))
      /\ Obj.lookup "total" tree
         = lastWrite (String.eqb "total") jsonSummary (Obj.lookup "total" divided).
Proof.
  induction jsonSummary as [|[k v] js IH]; intros divided Hplace Hobj.
  - exists divided. repeat split; reflexivity.
  - cbn [divideFrom lastWrite].
    assert (Hrest : forall k' v', In (k', v') js -> k' <> "total" -> placeable k')
      by (intros k' v' Hin; apply (Hplace k' v'); now right).
    destruct (String.eqb_spec k "total") as [->|Hk].
    + destruct (divideEntry_total divided v Hobj) as (Hrun & Hobj' & Hreach).
      rewrite Hrun. cbn [bind].
      destruct (IH _ Hrest Hobj') as (tree & Htree & Hr & Ht).
      exists tree. split; [assumption|]. split.
      * intros d f. rewrite Hr, Hreach. unfold landsOn at 2. reflexivity.
      * rewrite Ht, ObjFacts.lookup_set_same. reflexivity.
    + destruct (divideEntry_file divided k v Hk
                  (Hplace k v (or_introl eq_refl) Hk) Hobj)
        as (divided' & Hrun & Hobj' & Htotal & Hreach).
      rewrite Hrun. cbn [bind].
      destruct (IH _ Hrest Hobj') as (tree & Htree & Hr & Ht).
      exists tree. split; [assumption|]. split.
      * intros d f. now rewrite Hr, Hreach.
      * rewrite Ht, Htotal.
        assert (E : ("total" =? k) = false) by (apply String.eqb_neq; congruence).
        now rewrite E.
Qed.

Lemma lastWrite_miss (hit : string -> bool) (jsonSummary : props) (prior : slot) :
  (forall k, In k (map fst jsonSummary) -> hit k = false) ->
  lastWrite hit jsonSummary prior = prior.
Proof.
  revert prior. induction jsonSummary as [|[k v] js IH]; intros prior H;
    [reflexivity|].
  cbn [lastWrite]. rewrite (H k (or_introl eq_refl)).
  apply IH. intros k' Hin. apply H. now right.
Qed.

Lemma lastWrite_unique (hit : string -> bool) (jsonSummary : props) (v : value) :
  NoDup (map fst jsonSummary) ->
  (forall k k', In k (map fst jsonSummary) -> In k' (map fst jsonSummary) ->
                hit k = true -> hit k' = true -> k = k') ->
  lastWrite hit jsonSummary None = Some v
  <-> exists k, In (k, v) jsonSummary /\ hit k = true.
Proof.
  intros Hnd Huniq.
  enough (G : forall prior,
             lastWrite hit jsonSummary prior = Some v
             <-> (exists k, In (k, v) jsonSummary /\ hit k = true)
                 \/ (prior = Some v
                     /\ forall k, In k (map fst jsonSummary) -> hit k = false)).
  { rewrite G. split; [intros [H|[H _]]; [assumption|discriminate]|now left]. }
  induction jsonSummary as [|[k0 v0] js IH]; intros prior; cbn [lastWrite].
  - split; [intros H; right; split; [assumption|intros k []]|].
    intros [(k & [] & _)|[H _]]; assumption.
  - cbn [map fst] in Hnd, Huniq. inversion Hnd as [|? ? Hnotin Hnd']; subst.
    assert (Huniq' : forall k k', In k (map fst js) -> In k' (map fst js) ->
                                  hit k = true -> hit k' = true -> k = k')
      by (intros k k' Hin Hin'; apply Huniq; now right).
    rewrite (IH Hnd' Huniq'). clear IH.
    destruct (hit k0) eqn:Hhit.
    + assert (Hmiss : forall k, In k (map fst js) -> hit k = false).
      { intros k Hin. destruct (hit k) eqn:E; [|reflexivity].
        exfalso. apply Hnotin.
        rewrite (Huniq k0 k (or_introl eq_refl) (or_intror Hin) Hhit E).
        assumption. }
      split.
      * intros [(k & Hin & Hk)|[[= <-] _]].
        -- rewrite (Hmiss k) in Hk; [discriminate|].
           apply in_map_iff. exists (k, v). split; [reflexivity|assumption].
        -- left. exists k0. split; [now left|assumption].
      * intros [(k & [[= <- <-]|Hin] & Hk)|[_ H]].
        -- right. split; [reflexivity|assumption].
        -- rewrite (Hmiss k) in Hk; [discriminate|].
           apply in_map_iff. exists (k, v). split; [reflexivity|assumption].
        -- rewrite (H k0 (or_introl eq_refl)) in Hhit. discriminate.
    + split.
      * intros [(k & Hin & Hk)|[Hp Hm]].
        -- left. exists k. split; [now right|assumption].
        -- right. split; [assumption|].
           intros k [<-|Hin]; [assumption|now apply Hm].
      * intros [(k & [[= <- <-]|Hin] & Hk)|[Hp Hm]].
        -- rewrite Hk in Hhit. discriminate.
        -- left. exists k. split; assumption.
        -- right. split; [assumption|]. intros k Hin. apply Hm. now right.
Qed.

Lemma lastWrite_lookup (key : string) (jsonSummary : props) (prior : slot) :
  NoDup (map fst jsonSummary) ->
  lastWrite (String.eqb key) jsonSummary prior
  = match Obj.lookup key jsonSummary with
    | Some v => Some v
    | None => prior
    end.
Proof.
  revert prior. induction jsonSummary as [|[k v] js IH]; intros prior Hnd;
    [reflexivity|].
  cbn [map fst] in Hnd. inversion Hnd as [|? ? Hnotin Hnd']; subst.
  cbn [lastWrite Obj.lookup]. rewrite (String.eqb_sym k key).
  destruct (String.eqb_spec key k) as [->|Hne]; [|now apply IH].
  apply lastWrite_miss. intros k' Hin.
  apply String.eqb_neq. intros <-. contradiction.
Qed.

Lemma lookup_singleton (k k0 : string) (x v : value) :
  Obj.lookup k [(k0, x)] = Some v -> v = x.
Proof.
  cbn [Obj.lookup]. destruct (k0 =? k); [|discriminate]. now intros [= ->].
Qed.

(** A name without ['/'] and the same name after one ['/'] are split into
    the same pair. *)
Lemma split_after_slash (file : string) :
  slashFree file = true ->
  pathWithoutFile ("/" ++ file) = pathWithoutFile file
  /\ fileOfPath ("/" ++ file) = fileOfPath file.
Proof.
  intros H. destruct (split_slashFree file H) as [-> ->].
  exact (split_last_slash "" file H).
Qed.

(** C5, as the spec states it, fails: of the two paths [/a.js] and [a.js]
    only the second is reachable; no pair of keys leads to the summary of
    the first. *)
Lemma root_file_and_slash_file_collide :
  exists divided,
    dividedJsonSummary [("/a.js", summaryWithPct 10); ("a.js", summaryWithPct 20)]
    = Ok divided
    /\ reach (filesSummary divided) "" "a.js" = Some (summaryWithPct 20)
    /\ forall dir file,
        reach (filesSummary divided) dir file <> Some (summaryWithPct 10).
Proof.
  exists [("", VObj [("a.js", summaryWithPct 20)])].
  split; [reflexivity|]. split; [reflexivity|].
  intros dir file H. unfold reach in H.
  change (filesSummary [("", VObj [("a.js", summaryWithPct 20)])])
    with [("", VObj [("a.js", summaryWithPct 20)])] in H.
  destruct (Obj.lookup dir [("", VObj [("a.js", summaryWithPct 20)])])
    as [x|] eqn:E; [|discriminate H].
  apply lookup_singleton in E. subst x.
  apply lookup_singleton in H. vm_compute in H. discriminate H.
Qed.

(** C5, amended.  A path is split at its last ['/'], a path without ['/']
    going under the empty directory key with itself as file key; so a name
    without ['/'] and the same name after one ['/'] are split into the same
    pair.  For a summary none of whose keys other than ["total"] has the
    directory ["total"], a member name of [Object.prototype] as directory, or
    the file name ["__proto__"]: TreeBuilder returns, a pair of keys leads to
    the value of the last key of the summary, other than ["total"], that is
    split into that pair, and to nothing when there is none (a later key
    replaces an earlier one of the same pair); ["total"] is no key of the
    tree and its value is carried apart.  When moreover the keys are distinct
    and no two of them are split into the same pair, the tree holds a value
    under a pair exactly when the summary holds it under a path, other than
    ["total"], that is split into that pair. *)
Theorem tree_holds_each_path_at_its_pair :
  (forall path, slashFree path = true ->
                pathWithoutFile path = "" /\ fileOfPath path = path)
  /\ (forall dir file, slashFree file = true ->
                       pathWithoutFile (dir ++ "/" ++ file) = dir
                       /\ fileOfPath (dir ++ "/" ++ file) = file)
  /\ (forall file, slashFree file = true ->
                   pathWithoutFile ("/" ++ file) = pathWithoutFile file
                   /\ fileOfPath ("/" ++ file) = fileOfPath file)
  /\ (forall jsonSummary,
        (forall k v, In (k, v) jsonSummary -> k <> "total" -> placeable k) ->
        exists divided,
          dividedJsonSummary jsonSummary = Ok divided
          /\ (forall dir file,
                reach (filesSummary divided) dir file
                = lastWrite (landsOn dir file) jsonSummary None)
          /\ Obj.lookup "total" (filesSummary divided) = None
          /\ totalSummary divided
             = lastWrite (String.eqb "total") jsonSummary None)
  /\ forall jsonSummary,
      NoDup (map fst jsonSummary) ->
      (forall k v, In (k, v) jsonSummary -> k <> "total" -> placeable k) ->
      (forall k k', In k (map fst jsonSummary) -> In k' (map fst jsonSummary) ->
                    k <> "total" -> k' <> "total" ->
                    pathWithoutFile k = pathWithoutFile k' ->
                    fileOfPath k = fileOfPath k' -> k = k') ->
      exists divided,
        dividedJsonSummary jsonSummary = Ok divided
        /\ (forall dir file v,
              reach (filesSummary divided) dir file = Some v
              <-> exists path, In (path, v) jsonSummary /\ path <> "total"
                               /\ pathWithoutFile path = dir
                               /\ fileOfPath path = file)
        /\ Obj.lookup "total" (filesSummary divided) = None
        /\ totalSummary divided = Obj.lookup "total" jsonSummary.
Proof.
  split; [exact split_slashFree|]. split; [exact split_last_slash|].
  split; [exact split_after_slash|]. split.
  - intros js Hplace.
    destruct (divideFrom_lastWrite js [] Hplace) as (tree & Hrun & Hreach & Htotal).
    { intros d x _ H. discriminate H. }
    exists tree. split; [exact Hrun|]. split; [exact Hreach|]. split.
    + apply ObjFacts.lookup_remove_same.
    + exact Htotal.
  - intros js Hnd Hplace Hinj.
    destruct (divideFrom_lastWrite js [] Hplace) as (tree & Hrun & Hreach & Htotal).
    { intros d x _ H. discriminate H. }
    exists tree. split; [exact Hrun|]. split; [|split].
    + intros dir file v. rewrite Hreach.
      change (reach (filesSummary []) dir file) with (@None value).
      rewrite lastWrite_unique; [| assumption |].
      * split; intros (path & Hin & H); exists path; (split; [assumption|]).
        -- unfold landsOn in H. apply andb_true_iff in H. destruct H as [H Hf].
           apply andb_true_iff in H. destruct H as [Ht Hd].
           apply negb_true_iff, String.eqb_neq in Ht.
           apply String.eqb_eq in Hd, Hf. auto.
        -- destruct H as (Ht & Hd & Hf). unfold landsOn.
           rewrite (proj2 (String.eqb_neq path "total") Ht), Hd, Hf.
           now rewrite !String.eqb_refl.
      * intros k k' Hk Hk' H H'. unfold landsOn in H, H'.
        apply andb_true_iff in H, H'. destruct H as [H Hf], H' as [H' Hf'].
        apply andb_true_iff in H, H'. destruct H as [Ht Hd], H' as [Ht' Hd'].
        apply negb_true_iff, String.eqb_neq in Ht, Ht'.
        apply String.eqb_eq in Hd, Hf, Hd', Hf'.
        apply Hinj; congruence.
    + apply ObjFacts.lookup_remove_same.
    + unfold totalSummary. rewrite Htotal, lastWrite_lookup by assumption.
      now destruct (Obj.lookup "total" js).
Qed.

(** A directory named ["total"] is outside the theorem above: its file is
    written into the total of the summary and leaves the tree with it. *)
Lemma file_of_a_total_directory_leaves_the_tree :
  exists divided,
    dividedJsonSummary [("total", summaryWithPct 50);
                        ("total/a.js", summaryWithPct 10)]
    = Ok divided
    /\ filesSummary divided = []
    /\ totalSummary divided
       = Some (VObj [("lines", VObj [("total", VNum 10); ("covered", VNum 5);
                                     ("skipped", VNum 0); ("pct", VNum 50)]);
                     ("a.js", summaryWithPct 10)]).
Proof.
  eexists. split; [vm_compute; reflexivity|]. split; reflexivity.
Qed.

Lemma tree_holds_each_path_at_its_pair_witness :
  (pathWithoutFile "index.js" = "" /\ fileOfPath "index.js" = "index.js")
  /\ (pathWithoutFile ("src/lib" ++ "/" ++ "a.js") = "src/lib"
      /\ fileOfPath ("src/lib" ++ "/" ++ "a.js") = "a.js")
  /\ (pathWithoutFile ("/" ++ "a.js") = pathWithoutFile "a.js"
      /\ fileOfPath ("/" ++ "a.js") = fileOfPath "a.js")
  /\ (exists divided,
        dividedJsonSummary sampleColliding = Ok divided
        /\ (forall dir file,
              reach (filesSummary divided) dir file
              = lastWrite (landsOn dir file) sampleColliding None)
        /\ Obj.lookup "total" (filesSummary divided) = None
        /\ totalSummary divided
           = lastWrite (String.eqb "total") sampleColliding None)
  /\ exists divided,
    dividedJsonSummary sampleFlat = Ok divided
    /\ (forall dir file v,
          reach (filesSummary divided) dir file = Some v
          <-> exists path, In (path, v) sampleFlat /\ path <> "total"
                           /\ pathWithoutFile path = dir
                           /\ fileOfPath path = file)
    /\ Obj.lookup "total" (filesSummary divided) = None
    /\ totalSummary divided = Obj.lookup "total" sampleFlat.
Proof.
  split; [apply (proj1 tree_holds_each_path_at_its_pair "index.js"); reflexivity|].
  split; [apply (proj1 (proj2 tree_holds_each_path_at_its_pair) "src/lib" "a.js");
          reflexivity|].
  split; [apply (proj1 (proj2 (proj2 tree_holds_each_path_at_its_pair)) "a.js");
          reflexivity|].
  split.
  - apply (proj1 (proj2 (proj2 (proj2 tree_holds_each_path_at_its_pair)))
             sampleColliding).
    intros k v [H|[H|[]]] Hk; injection H as <- _;
      repeat split; discriminate.
  - apply (proj2 (proj2 (proj2 (proj2 tree_holds_each_path_at_its_pair)))
             sampleFlat).
    + repeat constructor; cbn; intuition discriminate.
    + intros k v [H|[H|[H|[H|[]]]]] Hk; injection H as <- _;
        try congruence; repeat split; discriminate.
    + intros k k' Hk Hk' _ _.
      cbn in Hk, Hk'.
      destruct Hk as [<-|[<-|[<-|[<-|[]]]]], Hk' as [<-|[<-|[<-|[<-|[]]]]];
        vm_compute; intros; congruence.
Defined.

(** ** Renderer *)

Lemma set_withField (k : string) (x : value) (ps : props) :
  Obj.isArrayIndex k = false -> Obj.set k x ps = withField k x ps.
Proof.
  intros Hk. unfold Obj.set, Obj.has, Obj.create. rewrite Hk.
  induction ps as [|[k' y] ps IH]; [reflexivity|].
  cbn [Obj.lookup Obj.update withField app]. destruct (k' =? k); [reflexivity|].
  destruct (Obj.lookup k ps); now rewrite <- IH.
Qed.

Lemma assign_withNamed (v : value) (k : string) (x v' : value) :
  Obj.isArrayIndex k = false -> (k =? "length") = false ->
  (k =? "__proto__") = false ->
  Obj.assign v k x = Ok v' -> v' = withNamed k x v.
Proof.
  intros Hi Hl Hp.
  destruct v as [| b | y | s | el named | own]; cbn [Obj.assign withNamed];
    rewrite ?Hi, ?Hl, ?Hp; cbn [orb andb];
    [discriminate|intros [= <-]..]; rewrite ?set_withField by assumption;
    reflexivity.
Qed.

Lemma lookup_withField (k k' : string) (x : value) (ps : props) :
  Obj.lookup k' (withField k x ps) = if k =? k' then Some x else Obj.lookup k' ps.
Proof.
  induction ps as [|[k0 y] ps IH]; cbn [withField Obj.lookup]; [reflexivity|].
  destruct (String.eqb_spec k0 k) as [->|Hne]; cbn [Obj.lookup].
  - now destruct (k =? k').
  - rewrite IH. destruct (String.eqb_spec k0 k') as [->|Hne'];
      [|reflexivity].
    now rewrite (proj2 (String.eqb_neq k k')) by congruence.
Qed.

Lemma namedField_withNamed (k k' : string) (x v : value) :
  namedField (withNamed k x v) k'
  = if holdsFields v && (k =? k') then Some x else namedField v k'.
Proof.
  destruct v as [| b | y | s | el named | own];
    cbn [withNamed namedField holdsFields andb]; try reflexivity;
    apply lookup_withField.
Qed.

Ltac bind_ok H :=
  match type of H with
  | bind ?X _ = Ok _ =>
      let E := fresh "E" in
      destruct X eqn:E; cbn [bind] in H; [|discriminate H..]
  end.

Section RendererFacts.

Variable nts : float -> string.
Variable stn : string -> float.

Lemma get_pct (dv : value) :
  dv <> VNull -> Obj.get dv "pct" = Ok (namedField dv "pct").
Proof.
  destruct dv as [| b | x | s | el named | own]; [congruence|reflexivity..].
Qed.

Lemma atLeast_number (p : slot) (threshold : float) (b : bool) :
  atLeast nts stn p threshold = Ok b ->
  exists n, toNumber nts stn p = Ok n /\ b = (threshold <=? n)%float.
Proof.
  unfold atLeast. intros H. bind_ok H. injection H as <-. eauto.
Qed.

Lemma colorStat_steps (stats : value) (stat : string) (dv : value) (p : slot)
      (high : bool) (color : string) (dv' stats' : value) :
  In stat statsToProcess -> dv <> VNull ->
  Obj.get dv "pct" = Ok p ->
  atLeast nts stn p 80 = Ok high ->
  (if high then Ok GREEN
   else middle <- atLeast nts stn p 50 ;;
        Ok (if middle then ORANGE else RED)) = Ok color ->
  Obj.assign dv "color" (VStr color) = Ok dv' ->
  Obj.assign stats stat dv' = Ok stats' ->
  stats' = withNamed stat (withColour nts stn dv) stats.
Proof.
  intros Hin Hdv Hp Hhigh Hcolor Hassign Hback.
  rewrite (get_pct dv Hdv) in Hp. injection Hp as <-.
  destruct (atLeast_number _ _ _ Hhigh) as (n & Hn & ->).
  assert (Hc : color = colourOfPct nts stn dv).
  { unfold colourOfPct, colourOf. rewrite Hn.
    destruct (80 <=? n)%float; [now injection Hcolor as <-|].
    bind_ok Hcolor. destruct (atLeast_number _ _ _ E) as (m & Hm & ->).
    rewrite Hn in Hm. injection Hm as <-. now injection Hcolor as <-. }
  subst color.
  apply assign_withNamed in Hassign; [|reflexivity..]. subst dv'.
  apply assign_withNamed in Hback; [exact Hback|..];
    destruct Hin as [<-|[<-|[<-|[<-|[]]]]]; reflexivity.
Qed.

Lemma colorStat_painted (stats : value) (stat : string) (stats' : value) :
  In stat statsToProcess ->
  colorStat nts stn stats stat = Ok stats' ->
  stats' = paintedStat nts stn stat stats.
Proof.
  intros Hin H. unfold colorStat in H.
  assert (Hs : stats <> VNull) by (intros ->; discriminate H).
  rewrite (get_named stats stat) in H by (cbn in *; intuition).
  cbn [bind] in H. unfold paintedStat.
  destruct (namedField stats stat) as [dv|]; [|discriminate H].
  destruct dv as [| b | x | s | el named | own]; [discriminate H|..];
    do 4 bind_ok H;
    (eapply colorStat_steps;
     [exact Hin|discriminate|exact E|exact E0|exact E1|exact E2|exact H]).
Qed.

Lemma addColorToStats_painted (stats stats' : value) :
  addColorToStats nts stn stats = Ok stats' -> stats' = paintedStats nts stn stats.
Proof.
  intros H. unfold addColorToStats in H. do 3 bind_ok H.
  apply colorStat_painted in E, E0, E1, H; try (cbn; auto; fail).
  subst. reflexivity.
Qed.

Lemma namedField_paintedStat (stat k : string) (stats : value) :
  namedField (paintedStat nts stn stat stats) k
  = if stat =? k then option_map (withColour nts stn) (namedField stats stat)
    else namedField stats k.
Proof.
  unfold paintedStat. destruct (namedField stats stat) as [d|] eqn:E.
  - rewrite namedField_withNamed.
    assert (Hf : holdsFields stats = true)
      by (destruct stats; try discriminate E; reflexivity).
    rewrite Hf. cbn [andb option_map]. reflexivity.
  - destruct (String.eqb_spec stat k) as [<-|Hne]; [|reflexivity].
    now rewrite E.
Qed.

Lemma namedField_paintedStats (k : string) (stats : value) :
  namedField (paintedStats nts stn stats) k
  = if existsb (String.eqb k) statsToProcess
    then option_map (withColour nts stn) (namedField stats k)
    else namedField stats k.
Proof.
  unfold paintedStats. rewrite !namedField_paintedStat.
  cbn [existsb statsToProcess].
  rewrite !(String.eqb_sym k).
  destruct (String.eqb_spec "statements" k) as [<-|H1]; [reflexivity|].
  destruct (String.eqb_spec "branches" k) as [<-|H2]; [reflexivity|].
  destruct (String.eqb_spec "functions" k) as [<-|H3]; [reflexivity|].
  destruct (String.eqb_spec "lines" k) as [<-|H4]; reflexivity.
Qed.

Lemma painted_object (ps : props) :
  painted nts stn (VObj ps) = VObj (paintedOwn nts stn ps).
Proof. reflexivity. Qed.

Lemma painted_array (el : list value) (named : props) :
  painted nts stn (VArr el named)
  = VArr (paintedIndices nts stn 0 el) (paintedOwn nts stn named).
Proof. reflexivity. Qed.

Lemma tableRows_object (ps : props) (depth : nat) :
  tableRows nts stn (VObj ps) depth =
  ('(rows, ps) <- ownRows nts stn (fun e => tableRows nts stn e (depth + 1)) depth ps ;;
   Ok (rows, VObj ps)).
Proof. reflexivity. Qed.

Lemma tableRows_array (el : list value) (named : props) (depth : nat) :
  tableRows nts stn (VArr el named) depth =
  ('(rows, el) <- indexRows nts stn (fun e => tableRows nts stn e (depth + 1)) depth 0%N el ;;
   '(more, named) <- ownRows nts stn (fun e => tableRows nts stn e (depth + 1)) depth named ;;
   Ok ((rows ++ more)%string, VArr el named)).
Proof. reflexivity. Qed.

Lemma tableEntry_painted (depth : nat) (k : string) (e : value)
      (rows : string) (e' : value) :
  rendersPainted nts stn e ->
  tableEntry nts stn (fun x => tableRows nts stn x (depth + 1)) depth k e = Ok (rows, e') ->
  e' = paintedEntry nts stn (painted nts stn) k e.
Proof.
  intros IH H. unfold tableEntry in H. unfold paintedEntry.
  destruct (isJsFileRe k).
  - unfold fileRow in H. do 3 bind_ok H. injection H as _ <-.
    now apply addColorToStats_painted.
  - do 2 bind_ok H. destruct a0 as [rows' e'']. injection H as _ <-.
    now apply (IH (depth + 1) rows').
Qed.

Lemma ownRows_painted (depth : nat) (ps : props) :
  Forall (fun kv => rendersPainted nts stn (snd kv)) ps ->
  forall rows ps',
    ownRows nts stn (fun e => tableRows nts stn e (depth + 1)) depth ps = Ok (rows, ps') ->
    ps' = paintedOwn nts stn ps.
Proof.
  induction 1 as [|[k e] ps He _ IH]; intros rows ps' H; cbn [ownRows] in H.
  - now injection H as _ <-.
  - bind_ok H. destruct a as [r e']. bind_ok H. destruct a as [more rest'].
    injection H as _ <-. cbn [paintedOwn].
    rewrite (IH _ _ eq_refl), (tableEntry_painted _ _ _ _ _ He E). reflexivity.
Qed.

Lemma indexRows_painted (depth : nat) (el : list value) :
  Forall (rendersPainted nts stn) el ->
  forall i rows el',
    indexRows nts stn (fun e => tableRows nts stn e (depth + 1)) depth i el = Ok (rows, el') ->
    el' = paintedIndices nts stn i el.
Proof.
  induction 1 as [|e el He _ IH]; intros i rows el' H; cbn [indexRows] in H.
  - now injection H as _ <-.
  - bind_ok H. destruct a as [r e']. bind_ok H. destruct a as [more rest'].
    injection H as _ <-. cbn [paintedIndices].
    rewrite (IH _ _ _ E0), (tableEntry_painted _ _ _ _ _ He E). reflexivity.
Qed.

Lemma tableRows_painted (v : value) : rendersPainted nts stn v.
Proof.
  induction v as [| b | x | s | el named IHel IHnamed | own IHown]
    using value_nested_ind; intros depth rows v' H.
  - now injection H as _ <-.
  - now injection H as _ <-.
  - now injection H as _ <-.
  - cbn [tableRows] in H. destruct (s =? ""); [|discriminate H].
    now injection H as _ <-.
  - rewrite tableRows_array in H.
    bind_ok H. destruct a as [r el']. bind_ok H. destruct a as [more named'].
    injection H as _ <-. rewrite painted_array.
    now rewrite (indexRows_painted _ _ IHel _ _ _ E),
                (ownRows_painted _ _ IHnamed _ _ E0).
  - rewrite tableRows_object in H.
    bind_ok H. destruct a as [r own']. injection H as _ <-.
    rewrite painted_object.
    now rewrite (ownRows_painted _ _ IHown _ _ E).
Qed.

Lemma totalRows_painted (total : slot) (rows : string) (total' : slot) :
  totalRows nts stn total = Ok (rows, total') ->
  total' = paintedTotal nts stn total.
Proof.
  unfold totalRows, paintedTotal. destruct total as [t|]; [|now intros [= _ <-]].
  destruct (truthy t); [|now intros [= _ <-]].
  intros H. do 2 bind_ok H. injection H as _ <-.
  f_equal. now apply addColorToStats_painted.
Qed.

End RendererFacts.

(** C9, as the spec states it, fails: rendering the tree of one file
    leaves another tree, the one where every dimension of the file carries
    a [color]. *)
Lemma rendering_writes_the_colours :
  exists table files',
    buildTable sampleNumberToString sampleStringToNumber None sampleTree
    = Ok (table, None, files')
    /\ files' <> sampleTree
    /\ files'
       = VObj [("", VObj [("a.js",
            VObj [("lines", VObj [("total", VNum 10); ("covered", VNum 5);
                                  ("skipped", VNum 0); ("pct", VNum 90);
                                  ("color", VStr GREEN)]);
                  ("statements", VObj [("total", VNum 10); ("covered", VNum 5);
                                       ("skipped", VNum 0); ("pct", VNum 80);
                                       ("color", VStr GREEN)]);
                  ("functions", VObj [("total", VNum 10); ("covered", VNum 5);
                                      ("skipped", VNum 0); ("pct", VNum 50);
                                      ("color", VStr ORANGE)]);
                  ("branches", VObj [("total", VNum 10); ("covered", VNum 5);
                                     ("skipped", VNum 0); ("pct", VNum 10);
                                     ("color", VStr RED)]);
                  ("uncovered", VArr [VStr "5-8"] [])])])].
Proof.
  do 2 eexists. split; [vm_compute; reflexivity|].
  split; [|reflexivity]. vm_compute. discriminate.
Qed.

(** C9, amended.  Rendering modifies the tree and the total in one
    respect: it writes the property [color] into the four dimensions of the
    total and of every entry whose key matches the file expression.
    Whenever the Renderer returns, the total and the tree it leaves are the
    ones it received with that property holding, in each such dimension, the
    colour of the number its [pct] converts to: green from 80, orange from
    50, red below.  In a dimension no other property changes; in an entry no
    property other than the four dimensions changes; entries, keys and
    their order are the same. *)
Theorem rendering_changes_only_the_colours :
  forall numberToString stringToNumber,
    (forall total files depth table total' files',
        buildTableDepth numberToString stringToNumber total files depth
        = Ok (table, total', files') ->
        total' = paintedTotal numberToString stringToNumber total
        /\ files' = painted numberToString stringToNumber files)
    /\ (forall d,
          holdsFields d = true ->
          namedField (withColour numberToString stringToNumber d) "color"
          = Some (VStr (colourOfPct numberToString stringToNumber d)))
    /\ (forall d k,
          k <> "color" ->
          namedField (withColour numberToString stringToNumber d) k
          = namedField d k)
    /\ (forall stats dim,
          In dim statsToProcess ->
          namedField (paintedStats numberToString stringToNumber stats) dim
          = option_map (withColour numberToString stringToNumber)
                       (namedField stats dim))
    /\ (forall stats k,
          ~ In k statsToProcess ->
          namedField (paintedStats numberToString stringToNumber stats) k
          = namedField stats k).
Proof.
  intros nts stn. split; [|split; [|split; [|split]]].
  - intros total files depth table total' files' H.
    unfold buildTableDepth in H.
    bind_ok H. destruct a as [top t']. bind_ok H. destruct a as [rows f'].
    injection H as _ <- <-. split.
    + eapply totalRows_painted; eassumption.
    + eapply tableRows_painted; eassumption.
  - intros d Hd. unfold withColour. rewrite namedField_withNamed, Hd.
    reflexivity.
  - intros d k Hk. unfold withColour. rewrite namedField_withNamed.
    rewrite (proj2 (String.eqb_neq "color" k)) by congruence.
    now rewrite andb_false_r.
  - intros stats dim Hin. rewrite namedField_paintedStats.
    destruct Hin as [<-|[<-|[<-|[<-|[]]]]]; reflexivity.
  - intros stats k Hk. rewrite namedField_paintedStats.
    destruct (existsb (String.eqb k) statsToProcess) eqn:E; [|reflexivity].
    exfalso. apply Hk. apply existsb_exists in E.
    destruct E as (x & Hin & Hx). apply String.eqb_eq in Hx. now subst.
Qed.

Lemma rendering_changes_only_the_colours_witness :
  (exists table total' files',
      buildTableDepth sampleNumberToString sampleStringToNumber
                      (Some sampleFile) sampleTree 0
      = Ok (table, total', files')
      /\ total' = paintedTotal sampleNumberToString sampleStringToNumber
                               (Some sampleFile)
      /\ files' = painted sampleNumberToString sampleStringToNumber sampleTree)
  /\ namedField (withColour sampleNumberToString sampleStringToNumber
                            (sampleStat 90)) "color"
     = Some (VStr GREEN)
  /\ namedField (withColour sampleNumberToString sampleStringToNumber
                            (sampleStat 90)) "covered"
     = Some (VNum 5)
  /\ namedField (paintedStats sampleNumberToString sampleStringToNumber
                              sampleFile) "branches"
     = Some (VObj [("total", VNum 10); ("covered", VNum 5);
                   ("skipped", VNum 0); ("pct", VNum 10);
                   ("color", VStr RED)])
  /\ namedField (paintedStats sampleNumberToString sampleStringToNumber
                              sampleFile) "uncovered"
     = Some (VArr [VStr "5-8"] []).
Proof.
  pose proof (rendering_changes_only_the_colours
                sampleNumberToString sampleStringToNumber)
    as (Hrun & Hcolor & Hother & Hdim & Hrest).
  split; [|split; [|split; [|split]]].
  - do 3 eexists. split; [vm_compute; reflexivity|].
    eapply (Hrun (Some sampleFile) sampleTree 0%nat).
    vm_compute. reflexivity.
  - rewrite (Hcolor (sampleStat 90) eq_refl). reflexivity.
  - rewrite (Hother (sampleStat 90) "covered") by discriminate. reflexivity.
  - rewrite (Hdim sampleFile "branches") by (cbn; auto). reflexivity.
  - rewrite (Hrest sampleFile "uncovered")
      by (intros [H|[H|[H|[H|[]]]]]; discriminate H).
    reflexivity.
Defined.

(** * Further properties of the script *)

(** ** The line handler on whole traces *)

Lemma emitted_without_uncovered (nts : float -> string) (stn : string -> float)
      (trace : list string) :
  forall st,
    isRecordingUncovered st = false ->
    Forall (fun line => reDA line = None) trace ->
    emitted nts stn st trace = []
    /\ isRecordingUncovered (finalState nts stn st trace) = false.
Proof.
  induction trace as [|line trace IH]; intros st Hrec Hall; [now split|].
  inversion Hall as [|? ? Hline Hrest]; subst.
  cbn [emitted finalState fold_left]. unfold advance at 1 3.
  destruct (reSF line) as [name|]; cbn [fst].
  - apply IH; [exact Hrec|assumption].
  - rewrite Hline, Hrec. cbn [fst]. now apply IH.
Qed.

(** X1.  A trace without any uncovered record leaves the report as an empty
    trace does: whatever files it names, it adds nothing to the summary. *)
Theorem covered_trace_adds_nothing :
  forall numberToString stringToNumber root loaded trace,
    Forall (fun line => reDA line = None) trace ->
    run numberToString stringToNumber root loaded trace
    = run numberToString stringToNumber root loaded [].
Proof.
  intros nts stn root loaded trace Hall. unfold run.
  rewrite readLines_mergeAll.
  destruct (emitted_without_uncovered nts stn trace start eq_refl Hall) as [-> _].
  reflexivity.
Qed.

Lemma covered_trace_adds_nothing_witness :
  run sampleNumberToString sampleStringToNumber "/proj" None
      ["TN:"; "SF:a.js"; "DA:1,1"; "DA:2,3"; "LF:2"; "LH:2"; "end_of_record"]
  = run sampleNumberToString sampleStringToNumber "/proj" None [].
Proof.
  apply covered_trace_adds_nothing.
  repeat constructor.
Defined.

Lemma emitted_uncovered_run (nts : float -> string) (stn : string -> float)
      (more : list string) :
  forall name b prev rest,
    Forall (fun line => reSF line = None /\ reDA line <> None) more ->
    emitted nts stn
            {| filename := name; isRecordingUncovered := true;
               uncoveredBeginning := b; uncoveredEnd := lineNumber stn prev |}
            (more ++ rest)
    = emitted nts stn
              {| filename := name; isRecordingUncovered := true;
                 uncoveredBeginning := b;
                 uncoveredEnd := lineNumber stn (last more prev) |} rest.
Proof.
  induction more as [|line more IH]; intros name b prev rest Hall; [reflexivity|].
  inversion Hall as [|? ? [HSF HDA] Hrest]; subst.
  cbn [app emitted]. unfold advance at 1. rewrite HSF.
  destruct (reDA line) as [digits|] eqn:E; [|congruence].
  cbn [isRecordingUncovered filename uncoveredBeginning].
  replace (unaryPlus stn digits) with (lineNumber stn line)
    by (unfold lineNumber; now rewrite E).
  rewrite (IH name b line rest Hrest). do 2 f_equal.
  destruct more as [|next more]; [reflexivity|].
  change (last (line :: next :: more) prev) with (last (next :: more) prev).
  f_equal. apply last_default.
Qed.

(** X2.  A run of uncovered records read while not recording and closed by a
    line that matches neither expression emits exactly one range, under the
    current file: the text that lines 83-86 make of the number of the first
    record and the number of the last, each the double that unary [+] makes
    of the digits of its record. *)
Theorem run_of_uncovered_records_is_one_range :
  forall numberToString stringToNumber st first more closing,
    isRecordingUncovered st = false ->
    reSF first = None -> reDA first <> None ->
    Forall (fun line => reSF line = None /\ reDA line <> None) more ->
    reSF closing = None -> reDA closing = None ->
    emitted numberToString stringToNumber st (first :: more ++ [closing])
    = [(propertyKey (filename st),
        uncoveredString numberToString
          (lineNumber stringToNumber first)
          (lineNumber stringToNumber (last more first)))].
Proof.
  intros nts stn st first more closing Hrec HSF HDA Hmore HcSF HcDA.
  cbn [emitted]. unfold advance at 1. rewrite HSF, Hrec.
  destruct (reDA first) as [digits|] eqn:E; [|congruence].
  replace (unaryPlus stn digits) with (lineNumber stn first)
    by (unfold lineNumber; now rewrite E).
  rewrite (emitted_uncovered_run nts stn more _ _ first [closing] Hmore).
  cbn [emitted]. unfold advance. rewrite HcSF, HcDA. reflexivity.
Qed.

Lemma run_of_uncovered_records_is_one_range_witness :
  emitted sampleNumberToString sampleStringToNumber
          {| filename := Some "foo.js"; isRecordingUncovered := false;
             uncoveredBeginning := Num.Int 0; uncoveredEnd := Num.Int 0 |}
          ("DA:12,0" :: ["DA:13,0"] ++ ["DA:14,4"])
  = [(propertyKey (Some "foo.js"),
      uncoveredString sampleNumberToString
        (lineNumber sampleStringToNumber "DA:12,0")
        (lineNumber sampleStringToNumber (last ["DA:13,0"] "DA:12,0")))].
Proof.
  apply (run_of_uncovered_records_is_one_range
           sampleNumberToString sampleStringToNumber
           {| filename := Some "foo.js"; isRecordingUncovered := false;
              uncoveredBeginning := Num.Int 0; uncoveredEnd := Num.Int 0 |}
           "DA:12,0" ["DA:13,0"] "DA:14,4");
    try reflexivity; try discriminate; repeat constructor; discriminate.
Defined.

(** ** Merging a range *)

(** X3.  An entry that cannot take a range makes the handler throw: a
    number, a string or [true] stored under the file, or an [uncovered] field
    that is truthy and no array. *)
Theorem unmergeable_entry_throws :
  forall key range jsonSummary v,
    Obj.lookup key jsonSummary = Some v ->
    mergeable v = false ->
    recordRange key range jsonSummary = Throw.
Proof.
  intros key range js v Hv Hm. rewrite recordRange_pushOn by (left; congruence).
  unfold Obj.read. rewrite Hv. cbn [bind entryAfterLine88].
  unfold mergeable in Hm. destruct (truthy v) eqn:Ht; [|discriminate].
  assert (Hpush : pushOn v range = Throw).
  { destruct v as [| b | x | s | el named | own]; try reflexivity;
      try discriminate.
    - unfold pushOn, mergeableProps in *.
      change (Obj.get (VArr el named) "uncovered")
        with (@Ok slot (Obj.lookup "uncovered" named)).
      cbn [bind].
      destruct (Obj.lookup "uncovered" named) as [u|] eqn:Hu; [|discriminate].
      destruct u as [| b | x | s | el' named' | own']; cbn [truthy] in Hm;
        apply negb_false_iff in Hm; cbn [truthySlot truthy]; rewrite ?Hm;
        try discriminate; cbn [bind];
        change (Obj.get (VArr el named) "uncovered")
          with (@Ok slot (Obj.lookup "uncovered" named));
        rewrite Hu; cbn [bind]; rewrite ?Hm; reflexivity.
    - unfold pushOn, mergeableProps in *. cbn [Obj.get bind].
      destruct (Obj.lookup "uncovered" own) as [u|] eqn:Hu; [|discriminate].
      destruct u as [| b | x | s | el' named' | own']; cbn [truthy] in Hm;
        apply negb_false_iff in Hm; cbn [truthySlot truthy]; rewrite ?Hm;
        try discriminate; cbn [bind Obj.get];
        rewrite Hu; cbn [bind]; rewrite ?Hm; reflexivity. }
  now rewrite Hpush.
Qed.

Lemma unmergeable_entry_throws_witness :
  recordRange "a.js" "5-6" [("a.js", VNum 5)] = Throw
  /\ recordRange "a.js" "5-6" [("a.js", VObj [("uncovered", VStr "none")])] = Throw.
Proof.
  split.
  - apply (unmergeable_entry_throws "a.js" "5-6" [("a.js", VNum 5)] (VNum 5));
      reflexivity.
  - apply (unmergeable_entry_throws "a.js" "5-6"
             [("a.js", VObj [("uncovered", VStr "none")])]
             (VObj [("uncovered", VStr "none")])); reflexivity.
Defined.

Lemma recordRange_sets_the_key (key range : string) (jsonSummary summary : props) :
  recordRange key range jsonSummary = Ok summary ->
  summary = jsonSummary \/ exists entry, summary = Obj.set key entry jsonSummary.
Proof.
  rewrite recordRange_cases.
  destruct (negb (Obj.has key jsonSummary) && inheritedFunction key).
  - intros [= <-]. now left.
  - intros H. bind_ok H. bind_ok H. injection H as <-. eauto.
Qed.

Lemma mergeAll_keeps_the_keys (ranges : list (string * string)) :
  forall jsonSummary summary,
    mergeAll jsonSummary ranges = Ok summary ->
    (forall k, Obj.lookup k jsonSummary <> None -> Obj.lookup k summary <> None)
    /\ (forall k, rangesOf k ranges = [] ->
                  Obj.lookup k summary = Obj.lookup k jsonSummary).
Proof.
  induction ranges as [|[key r] ranges IH]; intros js summary H; cbn [mergeAll] in H.
  - injection H as <-. now split.
  - bind_ok H. destruct (IH _ _ H) as [Hkeep Hsame].
    destruct (recordRange_sets_the_key _ _ _ _ E) as [->|[entry ->]].
    { split; [exact Hkeep|]. intros k. rewrite rangesOf_cons.
      destruct (key =? k); [discriminate|]. apply Hsame. }
    split.
    + intros k Hk. apply Hkeep. rewrite ObjFacts.lookup_set.
      destruct (key =? k); [discriminate|assumption].
    + intros k. rewrite rangesOf_cons.
      destruct (String.eqb_spec key k) as [->|Hne]; [discriminate|].
      intros Hnil. rewrite (Hsame k Hnil).
      apply ObjFacts.lookup_set_other. congruence.
Qed.

(** X4.  Whenever the handler returns, no key of the summary has
    disappeared, and the entry of every key for which the trace emits no
    range is the one it was. *)
Theorem handler_never_drops_a_key :
  forall numberToString stringToNumber trace st jsonSummary st' summary,
    readLines numberToString stringToNumber st jsonSummary trace
    = Ok (st', summary) ->
    (forall k, Obj.lookup k jsonSummary <> None -> Obj.lookup k summary <> None)
    /\ (forall k,
          rangesOf k (emitted numberToString stringToNumber st trace) = [] ->
          Obj.lookup k summary = Obj.lookup k jsonSummary).
Proof.
  intros nts stn trace st js st' summary H. rewrite readLines_mergeAll in H.
  bind_ok H. injection H as _ <-. now apply mergeAll_keeps_the_keys.
Qed.

Lemma handler_never_drops_a_key_witness :
  (forall k, Obj.lookup k sampleSummary <> None ->
             Obj.lookup k [("a.js",
               VObj [("lines", VObj [("total", VNum 3); ("covered", VNum 0);
                                     ("skipped", VNum 0); ("pct", VNum 0)]);
                     ("uncovered", VArr [VStr "1"; VStr "5-6"; VStr "9"] [])])]
             <> None)
  /\ (forall k, rangesOf k (emitted sampleNumberToString sampleStringToNumber
                                    start sampleTrace) = [] ->
                Obj.lookup k [("a.js",
                  VObj [("lines", VObj [("total", VNum 3); ("covered", VNum 0);
                                        ("skipped", VNum 0); ("pct", VNum 0)]);
                        ("uncovered", VArr [VStr "1"; VStr "5-6"; VStr "9"] [])])]
                = Obj.lookup k sampleSummary).
Proof.
  eapply (handler_never_drops_a_key sampleNumberToString sampleStringToNumber
            sampleTrace start sampleSummary).
  vm_compute. reflexivity.
Defined.

(** ** Strings *)

Lemma append_nil_r (s : string) : (s ++ "")%string = s.
Proof. induction s as [|c s IH]; [reflexivity|]. cbn [append]. now rewrite IH. Qed.

Lemma append_assoc (a b c : string) :
  ((a ++ b) ++ c)%string = (a ++ (b ++ c))%string.
Proof. induction a as [|x a IH]; [reflexivity|]. cbn [append]. now rewrite IH. Qed.

Lemma prefix_append (p r : string) : prefix p (p ++ r) = true.
Proof.
  induction p as [|c p IH]; [now destruct r|].
  cbn [append prefix]. destruct (ascii_dec c c); [exact IH|congruence].
Qed.

Lemma prefix_split (p s : string) :
  prefix p s = true -> s = (p ++ Str.drop (length p) s)%string.
Proof.
  revert s. induction p as [|c p IH]; intros s H; [reflexivity|].
  destruct s as [|x s]; [discriminate|]. cbn [prefix] in H.
  destruct (ascii_dec c x) as [->|]; [|discriminate].
  cbn [append length Str.drop]. now rewrite <- (IH s H).
Qed.

Lemma drop_append (p r : string) : Str.drop (length p) (p ++ r) = r.
Proof. induction p as [|c p IH]; [now destruct r|exact IH]. Qed.

Lemma length_append (a b : string) : length (a ++ b) = (length a + length b)%nat.
Proof. induction a as [|c a IH]; [reflexivity|]. cbn [append length]. now rewrite IH. Qed.

Lemma drop_split (n : nat) (s : string) :
  (n <= length s)%nat ->
  exists a, s = (a ++ Str.drop n s)%string /\ length a = n.
Proof.
  revert s. induction n as [|n IH]; intros s Hn.
  - exists EmptyString. now split.
  - destruct s as [|c s]; [cbn in Hn; lia|].
    destruct (IH s ltac:(cbn in Hn; lia)) as (a & Ha & Hl).
    exists (String c a). cbn [append Str.drop length]. split; congruence.
Qed.

Lemma splitOn_without (sep : ascii -> bool) (s : string) :
  (fix none (t : string) : bool :=
     match t with
     | EmptyString => true
     | String c r => negb (sep c) && none r
     end) s = true ->
  Str.splitOn sep s = [s].
Proof.
  induction s as [|c s IH]; [reflexivity|]. intros H.
  apply andb_true_iff in H. destruct H as [Hc Hs].
  apply negb_true_iff in Hc. cbn [Str.splitOn]. now rewrite Hc, (IH Hs).
Qed.

Lemma subjectLines_oneLine (s : string) :
  oneLine s = true -> subjectLines s = [s].
Proof.
  unfold subjectLines. induction s as [|c s IH]; [reflexivity|].
  cbn [oneLine]. intros H. apply andb_true_iff in H. destruct H as [Hc Hs].
  apply negb_true_iff in Hc. cbn [Str.terminatorAt] in Hc.
  apply orb_false_iff in Hc. destruct Hc as [Hnl Hsep].
  cbn [Str.lines]. rewrite Hnl, (IH Hs).
  destruct s as [|c1 [|c2 s']]; [reflexivity..|]. now rewrite Hsep.
Qed.

(** ** The three expressions on a line of readline *)

Lemma spanDigits_spec (s : string) :
  s = (fst (Str.spanDigits s) ++ snd (Str.spanDigits s))%string
  /\ allDigits (fst (Str.spanDigits s)) = true.
Proof.
  induction s as [|c s [IH1 IH2]]; [now split|].
  cbn [Str.spanDigits]. destruct (Str.isDigit c) eqn:E.
  - destruct (Str.spanDigits s) as [d t]. cbn [fst snd] in *.
    cbn [append allDigits]. rewrite E. split; [congruence|assumption].
  - now split.
Qed.

Lemma spanDigits_append (d t : string) :
  allDigits d = true ->
  match t with
  | EmptyString => true
  | String c _ => negb (Str.isDigit c)
  end = true ->
  Str.spanDigits (d ++ t) = (d, t).
Proof.
  intros Hd Ht. induction d as [|c d IH].
  - destruct t as [|c t]; [reflexivity|].
    cbn [append Str.spanDigits]. apply negb_true_iff in Ht. now rewrite Ht.
  - cbn [allDigits] in Hd. apply andb_true_iff in Hd. destruct Hd as [Hc Hd].
    cbn [append Str.spanDigits]. now rewrite Hc, (IH Hd).
Qed.

(** X5.  On a line that holds none of the four line terminators of the
    regular expression grammar (LF, CR, U+2028, U+2029): the file marker
    expression matches exactly the lines ["SF:" ++ name] with a name that is not empty
    and captures the name; the uncovered record expression matches exactly
    the lines ["DA:" ++ digits ++ ",0"] with at least one digit and captures
    the digits; no line matches both. *)
Theorem expressions_on_one_line :
  forall line,
    oneLine line = true ->
    (forall name, reSF line = Some name
                  <-> line = ("SF:" ++ name)%string /\ name <> "")
    /\ (forall digits, reDA line = Some digits
                       <-> line = ("DA:" ++ digits ++ ",0")%string
                           /\ digits <> "" /\ allDigits digits = true)
    /\ (reSF line = None \/ reDA line = None).
Proof.
  intros line Hline.
  assert (HSF : forall name, reSF line = Some name
                             <-> line = ("SF:" ++ name)%string /\ name <> "").
  { intros name. unfold reSF. rewrite (subjectLines_oneLine line Hline).
    cbn [firstMatch]. split.
    - destruct (prefix "SF:" line) eqn:Hp; [|discriminate]. cbn [andb].
      destruct (3 <? length line)%nat eqn:Hl; [|discriminate].
      intros [= <-]. apply prefix_split in Hp.
      change (length "SF:") with 3%nat in Hp.
      split; [exact Hp|].
      intros Hempty. change (Str.drop 3 line = "") in Hempty.
      rewrite Hp, Hempty in Hl. discriminate.
    - intros [-> Hne]. rewrite prefix_append. cbn [andb].
      destruct name as [|c name]; [congruence|]. reflexivity. }
  assert (HDA : forall digits, reDA line = Some digits
                               <-> line = ("DA:" ++ digits ++ ",0")%string
                                   /\ digits <> "" /\ allDigits digits = true).
  { intros digits. unfold reDA. rewrite (subjectLines_oneLine line Hline).
    cbn [firstMatch]. split.
    - destruct (prefix "DA:" line) eqn:Hp; [|discriminate].
      apply prefix_split in Hp. change (length "DA:") with 3%nat in Hp.
      destruct (spanDigits_spec (Str.drop 3 line)) as [Hsplit Hdigits].
      destruct (Str.spanDigits (Str.drop 3 line)) as [d t]. cbn [fst snd] in *.
      destruct (0 <? length d)%nat eqn:Hl; [|discriminate]. cbn [andb].
      destruct (String.eqb_spec t ",0") as [->|]; [|discriminate].
      intros [= <-]. split; [|split].
      + now rewrite Hp at 1; rewrite Hsplit at 1.
      + intros ->. discriminate.
      + assumption.
    - intros (-> & Hne & Hd). rewrite prefix_append.
      change (Str.drop 3 ("DA:" ++ digits ++ ",0")) with (digits ++ ",0")%string.
      rewrite (spanDigits_append digits ",0" Hd eq_refl).
      destruct digits as [|c digits]; [congruence|]. reflexivity. }
  split; [exact HSF|]. split; [exact HDA|].
  destruct (reSF line) as [name|] eqn:E1; [|now left]. right.
  destruct (reDA line) as [digits|] eqn:E2; [|reflexivity].
  destruct (proj1 (HSF name) eq_refl) as [H1 _].
  destruct (proj1 (HDA digits) eq_refl) as [H2 _].
  rewrite H1 in H2. discriminate.
Qed.

Lemma expressions_on_one_line_witness :
  (forall name, reSF "SF:src/a.js" = Some name
                <-> "SF:src/a.js" = ("SF:" ++ name)%string /\ name <> "")
  /\ (forall digits, reDA "SF:src/a.js" = Some digits
                     <-> "SF:src/a.js" = ("DA:" ++ digits ++ ",0")%string
                         /\ digits <> "" /\ allDigits digits = true)
  /\ (reSF "SF:src/a.js" = None \/ reDA "SF:src/a.js" = None).
Proof.
  apply (expressions_on_one_line "SF:src/a.js"). reflexivity.
Defined.

(** X6.  A key that holds none of the four line terminators of the regular
    expression grammar (LF, CR, U+2028, U+2029) names a source file exactly
    when it is a stem that is not empty followed by [.js]. *)
Theorem source_file_keys :
  forall key,
    oneLine key = true ->
    (isJsFileRe key = true
     <-> exists stem, stem <> "" /\ key = (stem ++ ".js")%string).
Proof.
  intros key Hkey. unfold isJsFileRe.
  rewrite (subjectLines_oneLine key Hkey). cbn [existsb]. rewrite orb_false_r.
  unfold Str.endsWith. cbn [length]. split.
  - intros H. apply andb_true_iff in H. destruct H as [Hlen H].
    apply andb_true_iff in H. destruct H as [_ Hdrop].
    apply String.eqb_eq in Hdrop. apply Nat.leb_le in Hlen.
    destruct (drop_split (length key - 3) key ltac:(lia)) as (stem & Hs & Hl).
    exists stem. split; [|congruence].
    intros ->. cbn [length] in Hl. lia.
  - intros (stem & Hne & ->). rewrite length_append. cbn [length].
    replace (length stem + 3 - 3)%nat with (length stem) by lia.
    rewrite drop_append.
    destruct stem as [|c stem]; [congruence|]. cbn [length].
    apply andb_true_iff. split; [apply Nat.leb_le; lia|].
    apply andb_true_iff. split; [apply Nat.leb_le; lia|reflexivity].
Qed.

Lemma source_file_keys_witness :
  (isJsFileRe "index.js" = true
   <-> exists stem, stem <> "" /\ "index.js" = (stem ++ ".js")%string)
  /\ (isJsFileRe ".js" = true
      <-> exists stem, stem <> "" /\ ".js" = (stem ++ ".js")%string).
Proof.
  split; apply source_file_keys; reflexivity.
Defined.

(** A subject that holds U+2028 or U+2029 is matched line by line: the file
    expression finds a file name on either side of the separator, and the
    file marker expression finds a marker after it. *)
Lemma separator_ends_a_line :
  isJsFileRe ("x" ++ String "226" (String "128" (String "168" "a.js"))) = true
  /\ isJsFileRe ("a.js" ++ String "226" (String "128" (String "168" "x"))) = true
  /\ reSF ("TN:" ++ String "226" (String "128" (String "169" "SF:a.js")))
     = Some "a.js".
Proof.
  repeat split.
Qed.

(** ** Loading the summary *)

Lemma lookup_fold_set (pairs : props) :
  forall acc k,
    Obj.lookup k (fold_left (fun o kv => Obj.set (fst kv) (snd kv) o) pairs acc)
    = lastWrite (fun k' => k' =? k) pairs (Obj.lookup k acc).
Proof.
  induction pairs as [|[k' v] pairs IH]; intros acc k; [reflexivity|].
  cbn [fold_left lastWrite fst snd]. rewrite IH, ObjFacts.lookup_set. reflexivity.
Qed.

Lemma lastWrite_map (hit : string -> bool) (f : string -> string) (obj : props) :
  forall prior,
    lastWrite hit (map (fun kv => (f (fst kv), snd kv)) obj) prior
    = lastWrite (fun k => hit (f k)) obj prior.
Proof.
  induction obj as [|[k v] obj IH]; intros prior; [reflexivity|].
  cbn [map lastWrite fst snd]. apply IH.
Qed.

Lemma replaceFirst_prefix (pat rep s : string) :
  prefix pat s = true ->
  Str.replaceFirst pat rep s = (rep ++ Str.drop (length pat) s)%string.
Proof. intros H. destruct s; cbn [Str.replaceFirst]; now rewrite H. Qed.

(** X7.  The loaded summary maps a key to the value of the last entry of
    the file whose key, once the first occurrence of the root and a ['/'] is
    removed from it, is that key; an entry [root/rel] is stored under [rel];
    a file that cannot be loaded, or holds [null], gives the empty summary. *)
Theorem loaded_summary_is_keyed_by_relative_paths :
  (forall root obj k,
      Obj.lookup k (loadSummary root (Some (VObj obj)))
      = lastWrite (fun loaded => relativeKey root loaded =? k) obj None)
  /\ (forall root rel, relativeKey root (root ++ "/" ++ rel) = rel)
  /\ (forall root, loadSummary root None = [] /\ loadSummary root (Some VNull) = []).
Proof.
  split; [|split].
  - intros root obj k. unfold loadSummary, fromEntries, entries.
    rewrite lookup_fold_set. cbn [Obj.lookup].
    apply (lastWrite_map (fun k' => k' =? k) (relativeKey root)).
  - intros root rel. unfold relativeKey.
    rewrite <- append_assoc.
    rewrite replaceFirst_prefix by apply prefix_append.
    cbn [append]. apply drop_append.
  - intros root. split; reflexivity.
Qed.

(** ** Paths *)

Lemma slashFree_append_slash (a b : string) :
  slashFree (a ++ "/" ++ b) = false.
Proof.
  induction a as [|c a IH]; [reflexivity|].
  change (slashFree (String c a ++ "/" ++ b))
    with (negb (c =? "/")%char && slashFree (a ++ "/" ++ b)).
  rewrite IH. apply andb_false_r.
Qed.

Lemma pathSlices_are_slashFree (s : string) :
  Forall (fun slice => slashFree slice = true) (pathSlices s).
Proof.
  unfold pathSlices. induction s as [|c s IH]; [repeat constructor|].
  cbn [Str.splitOn]. destruct (Ascii.eqb "/" c) eqn:E.
  - constructor; [reflexivity|exact IH].
  - destruct (Str.splitOn (Ascii.eqb "/") s) as [|h t]; [repeat constructor; cbn;
      rewrite Ascii.eqb_sym, E; reflexivity|].
    inversion IH as [|? ? Hh Ht]; subst. constructor; [|assumption].
    cbn [slashFree]. now rewrite Ascii.eqb_sym, E, Hh.
Qed.

Lemma join_last (parts : list string) (x : string) :
  parts <> [] ->
  Str.join "/" (parts ++ [x]) = (Str.join "/" parts ++ "/" ++ x)%string.
Proof.
  induction parts as [|p parts IH]; [congruence|]. intros _.
  destruct parts as [|q parts]; [reflexivity|].
  change (Str.join "/" ((p :: q :: parts) ++ [x]))
    with (p ++ "/" ++ Str.join "/" ((q :: parts) ++ [x]))%string.
  rewrite IH by discriminate.
  change (Str.join "/" (p :: q :: parts))
    with (p ++ "/" ++ Str.join "/" (q :: parts))%string.
  now rewrite !append_assoc.
Qed.

(** X8.  Every path is split without loss: the file key never holds a
    ['/']; a path without ['/'] is its own file key under the empty
    directory key; any other path is its directory key, a ['/'] and its file
    key. *)
Theorem path_is_split_at_its_last_slash :
  forall path,
    slashFree (fileOfPath path) = true
    /\ ((slashFree path = true
         /\ pathWithoutFile path = "" /\ fileOfPath path = path)
        \/ (slashFree path = false
            /\ path = (pathWithoutFile path ++ "/" ++ fileOfPath path)%string)).
Proof.
  intros path. unfold pathWithoutFile, fileOfPath.
  pose proof (join_pathSlices path) as Hjoin.
  pose proof (pathSlices_are_slashFree path) as Hfree.
  assert (Hne : pathSlices path <> []) by apply splitOn_nonempty.
  rewrite (app_removelast_last EmptyString Hne) in Hjoin, Hfree.
  apply Forall_app in Hfree. destruct Hfree as [_ Hlast].
  inversion Hlast as [|? ? Hfile _]; subst. split; [exact Hfile|].
  destruct (removelast (pathSlices path)) as [|d ds] eqn:E.
  - left. cbn [app Str.join] in Hjoin. rewrite Hjoin in Hfile.
    repeat split; [exact Hfile|exact Hjoin].
  - right. rewrite join_last in Hjoin by discriminate.
    split; [|now symmetry]. rewrite <- Hjoin. apply slashFree_append_slash.
Qed.

(** ** TreeBuilder *)

Lemma divideEntry_returns (divided : props) (k : string) (v : value) :
  (k <> "total" -> Obj.inherited (pathWithoutFile k) = false
                   /\ fileOfPath k <> "__proto__") ->
  (k = "total" -> isArray v = false) ->
  noArrays divided ->
  exists divided', divideEntry divided k v = Ok divided' /\ noArrays divided'.
Proof.
  intros Hpath Htotal Hinv. unfold divideEntry.
  destruct (String.eqb_spec k "total") as [->|Hk].
  - eexists. split; [reflexivity|]. intros d x. rewrite ObjFacts.lookup_set.
    destruct ("total" =? d); [intros [= <-]; auto|apply Hinv].
  - destruct (Hpath Hk) as [Hinh Hfile].
    apply String.eqb_neq in Hfile.
    rewrite ObjFacts.read_own by assumption. cbn [bind].
    assert (Hset : forall x w,
               isArray x = false -> noArrays w ->
               noArrays (Obj.set (pathWithoutFile k) x w)).
    { intros x w Hx Hw d y. rewrite ObjFacts.lookup_set.
      destruct (pathWithoutFile k =? d); [now intros [= <-]|apply Hw]. }
    destruct (Obj.lookup (pathWithoutFile k) divided) as [x|] eqn:Hx;
      cbn [truthySlot].
    + pose proof (Hinv _ _ Hx) as Hnot.
      destruct (truthy x) eqn:Ht.
      * destruct x as [| b | y | s | el named | own];
          try discriminate; cbn [Obj.assign bind]; rewrite ?Hfile;
          cbn [andb bind]; eexists; (split; [reflexivity|]);
          now apply Hset.
      * cbn [Obj.assign bind]. rewrite Hfile. cbn [andb bind].
        eexists. split; [reflexivity|]. apply Hset; [reflexivity|].
        now apply Hset.
    + cbn [Obj.assign bind]. rewrite Hfile. cbn [andb bind].
      eexists. split; [reflexivity|]. apply Hset; [reflexivity|].
      now apply Hset.
Qed.

Lemma divideFrom_returns (jsonSummary : props) :
  forall divided,
    (forall k v, In (k, v) jsonSummary -> k <> "total" ->
                 Obj.inherited (pathWithoutFile k) = false
                 /\ fileOfPath k <> "__proto__") ->
    (forall v, In ("total", v) jsonSummary -> isArray v = false) ->
    noArrays divided ->
    exists tree, divideFrom divided jsonSummary = Ok tree.
Proof.
  induction jsonSummary as [|[k v] js IH]; intros divided Hpath Htotal Hinv.
  - now exists divided.
  - cbn [divideFrom].
    destruct (divideEntry_returns divided k v) as (divided' & -> & Hinv').
    + apply (Hpath k v). now left.
    + intros ->. apply Htotal. now left.
    + assumption.
    + cbn [bind]. apply IH; [| |assumption].
      * intros k' v' Hin. apply (Hpath k' v'). now right.
      * intros v' Hin. apply Htotal. now right.
Qed.

(** X9.  TreeBuilder returns a tree for every summary whose total is no
    array and in which no key other than ["total"] has a member name of
    [Object.prototype] as directory or ["__proto__"] as file name.  The
    directory may be ["total"] itself: a total that is a number, a string or
    [true] takes the assignment of a file without effect, and a missing or
    falsy one is replaced by a fresh object first. *)
Theorem tree_builder_never_throws :
  forall jsonSummary,
    (forall k v, In (k, v) jsonSummary -> k <> "total" ->
                 Obj.inherited (pathWithoutFile k) = false
                 /\ fileOfPath k <> "__proto__") ->
    (forall v, In ("total", v) jsonSummary -> isArray v = false) ->
    exists divided, dividedJsonSummary jsonSummary = Ok divided.
Proof.
  intros js Hpath Htotal. apply divideFrom_returns; [assumption..|].
  intros d x H. discriminate H.
Qed.

Lemma tree_builder_never_throws_witness :
  exists divided,
    dividedJsonSummary sampleTotalDirectory = Ok divided
    /\ totalSummary divided = Some (VNum 5).
Proof.
  destruct (tree_builder_never_throws sampleTotalDirectory) as [divided H].
  - intros k v [E|[E|[E|[]]]] Hk; injection E as <- _;
      [congruence|split; [reflexivity|discriminate]..].
  - intros v [E|[E|[E|[]]]]; [now injection E as <-|discriminate E..].
  - exists divided. split; [exact H|].
    vm_compute in H. injection H as <-. reflexivity.
Defined.

(** ** Aggregator: the entry that cannot be summed *)

Section AggregatorErrors.
Import Aggregator.

Lemma addEntry_null (acc : summary) : addEntry acc VNull = Throw.
Proof. reflexivity. Qed.

Lemma addEntry_returns (acc : summary) (entry : value) :
  entry <> VNull -> exists acc', addEntry acc entry = Ok acc'.
Proof.
  intros H. unfold addEntry. rewrite !addDimension_counted by (cbn; auto).
  cbn [bind]. eexists. reflexivity.
Qed.

Lemma sumOwn_throws (obj : props) :
  forall acc,
    sumOwn acc obj = Throw
    <-> exists k, In (k, VNull) obj /\ isJsFileRe k = true.
Proof.
  induction obj as [|[k e] obj IH]; intros acc.
  - split; [discriminate|]. intros (k & [] & _).
  - cbn [sumOwn]. destruct (isJsFileRe k) eqn:Hjs.
    + destruct e as [| b | x | s | el named | own].
      1:{ rewrite addEntry_null. cbn [bind]. split; [|reflexivity].
          intros _. exists k. split; [now left|assumption]. }
      all: match goal with
           | |- context [addEntry ?a ?e] =>
               destruct (addEntry_returns a e) as [acc' ->]; [discriminate|]
           end;
        cbn [bind]; rewrite IH; split; intros (k' & Hin & Hk');
        exists k'; (split; [|assumption]);
        [now right|destruct Hin as [Hin|Hin]; [discriminate Hin|assumption]..].
    + cbn [bind]. rewrite IH. split; intros (k' & Hin & Hk'); exists k'.
      * split; [now right|assumption].
      * split; [|assumption]. destruct Hin as [Hin|Hin]; [|assumption].
        injection Hin as -> _. congruence.
Qed.

End AggregatorErrors.

(** X10.  Without recursion the sum over an object throws exactly when a
    key that matches the file expression holds [null]; under any other key
    [null] is passed over. *)
Theorem sum_throws_exactly_on_a_null_file :
  forall obj,
    Aggregator.sumCoverage (VObj obj) false = Throw
    <-> exists k, In (k, VNull) obj /\ isJsFileRe k = true.
Proof.
  intros obj. rewrite sumCoverage_object, <- (sumOwn_throws obj Aggregator.zero).
  destruct (sumOwn Aggregator.zero obj); cbn [bind]; split; congruence.
Qed.

(** ** Renderer: what cannot be rendered *)

Lemma bind_followed {A B : Type} (r : result A) (k : A -> result B) :
  r <> Beyond -> (forall a, r = Ok a -> k a <> Beyond) -> bind r k <> Beyond.
Proof. destruct r; cbn [bind]; intros Hr Hk; [now apply Hk|discriminate|congruence]. Qed.

Lemma bind_throws {A B : Type} (r : result A) (k : A -> result B) :
  r <> Beyond -> (forall a, r = Ok a -> k a = Throw) -> bind r k = Throw.
Proof. destruct r; cbn [bind]; intros Hr Hk; [now apply Hk|reflexivity|congruence]. Qed.

Lemma get_followed (v : value) (k : string) : Obj.get v k <> Beyond.
Proof. destruct v; discriminate. Qed.

Lemma assign_color_followed (dv x : value) : Obj.assign dv "color" x <> Beyond.
Proof.
  destruct dv as [| b | y | s | el named | own]; discriminate.
Qed.

Lemma assign_dimension_followed (stats : value) (stat : string) (x : value) :
  In stat statsToProcess -> Obj.assign stats stat x <> Beyond.
Proof.
  intros [<-|[<-|[<-|[<-|[]]]]];
    destruct stats as [| b | y | s | el named | own]; cbn [Obj.assign];
    try discriminate;
    try (match goal with
         | |- context [Obj.isArrayIndex ?k] => change (Obj.isArrayIndex k) with false
         end);
    cbn; discriminate.
Qed.

Lemma addEntry_followed (acc : Aggregator.summary) (e : value) :
  Aggregator.addEntry acc e <> Beyond.
Proof.
  destruct e; [discriminate|..];
    match goal with
    | |- Aggregator.addEntry ?a ?e <> _ =>
        destruct (addEntry_returns a e) as [? ->]; discriminate
    end.
Qed.

Lemma sumIndices_followed (el : list value) :
  forall acc i, sumIndices acc i el <> Beyond.
Proof.
  induction el as [|e el IH]; intros acc i; [discriminate|].
  cbn [sumIndices]. apply bind_followed; [|intros a _; apply IH].
  destruct (isJsFileRe (Str.ofNat i)); [|discriminate].
  apply addEntry_followed.
Qed.

Lemma sumOwn_followed (obj : props) :
  forall acc, sumOwn acc obj <> Beyond.
Proof.
  induction obj as [|[k e] obj IH]; intros acc; [discriminate|].
  cbn [sumOwn]. apply bind_followed; [|intros a _; apply IH].
  destruct (isJsFileRe k); [|discriminate].
  apply addEntry_followed.
Qed.

Lemma sumCoverage_array (el : list value) (named : props) :
  Aggregator.sumCoverage (VArr el named) false
  = (acc <- sumIndices Aggregator.zero 0%N el ;;
     acc <- sumOwn acc named ;;
     Ok (Aggregator.finish acc)).
Proof.
  cbn [Aggregator.sumCoverage].
  assert (Hown : forall ps acc,
             (fix own (acc : Aggregator.summary) (ps : props) {struct ps}
                : result Aggregator.summary :=
                match ps with
                | [] => Ok acc
                | (entryKey, entry) :: rest =>
                    acc <- Aggregator.sumEntry
                             (fun entry => Aggregator.sumCoverage entry false)
                             false acc entryKey entry ;;
                    own acc rest
                end) acc ps = sumOwn acc ps).
  { induction ps as [|[k e] ps IH]; intros acc; [reflexivity|].
    cbn [sumOwn]. unfold Aggregator.sumEntry at 1. rewrite andb_false_r.
    destruct (isJsFileRe k).
    - destruct (Aggregator.addEntry acc e); cbn [bind]; [apply IH|reflexivity..].
    - cbn [bind]. apply IH. }
  assert (Hidx : forall l acc i,
             (fix indices (acc : Aggregator.summary) (i : N) (el : list value)
                  {struct el} : result Aggregator.summary :=
                match el with
                | [] => Ok acc
                | entry :: rest =>
                    acc <- Aggregator.sumEntry
                             (fun entry => Aggregator.sumCoverage entry false)
                             false acc (Str.ofNat i) entry ;;
                    indices acc (N.succ i) rest
                end) acc i l = sumIndices acc i l).
  { induction l as [|e l IH]; intros acc i; [reflexivity|].
    cbn [sumIndices]. unfold Aggregator.sumEntry at 1. rewrite andb_false_r.
    destruct (isJsFileRe (Str.ofNat i)).
    - destruct (Aggregator.addEntry acc e); cbn [bind]; [apply IH|reflexivity..].
    - cbn [bind]. apply IH. }
  rewrite Hidx. destruct (sumIndices Aggregator.zero 0 el); cbn [bind];
    [|reflexivity..].
  now rewrite Hown.
Qed.

Lemma sumCoverage_followed (v : value) :
  Aggregator.sumCoverage v false <> Beyond.
Proof.
  destruct v as [| b | x | s | el named | own]; try discriminate.
  - rewrite sumCoverage_array.
    apply bind_followed; [apply sumIndices_followed|intros a _].
    apply bind_followed; [apply sumOwn_followed|discriminate].
  - rewrite sumCoverage_object.
    apply bind_followed; [apply sumOwn_followed|discriminate].
Qed.

Section RendererErrors.

Variable nts : float -> string.
Variable stn : string -> float.

Lemma toString_followed (v : value) : toString nts v <> Beyond.
Proof.
  induction v as [| b | x | s | el named IHel _ | own _] using value_nested_ind;
    cbn [toString]; try discriminate.
  - destruct (Obj.has "toString" named); [discriminate|].
    destruct (Obj.has "join" named); [discriminate|].
    induction IHel as [|e el He _ IH]; [discriminate|].
    assert (Helem : match e with VNull => Ok "" | _ => toString nts e end <> Beyond)
      by (destruct e; first [discriminate|exact He]).
    destruct el as [|e' el]; [exact Helem|].
    apply bind_followed; [exact Helem|intros a _].
    apply bind_followed; [exact IH|discriminate].
  - destruct (Obj.has "toString" own); discriminate.
Qed.

Lemma interpolate_followed (s : slot) : interpolate nts s <> Beyond.
Proof. destruct s; [apply toString_followed|discriminate]. Qed.

Lemma toNumber_followed (s : slot) : toNumber nts stn s <> Beyond.
Proof.
  destruct s as [[| b | x | t | el named | own]|]; cbn [toNumber]; try discriminate.
  - apply bind_followed; [apply toString_followed|discriminate].
  - destruct (Obj.has "toString" own); discriminate.
Qed.

Lemma atLeast_followed (s : slot) (x : float) : atLeast nts stn s x <> Beyond.
Proof.
  unfold atLeast. apply bind_followed; [apply toNumber_followed|discriminate].
Qed.

Lemma colorStat_followed (stats : value) (stat : string) :
  In stat statsToProcess -> colorStat nts stn stats stat <> Beyond.
Proof.
  intros Hin. unfold colorStat.
  apply bind_followed; [apply get_followed|intros d _].
  destruct d as [dv|]; [|discriminate].
  destruct dv as [| b | x | s | el named | own]; [discriminate|..];
    (apply bind_followed; [apply get_followed|intros p _]);
    (apply bind_followed; [apply atLeast_followed|intros high _]);
    (apply bind_followed;
     [destruct high; [discriminate|];
      apply bind_followed; [apply atLeast_followed|discriminate]
     |intros color _]);
    (apply bind_followed; [apply assign_color_followed|intros dv' _]);
    now apply assign_dimension_followed.
Qed.

Lemma addColorToStats_followed (stats : value) :
  addColorToStats nts stn stats <> Beyond.
Proof.
  unfold addColorToStats.
  repeat (apply bind_followed;
          [apply colorStat_followed; cbn; auto|intros ? _]).
  apply colorStat_followed; cbn; auto.
Qed.

Lemma pctAndColor_followed (stats : value) (dim : string) :
  pctAndColor nts stats dim <> Beyond.
Proof.
  unfold pctAndColor. apply bind_followed; [apply get_followed|intros d _].
  destruct d as [dv|]; [|discriminate].
  do 2 (apply bind_followed; [apply get_followed|intros ? _]).
  do 2 (apply bind_followed; [apply interpolate_followed|intros ? _]).
  discriminate.
Qed.

Lemma columns_followed (alt message : string) (stats : value) :
  columns nts alt message stats <> Beyond.
Proof.
  unfold columns.
  do 4 (apply bind_followed; [apply pctAndColor_followed|intros [? ?] _]).
  discriminate.
Qed.

Lemma uncoveredBadges_followed (l : list value) : uncoveredBadges l <> Beyond.
Proof.
  induction l as [|e l IH]; [discriminate|].
  destruct e; cbn [uncoveredBadges]; try discriminate.
  apply bind_followed; [exact IH|discriminate].
Qed.

Lemma fileRow_followed (depth : nat) (k : string) (e : value) :
  fileRow nts stn depth k e <> Beyond.
Proof.
  unfold fileRow.
  apply bind_followed; [apply addColorToStats_followed|intros e' _].
  apply bind_followed.
  - unfold uncoveredLines. apply bind_followed; [apply get_followed|intros u _].
    destruct u as [[| | | | el named |]|]; try discriminate.
    apply uncoveredBadges_followed.
  - intros badges _. apply bind_followed; [apply columns_followed|discriminate].
Qed.

Lemma directoryRow_followed (depth : nat) (k : string) (e : value) :
  directoryRow nts stn depth k e <> Beyond.
Proof.
  unfold directoryRow.
  apply bind_followed; [apply sumCoverage_followed|intros sums _].
  apply bind_followed; [apply addColorToStats_followed|intros sums' _].
  apply bind_followed; [apply columns_followed|discriminate].
Qed.

Lemma tableEntry_followed (self : value -> result (string * value)) (depth : nat)
      (k : string) (e : value) :
  self e <> Beyond -> tableEntry nts stn self depth k e <> Beyond.
Proof.
  intros Hself. unfold tableEntry. destruct (isJsFileRe k).
  - apply fileRow_followed.
  - apply bind_followed; [apply directoryRow_followed|intros row _].
    apply bind_followed; [exact Hself|intros [? ?] _; discriminate].
Qed.

Lemma ownRows_followed (self : value -> result (string * value)) (depth : nat)
      (ps : props) :
  Forall (fun kv => self (snd kv) <> Beyond) ps ->
  ownRows nts stn self depth ps <> Beyond.
Proof.
  induction 1 as [|[k e] ps He _ IH]; cbn [ownRows]; [discriminate|].
  apply bind_followed; [now apply tableEntry_followed|intros [? ?] _].
  apply bind_followed; [exact IH|intros [? ?] _; discriminate].
Qed.

Lemma indexRows_followed (self : value -> result (string * value)) (depth : nat)
      (el : list value) :
  Forall (fun e => self e <> Beyond) el ->
  forall i, indexRows nts stn self depth i el <> Beyond.
Proof.
  induction 1 as [|e el He _ IH]; intros i; cbn [indexRows]; [discriminate|].
  apply bind_followed; [now apply tableEntry_followed|intros [? ?] _].
  apply bind_followed; [apply IH|intros [? ?] _; discriminate].
Qed.

Lemma tableRows_followed (v : value) :
  forall depth, tableRows nts stn v depth <> Beyond.
Proof.
  induction v as [| b | x | s | el named IHel IHnamed | own IHown]
    using value_nested_ind; intros depth; try discriminate.
  - cbn [tableRows]. destruct (s =? ""); discriminate.
  - rewrite tableRows_array.
    apply bind_followed.
    + apply indexRows_followed. eapply Forall_impl; [|exact IHel]. auto.
    + intros [? ?] _. apply bind_followed; [|intros [? ?] _; discriminate].
      apply ownRows_followed. eapply Forall_impl; [|exact IHnamed]. auto.
  - rewrite tableRows_object.
    apply bind_followed; [|intros [? ?] _; discriminate].
    apply ownRows_followed. eapply Forall_impl; [|exact IHown]. auto.
Qed.

Lemma totalRows_followed (total : slot) : totalRows nts stn total <> Beyond.
Proof.
  destruct total as [t|]; cbn [totalRows]; [|discriminate].
  destruct (truthy t); [|discriminate].
  apply bind_followed; [apply addColorToStats_followed|intros t' _].
  apply bind_followed; [apply columns_followed|discriminate].
Qed.

(** A directory entry below which the table cannot be built stops the row
    of the directory too. *)
Lemma tableEntry_directory_throws (self : value -> result (string * value))
      (depth : nat) (k : string) (e : value) :
  isJsFileRe k = false -> self e = Throw ->
  tableEntry nts stn self depth k e = Throw.
Proof.
  intros Hk Hself. unfold tableEntry. rewrite Hk.
  apply bind_throws; [apply directoryRow_followed|intros row _].
  now rewrite Hself.
Qed.

Lemma ownRows_text (depth : nat) (ps : props) :
  Forall (fun kv => holdsText (snd kv) = true ->
                    forall d, tableRows nts stn (snd kv) d = Throw) ps ->
  textInOwn ps = true ->
  ownRows nts stn (fun e => tableRows nts stn e (depth + 1)) depth ps = Throw.
Proof.
  induction 1 as [|[k e] ps He _ IH]; cbn [textInOwn ownRows]; [discriminate|].
  intros Htext. cbn [snd] in He.
  destruct (negb (isJsFileRe k) && holdsText e) eqn:Hhere.
  - apply andb_true_iff in Hhere. destruct Hhere as [Hk Hhere].
    apply negb_true_iff in Hk.
    rewrite tableEntry_directory_throws; [reflexivity|assumption|now apply He].
  - cbn [orb] in Htext.
    apply bind_throws.
    + apply tableEntry_followed, tableRows_followed.
    + intros [? ?] _. now rewrite IH.
Qed.

Lemma indexRows_text (depth : nat) (el : list value) :
  Forall (fun e => holdsText e = true ->
                   forall d, tableRows nts stn e d = Throw) el ->
  forall i,
    textInIndices i el = true ->
    indexRows nts stn (fun e => tableRows nts stn e (depth + 1)) depth i el = Throw.
Proof.
  induction 1 as [|e el He _ IH]; intros i; cbn [textInIndices indexRows];
    [discriminate|].
  intros Htext.
  destruct (negb (isJsFileRe (Str.ofNat i)) && holdsText e) eqn:Hhere.
  - apply andb_true_iff in Hhere. destruct Hhere as [Hk Hhere].
    apply negb_true_iff in Hk.
    rewrite tableEntry_directory_throws; [reflexivity|assumption|now apply He].
  - cbn [orb] in Htext.
    apply bind_throws.
    + apply tableEntry_followed, tableRows_followed.
    + intros [? ?] _. now rewrite IH.
Qed.

Lemma tableRows_text (v : value) :
  holdsText v = true -> forall depth, tableRows nts stn v depth = Throw.
Proof.
  induction v as [| b | x | s | el named IHel IHnamed | own IHown]
    using value_nested_ind; try discriminate.
  - cbn [holdsText tableRows]. intros H depth.
    apply negb_true_iff in H. now rewrite H.
  - change (holdsText (VArr el named))
      with (textInIndices 0 el || textInOwn named).
    intros H depth. rewrite tableRows_array.
    destruct (textInIndices 0 el) eqn:Hidx.
    + now rewrite indexRows_text.
    + cbn [orb] in H. apply bind_throws.
      * apply indexRows_followed, Forall_forall. intros e _.
        apply tableRows_followed.
      * intros [? ?] _. now rewrite ownRows_text.
  - change (holdsText (VObj own)) with (textInOwn own).
    intros H depth. rewrite tableRows_object. now rewrite ownRows_text.
Qed.

End RendererErrors.

(** X11.  The table cannot be built from a tree that holds a string other
    than the empty one below keys that do not match the file expression:
    [buildTableDepth] calls itself on the string, whose first character is a
    string again, without end, whatever the total and the depth. *)
Theorem text_below_directories_throws :
  forall numberToString stringToNumber total files depth,
    holdsText files = true ->
    buildTableDepth numberToString stringToNumber total files depth = Throw.
Proof.
  intros nts stn total files depth H. unfold buildTableDepth.
  apply bind_throws; [apply totalRows_followed|intros [top t] _].
  now rewrite tableRows_text.
Qed.

Lemma text_below_directories_throws_witness :
  buildTableDepth sampleNumberToString sampleStringToNumber None
    (VObj [("src", VObj [("a.ts", VObj [("uncovered", VArr [VStr "5"] [])])])]) 0
  = Throw.
Proof.
  apply text_below_directories_throws. vm_compute. reflexivity.
Defined.

(** ** Colours: the statistic that is not there *)

Section ColourErrors.

Variable nts : float -> string.
Variable stn : string -> float.

Lemma assign_get_other (stats : value) (stat dim : string) (x stats' : value) :
  In stat statsToProcess -> In dim statsToProcess -> stat <> dim ->
  Obj.assign stats stat x = Ok stats' ->
  Obj.get stats' dim = Obj.get stats dim.
Proof.
  intros Hs Hd Hne.
  destruct (statsToProcess_named dim Hd) as (_ & Hobj & Harr).
  destruct stats as [| b | y | s | el named | own]; cbn [Obj.assign].
  - discriminate.
  - now intros [= <-].
  - now intros [= <-].
  - now intros [= <-].
  - destruct (Obj.isArrayIndex stat || (stat =? "length")
              || (stat =? "__proto__") && negb (Obj.has stat named));
      [discriminate|].
    intros [= <-]. rewrite !Harr. now rewrite ObjFacts.lookup_set_other.
  - destruct ((stat =? "__proto__") && negb (Obj.has stat own)); [discriminate|].
    intros [= <-]. rewrite !Hobj. now rewrite ObjFacts.lookup_set_other.
Qed.

Lemma colorStat_get_other (stats : value) (stat dim : string) (stats' : value) :
  In stat statsToProcess -> In dim statsToProcess -> stat <> dim ->
  colorStat nts stn stats stat = Ok stats' ->
  Obj.get stats' dim = Obj.get stats dim.
Proof.
  intros Hs Hd Hne H. unfold colorStat in H.
  bind_ok H. destruct a as [dv|]; [|discriminate H].
  destruct dv as [| b | x | s | el named | own]; [discriminate H|..];
    do 4 bind_ok H; exact (assign_get_other _ _ _ _ _ Hs Hd Hne H).
Qed.

Lemma colorStat_missing (stats : value) (dim : string) :
  Obj.get stats dim = Ok None \/ Obj.get stats dim = Ok (Some VNull) ->
  colorStat nts stn stats dim = Throw.
Proof. unfold colorStat. now intros [-> | ->]. Qed.

Lemma colorStat_stays_missing (stats : value) (stat dim : string) (stats' : value) :
  In stat statsToProcess -> In dim statsToProcess -> stat <> dim ->
  Obj.get stats dim = Ok None \/ Obj.get stats dim = Ok (Some VNull) ->
  colorStat nts stn stats stat = Ok stats' ->
  Obj.get stats' dim = Ok None \/ Obj.get stats' dim = Ok (Some VNull).
Proof.
  intros Hs Hd Hne Hmiss H.
  now rewrite (colorStat_get_other stats stat dim stats' Hs Hd Hne H).
Qed.

End ColourErrors.

(** X12.  [addColorToStats] throws on every value that lacks one of the
    four statistics, or holds [null] for it: [stats[stat].pct] reads a
    property of [undefined] or of [null]; the statistics coloured before that
    one do not supply it. *)
Theorem statistic_that_is_missing_throws :
  forall numberToString stringToNumber stats dim,
    In dim statsToProcess ->
    Obj.get stats dim = Ok None \/ Obj.get stats dim = Ok (Some VNull) ->
    addColorToStats numberToString stringToNumber stats = Throw.
Proof.
  intros nts stn stats dim Hin Hmiss. unfold addColorToStats.
  assert (Hstep : forall stat s,
             In stat statsToProcess -> stat <> dim ->
             Obj.get s dim = Ok None \/ Obj.get s dim = Ok (Some VNull) ->
             forall k : value -> result value,
               (forall s', Obj.get s' dim = Ok None
                           \/ Obj.get s' dim = Ok (Some VNull) -> k s' = Throw) ->
               bind (colorStat nts stn s stat) k = Throw).
  { intros stat s Hs Hne Hm k Hk.
    apply bind_throws; [now apply colorStat_followed|intros s' Hs'].
    apply Hk. eapply colorStat_stays_missing; eassumption. }
  destruct Hin as [<-|[<-|[<-|[<-|[]]]]].
  - now rewrite colorStat_missing.
  - apply Hstep; [cbn; auto|discriminate|assumption|intros s1 H1].
    now rewrite colorStat_missing.
  - apply Hstep; [cbn; auto|discriminate|assumption|intros s1 H1].
    apply Hstep; [cbn; auto|discriminate|assumption|intros s2 H2].
    now rewrite colorStat_missing.
  - apply Hstep; [cbn; auto|discriminate|assumption|intros s1 H1].
    apply Hstep; [cbn; auto|discriminate|assumption|intros s2 H2].
    apply Hstep; [cbn; auto|discriminate|assumption|intros s3 H3].
    now apply colorStat_missing.
Qed.

Lemma statistic_that_is_missing_throws_witness :
  addColorToStats sampleNumberToString sampleStringToNumber
    (VObj [("statements", sampleStat 90); ("branches", sampleStat 90);
           ("lines", sampleStat 90); ("uncovered", VArr [VStr "5"] [])])
  = Throw.
Proof.
  apply (statistic_that_is_missing_throws _ _ _ "functions");
    [cbn; auto|left; reflexivity].
Defined.

(** ** The run that starts without a summary *)

Lemma ofNat_nonempty (n : N) : Str.ofNat n <> "".
Proof.
  unfold Str.ofNat.
  assert (H : N.to_uint n <> Decimal.Nil)
    by (destruct n; [discriminate|apply DecimalPos.Unsigned.to_uint_nonnil]).
  destruct (N.to_uint n); [congruence|discriminate..].
Qed.

Section RangeTexts.

Variable nts : float -> string.
Variable stn : string -> float.
Hypothesis nts_nonempty : forall x, nts x <> "".

Lemma uncoveredString_nonempty (b e : Num.number) : uncoveredString nts b e <> "".
Proof.
  unfold uncoveredString.
  assert (H : printNumber nts b <> "")
    by (destruct b; [apply ofNat_nonempty|apply nts_nonempty]).
  destruct (printNumber nts b); [congruence|discriminate].
Qed.

Lemma emitted_ranges_nonempty (trace : list string) :
  forall st, Forall (fun kr => snd kr <> "") (emitted nts stn st trace).
Proof.
  induction trace as [|line trace IH]; intros st; [constructor|].
  cbn [emitted]. destruct (advance nts stn st line) as [st' [kr|]] eqn:E; [|apply IH].
  constructor; [|apply IH].
  unfold advance in E. destruct (reSF line); [discriminate|].
  destruct (reDA line), (isRecordingUncovered st); try discriminate.
  injection E as _ <-. apply uncoveredString_nonempty.
Qed.

End RangeTexts.

Lemma lookup_In (k : string) (ps : props) (v : value) :
  Obj.lookup k ps = Some v -> In (k, v) ps.
Proof.
  induction ps as [|[k' v'] ps IH]; cbn [Obj.lookup]; [discriminate|].
  destruct (k' =? k) eqn:E.
  - apply String.eqb_eq in E. intros [= ->]. subst. now left.
  - intros H. right. now apply IH.
Qed.

Lemma remove_absent (k : string) (ps : props) :
  Obj.lookup k ps = None -> Obj.remove k ps = ps.
Proof.
  induction ps as [|[k' v'] ps IH]; cbn [Obj.lookup Obj.remove]; [reflexivity|].
  destruct (k' =? k); [discriminate|]. intros H. now rewrite IH.
Qed.

Section SetFacts.

Variable P : string * value -> Prop.

Lemma Forall_update (k : string) (v : value) (ps : props) :
  Forall P ps -> P (k, v) -> Forall P (Obj.update k v ps).
Proof.
  intros Hps Hkv. induction Hps as [|[k' v'] ps Hk' Hps IH]; [constructor|].
  cbn [Obj.update]. destruct (k' =? k) eqn:E.
  - apply String.eqb_eq in E. subst k'. now constructor.
  - now constructor.
Qed.

Lemma Forall_insertIndex (i : N) (k : string) (v : value) (ps : props) :
  Forall P ps -> P (k, v) -> Forall P (Obj.insertIndex i k v ps).
Proof.
  intros Hps Hkv. induction Hps as [|[k' v'] ps Hk' Hps IH];
    cbn [Obj.insertIndex]; [now repeat constructor|].
  destruct (Obj.isArrayIndex k' && (Str.toNat k' <? i)%N); now repeat constructor.
Qed.

Lemma Forall_set (k : string) (v : value) (ps : props) :
  Forall P ps -> P (k, v) -> Forall P (Obj.set k v ps).
Proof.
  intros Hps Hkv. unfold Obj.set, Obj.create.
  destruct (Obj.has k ps); [now apply Forall_update|].
  destruct (Obj.isArrayIndex k); [now apply Forall_insertIndex|].
  apply Forall_app. split; [assumption|now repeat constructor].
Qed.

End SetFacts.

Lemma set_nonempty (k : string) (v : value) (ps : props) : Obj.set k v ps <> [].
Proof.
  unfold Obj.set, Obj.create. destruct (Obj.has k ps) eqn:E.
  - destruct ps as [|[k' v'] ps]; [discriminate E|].
    cbn [Obj.update]. destruct (k' =? k); discriminate.
  - destruct (Obj.isArrayIndex k).
    + destruct ps as [|[k' v'] ps]; cbn [Obj.insertIndex]; [discriminate|].
      destruct (Obj.isArrayIndex k' && (Str.toNat k' <? Str.toNat k)%N); discriminate.
    + destruct ps; discriminate.
Qed.

(** SummaryMerger on a summary made of ranges. *)
Lemma recordRange_rangesAlone (key range : string) (jsonSummary : props) :
  rangesAlone jsonSummary -> underDirectory key -> range <> "" ->
  exists summary,
    recordRange key range jsonSummary = Ok summary
    /\ rangesAlone summary /\ summary <> [].
Proof.
  intros Hall Hkey Hrange. rewrite recordRange_pushOn by (right; apply Hkey).
  rewrite ObjFacts.read_own by apply Hkey. cbn [bind].
  assert (Hpush : exists entry,
             pushOn (entryAfterLine88 (Obj.lookup key jsonSummary)) range = Ok entry
             /\ rangesOnly entry).
  { destruct (Obj.lookup key jsonSummary) as [v|] eqn:E.
    - apply lookup_In in E. unfold rangesAlone in Hall.
      rewrite Forall_forall in Hall. destruct (Hall _ E) as [_ (r & l & Hr & Hv)].
      cbn [snd] in Hv. subst v.
      eexists. split; [reflexivity|]. exists r, (l ++ [VStr range]). now split.
    - eexists. split; [reflexivity|]. exists range, []. now split. }
  destruct Hpush as (entry & -> & Hentry). cbn [bind].
  eexists. split; [reflexivity|]. split; [|apply set_nonempty].
  apply Forall_set; [assumption|now split].
Qed.

Lemma mergeAll_rangesAlone (ranges : list (string * string)) :
  forall jsonSummary,
    rangesAlone jsonSummary ->
    Forall (fun kr => underDirectory (fst kr)) ranges ->
    Forall (fun kr => snd kr <> "") ranges ->
    exists summary,
      mergeAll jsonSummary ranges = Ok summary
      /\ rangesAlone summary
      /\ (ranges <> [] -> summary <> []).
Proof.
  induction ranges as [|[key range] ranges IH]; intros js Hjs Hkeys Hranges.
  - exists js. repeat split; [assumption|congruence].
  - inversion Hkeys as [|? ? Hkey Hkeys']; subst.
    inversion Hranges as [|? ? Hrange Hranges']; subst.
    destruct (recordRange_rangesAlone key range js Hjs Hkey Hrange)
      as (js' & Hrec & Hjs' & Hne).
    cbn [mergeAll]. rewrite Hrec. cbn [bind].
    destruct (IH js' Hjs' Hkeys' Hranges') as (summary & Hm & Hs & Hne').
    exists summary. repeat split; [assumption..|]. intros _.
    destruct ranges as [|kr ranges]; [|apply Hne'; discriminate].
    cbn [mergeAll] in Hm. now injection Hm as <-.
Qed.

(** TreeBuilder keeps the shape of the entries it places. *)
Section TreeShape.

Variable T : value -> Prop.
Variable F : string * value -> Prop.

Lemma divideEntry_treeOf (divided : props) (path : string) (v : value) :
  treeOf T F divided -> underDirectory path ->
  (path = "total" -> T v) -> (path <> "total" -> F (fileOfPath path, v)) ->
  exists divided',
    divideEntry divided path v = Ok divided'
    /\ treeOf T F divided' /\ divided' <> [].
Proof.
  intros Htree (Hinh & (Hdir & Hdinh & Hfile) & Hjs) HT HF. unfold divideEntry.
  destruct (path =? "total") eqn:Etotal.
  - apply String.eqb_eq in Etotal.
    eexists. split; [reflexivity|]. split; [|apply set_nonempty].
    apply Forall_set; [assumption|]. left. split; [assumption|now apply HT].
  - apply String.eqb_neq in Etotal. specialize (HF Etotal).
    rewrite ObjFacts.read_own by assumption. cbn [bind].
    assert (Hp : (fileOfPath path =? "__proto__") = false)
      by now apply String.eqb_neq.
    destruct (Obj.lookup (pathWithoutFile path) divided) as [x|] eqn:E.
    + apply lookup_In in E. unfold treeOf in Htree.
      rewrite Forall_forall in Htree.
      destruct (Htree _ E) as [[Habs _]|(_ & _ & files & Hx & Hne & Hfiles)];
        [contradiction|].
      cbn [snd] in Hx. subst x. cbn [truthy truthySlot Obj.assign].
      rewrite Hp. cbn [andb bind].
      eexists. split; [reflexivity|]. split; [|apply set_nonempty].
      apply Forall_set; [now apply Forall_forall|].
      right. repeat split; [assumption..|].
      eexists. split; [reflexivity|]. split; [apply set_nonempty|].
      now apply Forall_set.
    + cbn [truthySlot Obj.assign]. rewrite Hp. cbn [andb bind].
      rewrite ObjFacts.set_set_same.
      eexists. split; [reflexivity|]. split; [|apply set_nonempty].
      apply Forall_set; [assumption|].
      right. repeat split; [assumption..|].
      eexists. split; [reflexivity|]. split; [apply set_nonempty|].
      apply Forall_set; [constructor|assumption].
Qed.

Lemma divideFrom_treeOf (jsonSummary : props) :
  forall divided,
    summaryOf T F jsonSummary -> treeOf T F divided ->
    exists divided',
      divideFrom divided jsonSummary = Ok divided'
      /\ treeOf T F divided'
      /\ (jsonSummary <> [] -> divided' <> []).
Proof.
  induction jsonSummary as [|[k v] js IH]; intros divided Hjs Htree.
  - exists divided. repeat split; [assumption|congruence].
  - inversion Hjs as [|? ? (Hk & HT & HF) Hjs']; subst. cbn [fst snd] in Hk, HT, HF.
    destruct (divideEntry_treeOf divided k v Htree Hk HT HF)
      as (d' & Hd & Htree' & Hne).
    cbn [divideFrom]. rewrite Hd. cbn [bind].
    destruct (IH d' Hjs' Htree') as (d'' & Hd' & Htree'' & Hne').
    exists d''. repeat split; [assumption..|]. intros _.
    destruct js as [|kv js]; [|apply Hne'; discriminate].
    cbn [divideFrom] in Hd'. now injection Hd' as <-.
Qed.

End TreeShape.

Lemma rangesAlone_summaryOf (jsonSummary : props) :
  rangesAlone jsonSummary ->
  summaryOf rangesOnly (fun fe => rangesOnly (snd fe)) jsonSummary.
Proof.
  apply Forall_impl. intros [k v] [Hk Hv].
  split; [exact Hk|]. split; intros _; exact Hv.
Qed.

Section RangesAloneRendered.

Variable nts : float -> string.
Variable stn : string -> float.

Lemma rangesOnly_holdsText (v : value) : rangesOnly v -> holdsText v = true.
Proof.
  intros (r & l & Hr & ->). apply String.eqb_neq in Hr.
  cbn [holdsText].
  change (isJsFileRe "uncovered") with false.
  change (isJsFileRe (Str.ofNat 0)) with false.
  now rewrite Hr.
Qed.

Lemma rangesOnly_colour (v : value) :
  rangesOnly v -> addColorToStats nts stn v = Throw.
Proof. now intros (r & l & Hr & ->). Qed.

Lemma tableEntry_rangesOnly (depth : nat) (k : string) (v : value) :
  rangesOnly v ->
  tableEntry nts stn (fun e => tableRows nts stn e (depth + 1)) depth k v = Throw.
Proof.
  intros Hv. destruct (isJsFileRe k) eqn:E.
  - unfold tableEntry, fileRow. now rewrite E, rangesOnly_colour.
  - apply tableEntry_directory_throws; [assumption|].
    now apply tableRows_text, rangesOnly_holdsText.
Qed.

Lemma tableRows_rangesOnly (depth : nat) (files : props) :
  files <> [] -> Forall (fun fe => rangesOnly (snd fe)) files ->
  tableRows nts stn (VObj files) depth = Throw.
Proof.
  intros Hne Hall. rewrite tableRows_object.
  destruct Hall as [|[k v] files Hv _]; [congruence|].
  cbn [ownRows]. now rewrite tableEntry_rangesOnly.
Qed.

Lemma tableRows_rangesTree (depth : nat) (divided : props) :
  divided <> [] -> rangesTree divided -> Obj.lookup "total" divided = None ->
  tableRows nts stn (VObj divided) depth = Throw.
Proof.
  intros Hne Htree Htotal. rewrite tableRows_object.
  destruct Htree as [|[k v] divided Hkv _]; [congruence|].
  cbn [ownRows]. cbn [fst snd] in Hkv.
  destruct Hkv as [[-> _]|(_ & Hjs & files & -> & Hfiles & Hall)];
    [discriminate Htotal|].
  rewrite tableEntry_directory_throws; [reflexivity|assumption|].
  now apply tableRows_rangesOnly.
Qed.

Lemma onClose_rangesAlone (jsonSummary : props) :
  jsonSummary <> [] -> rangesAlone jsonSummary ->
  onClose nts stn jsonSummary = Throw.
Proof.
  intros Hne Hjs. unfold onClose, dividedJsonSummary.
  destruct (divideFrom_treeOf _ _ jsonSummary []
              (rangesAlone_summaryOf _ Hjs) (Forall_nil _))
    as (divided & -> & Htree & Hne').
  cbn [bind]. unfold buildTable, buildTableDepth, totalSummary, filesSummary.
  destruct (Obj.lookup "total" divided) as [t|] eqn:E.
  - apply lookup_In in E. unfold treeOf in Htree.
    rewrite Forall_forall in Htree.
    destruct (Htree _ E) as [[_ Ht]|[Habs _]]; [|now contradiction Habs].
    cbn [snd] in Ht. unfold totalRows.
    destruct Ht as (r & l & Hr & ->). reflexivity.
  - rewrite (remove_absent _ _ E). cbn [totalRows bind].
    now rewrite tableRows_rangesTree by auto.
Qed.

End RangesAloneRendered.

(** X13.  Started without a summary, the script cannot report an uncovered
    line: when no summary was loaded and the trace makes the handler push at
    least one range, each for a path that is no member name of
    [Object.prototype] and that TreeBuilder stores below a directory row (its
    directory key is neither ["total"], nor a member name of
    [Object.prototype], nor a match of the file expression, and its file key
    is not [__proto__]), the close handler throws.  The entry that the merge
    made holds the ranges and no statistic: under a key that matches the file
    expression [addColorToStats] reads the statistics it lacks, under any
    other key [buildTableDepth] descends into the range strings, none of
    which is empty since no number prints as the empty string. *)
Theorem run_without_a_summary_throws :
  forall numberToString stringToNumber root trace,
    (forall x, numberToString x <> "") ->
    emitted numberToString stringToNumber start trace <> [] ->
    Forall (fun kr => underDirectory (fst kr))
           (emitted numberToString stringToNumber start trace) ->
    run numberToString stringToNumber root None trace = Throw.
Proof.
  intros nts stn root trace Hnts Hne Hkeys. unfold run.
  rewrite readLines_mergeAll.
  destruct (mergeAll_rangesAlone (emitted nts stn start trace)
              (loadSummary root None) (Forall_nil _) Hkeys
              (emitted_ranges_nonempty nts stn Hnts trace start))
    as (summary & -> & Hs & Hne').
  cbn [bind]. apply onClose_rangesAlone; auto.
Qed.

Lemma run_without_a_summary_throws_witness :
  run sampleNumberToString sampleStringToNumber "/proj" None
      ["SF:src/a.js"; "DA:5,0"; "end_of_record"]
  = Throw.
Proof.
  apply run_without_a_summary_throws.
  - discriminate.
  - vm_compute. discriminate.
  - vm_compute. constructor; [|constructor].
    repeat split; discriminate.
Defined.

(** ** Line numbers and their decimals *)

Lemma digitsValue_of_uint_acc (d : Decimal.uint) :
  forall p, Str.digitsValue (Npos p) (NilEmpty.string_of_uint d)
            = Npos (Pos.of_uint_acc d p).
Proof.
  induction d; intros p; cbn [NilEmpty.string_of_uint Str.digitsValue Pos.of_uint_acc];
    [reflexivity|rewrite <- IHd; f_equal; vm_compute (N.of_nat _); lia..].
Qed.

Lemma digitsValue_of_uint (d : Decimal.uint) :
  Str.digitsValue 0 (NilEmpty.string_of_uint d) = N.of_uint d.
Proof.
  unfold N.of_uint.
  induction d; cbn [NilEmpty.string_of_uint Str.digitsValue Pos.of_uint];
    [reflexivity|exact IHd|apply digitsValue_of_uint_acc..].
Qed.

Lemma toNat_ofNat (n : N) : Str.toNat (Str.ofNat n) = n.
Proof.
  unfold Str.toNat, Str.ofNat. rewrite digitsValue_of_uint.
  apply DecimalN.Unsigned.of_to.
Qed.

Lemma allDigits_of_uint (d : Decimal.uint) :
  allDigits (NilEmpty.string_of_uint d) = true.
Proof. induction d; [reflexivity|exact IHd..]. Qed.

Lemma lacks_hyphen_of_uint (d : Decimal.uint) :
  lacks "-" (NilEmpty.string_of_uint d) = true.
Proof. induction d; [reflexivity|exact IHd..]. Qed.

Lemma plain_oneLine (s : string) : plain s = true -> oneLine s = true.
Proof.
  induction s as [|c s IH]; [reflexivity|]. cbn [plain oneLine].
  intros H. apply andb_true_iff in H. destruct H as [Hc Hs].
  apply andb_true_iff in Hc. destruct Hc as [Hnl Hlead].
  apply negb_true_iff in Hnl, Hlead.
  rewrite (IH Hs), andb_true_r. cbn [Str.terminatorAt]. rewrite Hnl.
  destruct s as [|c1 [|c2 s']]; [reflexivity..|].
  unfold Str.isSeparator. now rewrite Hlead.
Qed.

Lemma plain_append (a b : string) :
  plain a = true -> plain b = true -> plain (a ++ b) = true.
Proof.
  intros Ha Hb. induction a as [|c a IH]; [exact Hb|].
  cbn [plain append] in *. apply andb_true_iff in Ha. destruct Ha as [Hc Ha].
  now rewrite Hc, IH.
Qed.

Lemma allDigits_plain (s : string) : allDigits s = true -> plain s = true.
Proof.
  induction s as [|c s IH]; [reflexivity|]. cbn [allDigits plain].
  intros H. apply andb_true_iff in H. destruct H as [Hc Hs].
  rewrite (IH Hs), andb_true_r.
  destruct c as [[] [] [] [] [] [] [] []]; first [reflexivity|discriminate Hc].
Qed.

Lemma record_oneLine (digits : string) :
  allDigits digits = true -> oneLine ("DA:" ++ digits ++ ",0") = true.
Proof.
  intros Hd. apply plain_oneLine. apply (plain_append "DA:"); [reflexivity|].
  apply plain_append; [now apply allDigits_plain|reflexivity].
Qed.

Lemma reSF_record (digits : string) :
  allDigits digits = true -> reSF ("DA:" ++ digits ++ ",0") = None.
Proof.
  intros Hd. unfold reSF. now rewrite subjectLines_oneLine by now apply record_oneLine.
Qed.

Lemma reDA_record (digits : string) :
  digits <> "" -> allDigits digits = true ->
  reDA ("DA:" ++ digits ++ ",0") = Some digits.
Proof.
  intros Hne Hd. unfold reDA.
  rewrite subjectLines_oneLine by now apply record_oneLine.
  cbn [firstMatch]. rewrite prefix_append.
  change (Str.drop 3 ("DA:" ++ digits ++ ",0")) with (digits ++ ",0")%string.
  rewrite (spanDigits_append digits ",0" Hd eq_refl).
  destruct digits as [|c digits]; [congruence|]. reflexivity.
Qed.

Lemma unaryPlus_decimal (stn : string -> float) (n : N) :
  (n <= Num.maxExact)%N -> unaryPlus stn (Str.ofNat n) = Num.Int n.
Proof.
  intros H. unfold unaryPlus. rewrite toNat_ofNat.
  now rewrite (proj2 (N.leb_le _ _) H).
Qed.

(** X14.  A line number up to 2^53 survives the handler: the uncovered
    record written with the decimal of [n] is read as [n], and the range of
    that record alone is stored as the same decimal. *)
Theorem record_prints_its_line_number :
  forall numberToString stringToNumber n st closing,
    (n <= Num.maxExact)%N ->
    isRecordingUncovered st = false ->
    reSF closing = None -> reDA closing = None ->
    lineNumber stringToNumber ("DA:" ++ Str.ofNat n ++ ",0") = Num.Int n
    /\ emitted numberToString stringToNumber st
               [("DA:" ++ Str.ofNat n ++ ",0")%string; closing]
       = [(propertyKey (filename st), Str.ofNat n)].
Proof.
  intros nts stn n st closing Hn Hrec HSF HDA.
  assert (Hrecord : reDA ("DA:" ++ Str.ofNat n ++ ",0") = Some (Str.ofNat n))
    by (apply reDA_record; [apply ofNat_nonempty|apply allDigits_of_uint]).
  split.
  - unfold lineNumber. rewrite Hrecord. now apply unaryPlus_decimal.
  - cbn [emitted]. unfold advance at 1.
    rewrite reSF_record by apply allDigits_of_uint.
    rewrite Hrecord, Hrec.
    unfold advance. rewrite HSF, HDA.
    cbn [isRecordingUncovered filename uncoveredBeginning uncoveredEnd].
    rewrite unaryPlus_decimal by assumption.
    unfold uncoveredString. cbn [Num.differ printNumber].
    now rewrite N.eqb_refl, append_nil_r.
Qed.

Lemma record_prints_its_line_number_witness :
  lineNumber sampleStringToNumber ("DA:" ++ Str.ofNat 9007199254740992 ++ ",0")
  = Num.Int 9007199254740992
  /\ emitted sampleNumberToString sampleStringToNumber start
             [("DA:" ++ Str.ofNat 9007199254740992 ++ ",0")%string; "end_of_record"]
     = [(propertyKey (filename start), Str.ofNat 9007199254740992)].
Proof.
  apply record_prints_its_line_number;
    [vm_compute; discriminate|reflexivity..].
Defined.

(** ** Badges *)

Lemma replaceFirst_lacks (c : ascii) (rep s : string) :
  lacks c s = true -> Str.replaceFirst (String c "") rep s = s.
Proof.
  induction s as [|x s IH]; [reflexivity|].
  cbn [lacks Str.replaceFirst prefix]. intros H.
  apply andb_true_iff in H. destruct H as [Hx Hs].
  apply negb_true_iff, Ascii.eqb_neq in Hx.
  destruct (ascii_dec c x) as [->|_]; [congruence|]. now rewrite IH.
Qed.

Lemma replaceFirst_first (c : ascii) (rep a b : string) :
  lacks c a = true ->
  Str.replaceFirst (String c "") rep (a ++ String c "" ++ b)
  = (a ++ rep ++ b)%string.
Proof.
  change (String c "" ++ b)%string with (String c b).
  induction a as [|x a IH].
  - intros _. cbn [append Str.replaceFirst prefix].
    destruct (ascii_dec c c) as [_|Hne]; [|congruence].
    destruct b; reflexivity.
  - cbn [lacks append Str.replaceFirst prefix]. intros H.
    apply andb_true_iff in H. destruct H as [Hx Ha].
    apply negb_true_iff, Ascii.eqb_neq in Hx.
    destruct (ascii_dec c x) as [->|_]; [congruence|]. now rewrite IH.
Qed.

Lemma lacks_append (c : ascii) (a b : string) :
  lacks c (a ++ b) = lacks c a && lacks c b.
Proof.
  induction a as [|x a IH]; [reflexivity|].
  cbn [append lacks]. now rewrite IH, andb_assoc.
Qed.

(** X15.  In the badge address of a file or directory name only the first
    space and the first hyphen are replaced, the space by ["_"] and the
    hyphen by ["--"], and everything else is kept.  The five cases cover
    every name: neither character; a first space and no hyphen; a first
    hyphen and no space; a first hyphen before the first space; a first
    space before the first hyphen.  What follows the first space may hold
    more spaces, what follows the first hyphen more hyphens. *)
Theorem only_the_first_space_and_hyphen_are_replaced :
  (forall fileKey,
      lacks " " fileKey = true -> lacks "-" fileKey = true ->
      fileKeyCharsReplaced fileKey = fileKey)
  /\ (forall a b,
         lacks " " a = true -> lacks "-" a = true -> lacks "-" b = true ->
         fileKeyCharsReplaced (a ++ " " ++ b) = (a ++ "_" ++ b)%string)
  /\ (forall a b,
         lacks " " a = true -> lacks "-" a = true -> lacks " " b = true ->
         fileKeyCharsReplaced (a ++ "-" ++ b) = (a ++ "--" ++ b)%string)
  /\ (forall a b c,
         lacks " " a = true -> lacks "-" a = true -> lacks " " b = true ->
         fileKeyCharsReplaced (a ++ "-" ++ b ++ " " ++ c)
         = (a ++ "--" ++ b ++ "_" ++ c)%string)
  /\ (forall a b c,
         lacks " " a = true -> lacks "-" a = true -> lacks "-" b = true ->
         fileKeyCharsReplaced (a ++ " " ++ b ++ "-" ++ c)
         = (a ++ "_" ++ b ++ "--" ++ c)%string).
Proof.
  unfold fileKeyCharsReplaced. split; [|split; [|split; [|split]]].
  - intros k Hs Hh. rewrite (replaceFirst_lacks " " "_" k Hs).
    now apply replaceFirst_lacks.
  - intros a b Hs Ha Hb.
    rewrite (replaceFirst_first " " "_" a b Hs).
    apply replaceFirst_lacks. rewrite lacks_append, Ha. exact Hb.
  - intros a b Hs Ha Hb.
    rewrite (replaceFirst_lacks " " "_" (a ++ "-" ++ b))
      by (rewrite lacks_append, Hs; exact Hb).
    apply (replaceFirst_first "-" "--" a b Ha).
  - intros a b c Hs Ha Hb.
    replace (a ++ "-" ++ b ++ " " ++ c)%string
      with ((a ++ "-" ++ b) ++ " " ++ c)%string
      by (now rewrite !append_assoc).
    rewrite (replaceFirst_first " " "_" (a ++ "-" ++ b) c)
      by (rewrite lacks_append, Hs; exact Hb).
    replace ((a ++ "-" ++ b) ++ "_" ++ c)%string
      with (a ++ "-" ++ (b ++ "_" ++ c))%string
      by (now rewrite !append_assoc).
    apply (replaceFirst_first "-" "--" a (b ++ "_" ++ c) Ha).
  - intros a b c Hs Ha Hb.
    rewrite (replaceFirst_first " " "_" a (b ++ "-" ++ c) Hs).
    replace (a ++ "_" ++ b ++ "-" ++ c)%string
      with ((a ++ "_" ++ b) ++ "-" ++ c)%string
      by (now rewrite !append_assoc).
    rewrite (replaceFirst_first "-" "--" (a ++ "_" ++ b) c)
      by (rewrite lacks_append, Ha; exact Hb).
    now rewrite !append_assoc.
Qed.

Lemma only_the_first_space_and_hyphen_are_replaced_witness :
  fileKeyCharsReplaced "index.js" = "index.js"
  /\ fileKeyCharsReplaced ("my" ++ " " ++ "own file.js") = "my_own file.js"
  /\ fileKeyCharsReplaced ("a" ++ "-" ++ "b-c.js") = "a--b-c.js"
  /\ fileKeyCharsReplaced ("a" ++ "-" ++ "b-c" ++ " " ++ "d e-f.js")
     = "a--b-c_d e-f.js"
  /\ fileKeyCharsReplaced ("my" ++ " " ++ "own files" ++ "-" ++ "a-b c.js")
     = "my_own files--a-b c.js".
Proof.
  destruct only_the_first_space_and_hyphen_are_replaced
    as (H1 & H2 & H3 & H4 & H5).
  split; [|split; [|split; [|split]]].
  - apply H1; reflexivity.
  - apply (H2 "my" "own file.js"); reflexivity.
  - apply (H3 "a" "b-c.js"); reflexivity.
  - apply (H4 "a" "b-c" "d e-f.js"); reflexivity.
  - apply (H5 "my" "own files" "a-b c.js"); reflexivity.
Defined.

(** X16.  The badge of a range of two integers: the address doubles the
    hyphen between the two line numbers, the alternative text keeps the range
    as it is, the colour is red, and a range of one line is its number in
    both places. *)
Theorem range_badge_doubles_the_hyphen :
  forall numberToString b e,
    uncoveredBadges [VStr (uncoveredString numberToString (Num.Int b) (Num.Int e))]
    = Ok (badge (uncoveredString numberToString (Num.Int b) (Num.Int e))
                (Str.ofNat b ++ (if (e =? b)%N then "" else "--" ++ Str.ofNat e))
                RED ++ "&nbsp;")%string.
Proof.
  intros nts b e. cbn [uncoveredBadges bind]. do 3 f_equal.
  unfold uncoveredString. cbn [Num.differ printNumber]. destruct (e =? b)%N.
  - cbn [negb]. rewrite !append_nil_r.
    apply replaceFirst_lacks, lacks_hyphen_of_uint.
  - cbn [negb]. apply (replaceFirst_first "-" "--" (Str.ofNat b) (Str.ofNat e)).
    apply lacks_hyphen_of_uint.
Qed.

(** ** The run on a summary of files *)

Lemma In_remove (k : string) (ps : props) (kv : string * value) :
  In kv (Obj.remove k ps) -> In kv ps /\ fst kv <> k.
Proof.
  induction ps as [|[k' v'] ps IH]; cbn [Obj.remove]; [intros []|].
  destruct (k' =? k) eqn:E.
  - intros H. destruct (IH H). split; [now right|assumption].
  - intros [<-|H].
    + split; [now left|]. now apply String.eqb_neq.
    + destruct (IH H). split; [now right|assumption].
Qed.

Lemma reportable_summaryOf (jsonSummary : props) :
  reportable jsonSummary ->
  summaryOf (fun v => fileOk v = true)
            (fun fe => isJsFileRe (fst fe) = true /\ fileOk (snd fe) = true)
            jsonSummary.
Proof.
  apply Forall_impl. intros [k v] (Hk & Hjs & Hv). cbn [fst snd] in *.
  split; [exact Hk|]. split; [intros _; exact Hv|].
  intros Hne. destruct Hjs as [Ht|Hjs]; [contradiction|now split].
Qed.

(** SummaryMerger on a summary of files, for a path that has an entry. *)
Lemma recordRange_reportable (key range : string) (jsonSummary : props) :
  reportable jsonSummary -> Obj.lookup key jsonSummary <> None ->
  exists summary,
    recordRange key range jsonSummary = Ok summary
    /\ reportable summary
    /\ forall k, Obj.lookup k jsonSummary <> None -> Obj.lookup k summary <> None.
Proof.
  intros Hall Hkey. rewrite recordRange_pushOn by now left.
  destruct (Obj.lookup key jsonSummary) as [e|] eqn:E; [clear Hkey|congruence].
  pose proof (lookup_In _ _ _ E) as Hin. unfold reportable in Hall.
  pose proof (proj1 (Forall_forall _ _) Hall _ Hin) as (Hk & Hjs & He).
  cbn [fst snd] in Hk, Hjs, He.
  destruct e as [| | | | |ps]; try discriminate He. cbn [fileOk] in He.
  apply andb_true_iff in He. destruct He as [Hstats Hranges].
  rewrite ObjFacts.read_own by apply Hk. rewrite E. cbn [bind entryAfterLine88 truthy].
  assert (Hm : mergeableProps ps = true).
  { unfold mergeableProps. unfold rangesOk in Hranges.
    destruct (Obj.lookup "uncovered" ps) as [[| | | |l named|]|]; try assumption.
    now apply andb_true_iff in Hranges. }
  destruct (pushOn_named VObj ps range (object_holdsNamed "uncovered" ltac:(discriminate)) Hm)
    as (ps' & -> & (named & Hu & Hpush) & Hother).
  cbn [bind]. eexists. split; [reflexivity|]. split.
  - apply Forall_set; [exact Hall|]. cbn [fst snd].
    split; [exact Hk|]. split; [exact Hjs|]. cbn [fileOk].
    apply andb_true_iff. split.
    + rewrite forallb_forall in Hstats |- *. intros dim Hdim.
      rewrite Hother by (destruct (statsToProcess_named dim Hdim); assumption).
      now apply Hstats.
    + rewrite Hu. cbn [rangesOk]. rewrite Hpush, andb_true_r.
      rewrite forallb_app. cbn [forallb isText]. rewrite !andb_true_r.
      unfold uncoveredItems. cbn [Obj.get]. unfold rangesOk in Hranges.
      destruct (Obj.lookup "uncovered" ps) as [[| | | |l named'|]|]; try reflexivity.
      now apply andb_true_iff in Hranges.
  - intros k. rewrite ObjFacts.lookup_set. now destruct (key =? k).
Qed.

Lemma mergeAll_reportable (ranges : list (string * string)) :
  forall jsonSummary,
    reportable jsonSummary ->
    Forall (fun kr => Obj.lookup (fst kr) jsonSummary <> None) ranges ->
    exists summary, mergeAll jsonSummary ranges = Ok summary /\ reportable summary.
Proof.
  induction ranges as [|[key range] ranges IH]; intros js Hjs Hkeys.
  - now exists js.
  - inversion Hkeys as [|? ? Hkey Hkeys']; subst. cbn [fst] in Hkey.
    cbn [mergeAll].
    destruct (recordRange_reportable key range js Hjs Hkey) as (js' & -> & Hjs' & Hkeep).
    cbn [bind]. apply IH; [assumption|].
    eapply Forall_impl; [|exact Hkeys']. intros kr. apply Hkeep.
Qed.

Section Reported.

Variable nts : float -> string.
Variable stn : string -> float.

Lemma toNumber_scalar (s : slot) :
  scalar s = true -> exists n, toNumber nts stn s = Ok n.
Proof.
  destruct s as [[| b | x | t | el named | own]|]; try discriminate;
    intros _; eexists; reflexivity.
Qed.

Lemma interpolate_scalar (s : slot) :
  scalar s = true -> exists t, interpolate nts s = Ok t.
Proof.
  destruct s as [[| b | x | t | el named | own]|]; try discriminate;
    intros _; eexists; reflexivity.
Qed.

(** One statistic is coloured, the other properties stay. *)
Lemma colorStat_colours (ps : props) (stat : string) :
  In stat statsToProcess ->
  statOk (Obj.lookup stat ps) = true ->
  exists ps',
    colorStat nts stn (VObj ps) stat = Ok (VObj ps')
    /\ statColoured (Obj.lookup stat ps') = true
    /\ forall k, k <> stat -> Obj.lookup k ps' = Obj.lookup k ps.
Proof.
  intros Hin Hok. unfold statOk in Hok.
  destruct (Obj.lookup stat ps) as [[| | | | |own]|] eqn:E; try discriminate Hok.
  destruct (toNumber_scalar _ Hok) as [n Hn].
  assert (Hassign : forall c,
             Obj.assign (VObj ps) stat (VObj (Obj.set "color" (VStr c) own))
             = Ok (VObj (Obj.set stat (VObj (Obj.set "color" (VStr c) own)) ps))).
  { intros c. cbn [Obj.assign].
    rewrite (proj2 (ObjFacts.has_true stat ps)) by eauto.
    now rewrite andb_false_r. }
  assert (Hdone : forall c,
             statColoured
               (Obj.lookup stat (Obj.set stat (VObj (Obj.set "color" (VStr c) own)) ps))
             = true).
  { intros c. rewrite ObjFacts.lookup_set_same. cbn [statColoured].
    rewrite ObjFacts.lookup_set_other by discriminate.
    now rewrite Hok, ObjFacts.lookup_set_same. }
  exists (Obj.set stat
            (VObj (Obj.set "color" (VStr (if (80 <=? n)%float then GREEN
                                          else if (50 <=? n)%float then ORANGE
                                               else RED)) own)) ps).
  split; [|split; [apply Hdone|intros k Hk; now apply ObjFacts.lookup_set_other]].
  unfold colorStat. cbn [Obj.get]. rewrite E. cbn [bind Obj.get].
  unfold atLeast. rewrite Hn. cbn [bind].
  destruct (80 <=? n)%float; cbn [bind Obj.assign].
  - change ("color" =? "__proto__") with false. cbn [andb bind]. apply Hassign.
  - destruct (50 <=? n)%float; cbn [bind Obj.assign];
      change ("color" =? "__proto__") with false; cbn [andb bind]; apply Hassign.
Qed.

Lemma addColorToStats_colours (ps : props) :
  forallb (fun dim => statOk (Obj.lookup dim ps)) statsToProcess = true ->
  exists ps',
    addColorToStats nts stn (VObj ps) = Ok (VObj ps')
    /\ forallb (fun dim => statColoured (Obj.lookup dim ps')) statsToProcess = true
    /\ Obj.lookup "uncovered" ps' = Obj.lookup "uncovered" ps.
Proof.
  cbn [forallb statsToProcess]. rewrite !andb_true_r. intros H.
  apply andb_true_iff in H. destruct H as [Hs H].
  apply andb_true_iff in H. destruct H as [Hb H].
  apply andb_true_iff in H. destruct H as [Hf Hl].
  unfold addColorToStats.
  destruct (colorStat_colours ps "statements" ltac:(cbn; auto) Hs)
    as (p1 & -> & Hs1 & K1). cbn [bind].
  rewrite <- (K1 "branches") in Hb by discriminate.
  rewrite <- (K1 "functions") in Hf by discriminate.
  rewrite <- (K1 "lines") in Hl by discriminate.
  destruct (colorStat_colours p1 "branches" ltac:(cbn; auto) Hb)
    as (p2 & -> & Hb2 & K2). cbn [bind].
  rewrite <- (K2 "statements") in Hs1 by discriminate.
  rewrite <- (K2 "functions") in Hf by discriminate.
  rewrite <- (K2 "lines") in Hl by discriminate.
  destruct (colorStat_colours p2 "functions" ltac:(cbn; auto) Hf)
    as (p3 & -> & Hf3 & K3). cbn [bind].
  rewrite <- (K3 "statements") in Hs1 by discriminate.
  rewrite <- (K3 "branches") in Hb2 by discriminate.
  rewrite <- (K3 "lines") in Hl by discriminate.
  destruct (colorStat_colours p3 "lines" ltac:(cbn; auto) Hl)
    as (p4 & -> & Hl4 & K4).
  rewrite <- (K4 "statements") in Hs1 by discriminate.
  rewrite <- (K4 "branches") in Hb2 by discriminate.
  rewrite <- (K4 "functions") in Hf3 by discriminate.
  exists p4. split; [reflexivity|]. split.
  - now rewrite Hs1, Hb2, Hf3, Hl4.
  - now rewrite K4, K3, K2, K1 by discriminate.
Qed.

Lemma pctAndColor_coloured (ps : props) (dim : string) :
  statColoured (Obj.lookup dim ps) = true ->
  exists pc, pctAndColor nts (VObj ps) dim = Ok pc.
Proof.
  unfold statColoured, pctAndColor. cbn [Obj.get].
  destruct (Obj.lookup dim ps) as [[| | | | |own]|]; try discriminate.
  intros H. apply andb_true_iff in H. destruct H as [Hp Hc].
  destruct (interpolate_scalar _ Hp) as [p Hp'].
  destruct (interpolate_scalar _ Hc) as [c Hc'].
  cbn [bind Obj.get]. rewrite Hp', Hc'. cbn [bind]. eauto.
Qed.

Lemma columns_coloured (alt message : string) (ps : props) :
  forallb (fun dim => statColoured (Obj.lookup dim ps)) statsToProcess = true ->
  exists row, columns nts alt message (VObj ps) = Ok row.
Proof.
  cbn [forallb statsToProcess]. rewrite !andb_true_r. intros H.
  apply andb_true_iff in H. destruct H as [Hs H].
  apply andb_true_iff in H. destruct H as [Hb H].
  apply andb_true_iff in H. destruct H as [Hf Hl].
  unfold columns.
  destruct (pctAndColor_coloured ps _ Hs) as ([? ?] & ->).
  destruct (pctAndColor_coloured ps _ Hb) as ([? ?] & ->).
  destruct (pctAndColor_coloured ps _ Hf) as ([? ?] & ->).
  destruct (pctAndColor_coloured ps _ Hl) as ([? ?] & ->).
  cbn [bind]. eauto.
Qed.

Lemma uncoveredBadges_text (l : list value) :
  forallb isText l = true -> exists t, uncoveredBadges l = Ok t.
Proof.
  induction l as [|e l IH]; [now exists ""|].
  cbn [forallb]. intros H. apply andb_true_iff in H. destruct H as [He Hl].
  destruct e; try discriminate He. destruct (IH Hl) as [t Ht].
  cbn [uncoveredBadges]. rewrite Ht. cbn [bind]. eauto.
Qed.

Lemma uncoveredLines_ranges (ps : props) :
  rangesOk (Obj.lookup "uncovered" ps) = true ->
  exists t, uncoveredLines (VObj ps) = Ok t.
Proof.
  unfold uncoveredLines, rangesOk. cbn [Obj.get bind].
  destruct (Obj.lookup "uncovered" ps) as [[| | | |l named|]|]; eauto.
  intros H. apply andb_true_iff in H. now apply uncoveredBadges_text.
Qed.

Lemma fileRow_returns (depth : nat) (k : string) (e : value) :
  fileOk e = true -> exists r, fileRow nts stn depth k e = Ok r.
Proof.
  destruct e as [| | | | |ps]; try discriminate. cbn [fileOk]. intros H.
  apply andb_true_iff in H. destruct H as [Hstats Hranges].
  destruct (addColorToStats_colours ps Hstats) as (ps' & Hc & Hstats' & Hu).
  rewrite <- Hu in Hranges.
  destruct (uncoveredLines_ranges ps' Hranges) as [badges Hb].
  destruct (columns_coloured k (fileKeyCharsReplaced k) ps' Hstats') as [cols Hcols].
  unfold fileRow. rewrite Hc. cbn [bind]. rewrite Hb. cbn [bind].
  rewrite Hcols. cbn [bind]. eauto.
Qed.

Lemma directoryRow_returns (depth : nat) (k : string) (files : props) :
  Forall (fun fe => fileOk (snd fe) = true) files ->
  exists row, directoryRow nts stn depth k (VObj files) = Ok row.
Proof.
  intros Hfiles. unfold directoryRow.
  rewrite sumCoverage_object, (sumOwn_columns files).
  - cbn [bind].
    destruct (addColorToStats_colours
                [("lines", Aggregator.statValue
                             (Aggregator.lines (Aggregator.finish
                                                  (sumsFrom Aggregator.zero files))));
                 ("functions", Aggregator.statValue
                                 (Aggregator.functions (Aggregator.finish
                                                          (sumsFrom Aggregator.zero files))));
                 ("statements", Aggregator.statValue
                                  (Aggregator.statements (Aggregator.finish
                                                            (sumsFrom Aggregator.zero files))));
                 ("branches", Aggregator.statValue
                                (Aggregator.branches (Aggregator.finish
                                                        (sumsFrom Aggregator.zero files))))]
                eq_refl) as (ps' & Hc & Hstats' & _).
    change (Aggregator.summaryValue ?s) with
      (VObj [("lines", Aggregator.statValue (Aggregator.lines s));
             ("functions", Aggregator.statValue (Aggregator.functions s));
             ("statements", Aggregator.statValue (Aggregator.statements s));
             ("branches", Aggregator.statValue (Aggregator.branches s))]).
    rewrite Hc. cbn [bind].
    destruct (columns_coloured k (fileKeyCharsReplaced k) ps' Hstats') as [cols ->].
    cbn [bind]. eauto.
  - intros f v Hin _ ->. rewrite Forall_forall in Hfiles.
    specialize (Hfiles _ Hin). discriminate Hfiles.
Qed.

Lemma ownRows_files (depth : nat) (files : props) :
  Forall (fun fe => isJsFileRe (fst fe) = true /\ fileOk (snd fe) = true) files ->
  exists r, ownRows nts stn (fun e => tableRows nts stn e (depth + 1)) depth files = Ok r.
Proof.
  induction 1 as [|[k e] files [Hk He] _ [[more rest] IH]]; [now eexists|].
  cbn [fst snd] in Hk, He. cbn [ownRows]. unfold tableEntry at 1. rewrite Hk.
  destruct (fileRow_returns depth k e He) as [[row e'] ->]. cbn [bind].
  rewrite IH. cbn [bind]. eauto.
Qed.

Lemma ownRows_directories (depth : nat) (divided : props) :
  Forall (fun kv => isJsFileRe (fst kv) = false
                    /\ exists files,
                         snd kv = VObj files
                         /\ Forall (fun fe => isJsFileRe (fst fe) = true
                                              /\ fileOk (snd fe) = true) files)
         divided ->
  exists r, ownRows nts stn (fun e => tableRows nts stn e (depth + 1)) depth divided = Ok r.
Proof.
  induction 1 as [|[k e] divided (Hk & files & He & Hfiles) _ [[more rest] IH]];
    [now eexists|].
  cbn [fst snd] in Hk, He. subst e. cbn [ownRows]. unfold tableEntry at 1. rewrite Hk.
  destruct (directoryRow_returns depth k files) as [row ->].
  { eapply Forall_impl; [|exact Hfiles]. now intros fe [_ H]. }
  cbn [bind]. rewrite tableRows_object.
  destruct (ownRows_files (depth + 1) files Hfiles) as [[rows files'] ->].
  cbn [bind]. rewrite IH. cbn [bind]. eauto.
Qed.

Lemma totalRows_returns (total : slot) :
  match total with
  | Some t => fileOk t = true
  | None => True
  end ->
  exists r, totalRows nts stn total = Ok r.
Proof.
  destruct total as [t|]; [|now eexists].
  destruct t as [| | | | |ps]; try discriminate. cbn [fileOk totalRows truthy].
  intros H. apply andb_true_iff in H. destruct H as [Hstats _].
  destruct (addColorToStats_colours ps Hstats) as (ps' & -> & Hstats' & _).
  cbn [bind].
  destruct (columns_coloured "All files" "All%20files" ps' Hstats') as [cols ->].
  cbn [bind]. eauto.
Qed.

Lemma onClose_reportable (jsonSummary : props) :
  reportable jsonSummary ->
  exists table, onClose nts stn jsonSummary = Ok (mdComment table).
Proof.
  intros Hjs. unfold onClose, dividedJsonSummary.
  destruct (divideFrom_treeOf _ _ jsonSummary []
              (reportable_summaryOf _ Hjs) (Forall_nil _))
    as (divided & -> & Htree & _).
  cbn [bind]. unfold buildTable, buildTableDepth, totalSummary, filesSummary.
  unfold treeOf in Htree. rewrite Forall_forall in Htree.
  destruct (totalRows_returns (Obj.lookup "total" divided)) as [[top total'] ->].
  { destruct (Obj.lookup "total" divided) as [t|] eqn:E; [|exact I].
    apply lookup_In in E.
    destruct (Htree _ E) as [[_ Ht]|[Habs _]]; [exact Ht|now contradiction Habs]. }
  cbn [bind]. rewrite tableRows_object.
  destruct (ownRows_directories 1 (Obj.remove "total" divided)) as [[rows files'] Hrows].
  { apply Forall_forall. intros kv Hin. apply In_remove in Hin.
    destruct Hin as [Hin Hne].
    destruct (Htree _ Hin) as [[Habs _]|(_ & Hk & files & He & _ & Hfiles)];
      [contradiction|].
    split; [exact Hk|]. now exists files. }
  change (if (0 <=? 0)%nat then 1%nat else 0%nat) with 1%nat.
  rewrite Hrows. cbn [bind]. eauto.
Qed.

End Reported.

(** X17.  The report is written whenever the summary is one of files and
    has an entry for every path the trace reports: when every key of the
    loaded summary other than the reserved one ends in a name that matches the
    file expression, every entry is an object with the four statistics, each
    an object with a scalar percentage, and an [uncovered] that is absent,
    falsy or an array of strings, and when every range the trace emits is for
    a key of the summary, the run returns the comment around a table. *)
Theorem report_is_written_for_a_summary_of_files :
  forall numberToString stringToNumber root loaded trace,
    reportable (loadSummary root loaded) ->
    Forall (fun kr => Obj.lookup (fst kr) (loadSummary root loaded) <> None)
           (emitted numberToString stringToNumber start trace) ->
    exists table,
      run numberToString stringToNumber root loaded trace = Ok (mdComment table).
Proof.
  intros nts stn root loaded trace Hjs Hkeys. unfold run.
  rewrite readLines_mergeAll.
  destruct (mergeAll_reportable (emitted nts stn start trace) _ Hjs Hkeys)
    as (summary & -> & Hs).
  cbn [bind]. now apply onClose_reportable.
Qed.

Lemma report_is_written_for_a_summary_of_files_witness :
  exists table,
    run sampleNumberToString sampleStringToNumber "/proj" (Some sampleLoaded)
        sampleRecords
    = Ok (mdComment table).
Proof.
  apply report_is_written_for_a_summary_of_files.
  - vm_compute. repeat constructor; first [discriminate|now left|now right].
  - vm_compute. repeat constructor. discriminate.
Defined.

(** ** Aggregator: the recursive sum *)

Lemma sumOwn_recursive (obj : props) :
  Forall (fun kv => isJsFileRe (fst kv) = true \/ fst kv = "total") obj ->
  forall acc,
    (fix own (acc : Aggregator.summary) (ps : props) {struct ps}
       : result Aggregator.summary :=
       match ps with
       | [] => Ok acc
       | (entryKey, entry) :: rest =>
           acc <- Aggregator.sumEntry
                    (fun entry => Aggregator.sumCoverage entry true)
                    true acc entryKey entry ;;
           own acc rest
       end) acc obj
    = sumOwn acc obj.
Proof.
  induction 1 as [|[k e] obj Hk _ IH]; intros acc; [reflexivity|].
  cbn [sumOwn fst] in *. unfold Aggregator.sumEntry at 1.
  destruct (isJsFileRe k) eqn:Hjs.
  - destruct (Aggregator.addEntry acc e); cbn [bind]; [apply IH|reflexivity..].
  - destruct Hk as [Hk| ->]; [discriminate|].
    cbn [negb andb String.eqb Ascii.eqb Bool.eqb bind]. apply IH.
Qed.

(** X18.  The recursive sum follows only the keys that neither match the
    file expression nor are the reserved one: on an object all of whose keys
    are file keys or ["total"], [sumCoverage(obj, true)] is
    [sumCoverage(obj, false)], and the entry under ["total"] is added in
    neither case. *)
Theorem recursion_follows_directories_only :
  forall obj,
    Forall (fun kv => isJsFileRe (fst kv) = true \/ fst kv = "total") obj ->
    Aggregator.sumCoverage (VObj obj) true = Aggregator.sumCoverage (VObj obj) false
    /\ forall t, Aggregator.sumCoverage (VObj (obj ++ [("total", t)])) true
                 = Aggregator.sumCoverage (VObj obj) true.
Proof.
  intros obj Hobj.
  assert (Hflat : forall ps,
             Forall (fun kv => isJsFileRe (fst kv) = true \/ fst kv = "total") ps ->
             Aggregator.sumCoverage (VObj ps) true
             = (acc <- sumOwn Aggregator.zero ps ;; Ok (Aggregator.finish acc))).
  { intros ps Hps. cbn [Aggregator.sumCoverage]. now rewrite sumOwn_recursive. }
  split.
  - now rewrite Hflat, sumCoverage_object.
  - intros t. rewrite !Hflat; [|assumption|].
    + f_equal. generalize Aggregator.zero as acc.
      induction obj as [|[k e] obj IH]; intros acc; [reflexivity|].
      cbn [app sumOwn].
      destruct (if isJsFileRe k then Aggregator.addEntry acc e else Ok acc);
        cbn [bind]; [|reflexivity..].
      apply IH. now inversion Hobj.
    + apply Forall_app. split; [assumption|]. constructor; [now right|constructor].
Qed.

Lemma recursion_follows_directories_only_witness :
  Aggregator.sumCoverage (VObj sampleFlat) true
  = Aggregator.sumCoverage (VObj sampleFlat) false
  /\ forall t, Aggregator.sumCoverage (VObj (sampleFlat ++ [("total", t)])) true
               = Aggregator.sumCoverage (VObj sampleFlat) true.
Proof.
  apply recursion_follows_directories_only.
  unfold sampleFlat. repeat constructor; first [now right|now left].
Defined.
